(** * darts: difference scorer, Croston constructor and SHAP explainer

    A shallow embedding of
    - [darts/ad/scorers/difference_scorer.py],
    - [darts/models/forecasting/croston.py],
    - [darts/explainability/shap_explainer.py],
    followed by the properties established about them.

    Python exceptions are values of [exn]; a call that may raise returns a
    [result]. Objects that are mutated after they were handed out (the
    [shap] explanation objects) live in an explicit heap. *)

From stdpp Require Import base option list strings gmap pretty.
From Stdlib Require Import ZArith Ascii.

Set Default Proof Using "Type".

(** * Exceptions *)

Inductive exn : Type :=
  | ValueError (msg : string)
  | IndexError
  | KeyError
  | AttributeError
  | TypeError
  | UnboundLocalError
  | LibraryError (msg : string).

Inductive result (A : Type) : Type :=
  | Ok (a : A)
  | Raise (e : exn).
Arguments Ok {A} a.
Arguments Raise {A} e.

#[global] Instance result_ret : MRet result := λ A, Ok.
#[global] Instance result_bind : MBind result := λ A B f m,
  match m with Ok a => f a | Raise e => Raise e end.
#[global] Instance result_fmap : FMap result := λ A B f m,
  match m with Ok a => Ok (f a) | Raise e => Raise e end.

Definition is_Ok {A} (r : result A) : Prop := ∃ a, r = Ok a.
Definition is_Raise {A} (r : result A) : Prop := ∃ e, r = Raise e.

(** Modelled from the spec: [darts.logging] is not among the sources. Its
    helpers report a configuration error or a violated precondition to the
    caller as a rejected input, a [ValueError] carrying the message. *)
Definition raise_if (condition : bool) (message : string) : result () :=
  if condition then Raise (ValueError message) else Ok ().

Definition raise_if_not (condition : bool) (message : string) : result () :=
  raise_if (negb condition) message.

Definition raise_log {A} (exception : exn) : result A := Raise exception.

(** * Strings *)

(** Messages are quoted with the apostrophe where the source has a double
    quote inside the literal. *)

(** [str.lower] and [str.upper] on strings of ASCII characters. Python maps
    the characters outside ASCII too, which is not modelled: what is stated
    of [upper] is stated of names of ASCII characters. *)
Definition lower_ascii (c : ascii) : ascii :=
  let n := Ascii.N_of_ascii c in
  if ((65 <=? n) && (n <=? 90))%N then Ascii.ascii_of_N (n + 32) else c.

Definition upper_ascii (c : ascii) : ascii :=
  let n := Ascii.N_of_ascii c in
  if ((97 <=? n) && (n <=? 122))%N then Ascii.ascii_of_N (n - 32) else c.

Fixpoint map_string (f : ascii → ascii) (s : string) : string :=
  match s with
  | EmptyString => EmptyString
  | String c s' => String (f c) (map_string f s')
  end.

Definition lower : string → string := map_string lower_ascii.
Definition upper : string → string := map_string upper_ascii.

(** [str(lag)] for an integer. *)
Definition str (z : Z) : string := pretty z.

(** * Croston *)

Module Croston.
Section Croston.
(** The smoothing parameters are floats; nothing is computed on them. *)
Context {float : Type}.

(** The [statsforecast] model an instance wraps; [CrostonTSB] receives the
    two arguments as they were passed. *)
Inductive statsforecast_model : Type :=
  | CrostonClassic
  | CrostonOptimized
  | CrostonSBA
  | CrostonTSB (alpha_d alpha_p : option float).

(** The attributes [__init__] sets; [alpha_d] and [alpha_p] are assigned in
    the last branch only and are [None] on an object of the other three. *)
Record Croston : Type := mkCroston {
  model : statsforecast_model;
  alpha_d : option float;
  alpha_p : option float;
  version : string
}.

Definition versions : list string := ["classic"; "optimized"; "sba"; "tsb"].

(** The constructor; the call of the base-class constructor, which takes no
    argument, is left out. *)
Definition __init__ (version : string) (alpha_d alpha_p : option float)
    : result Croston :=
  _ ← raise_if_not (bool_decide (lower version ∈ versions))
        "The provided 'version' parameter must be set to 'classic', 'optimized', 'sba' or 'tsb'.";
  if String.eqb version "classic" then
    Ok (mkCroston CrostonClassic None None version)
  else if String.eqb version "optimized" then
    Ok (mkCroston CrostonOptimized None None version)
  else if String.eqb version "sba" then
    Ok (mkCroston CrostonSBA None None version)
  else
    _ ← raise_if (bool_decide (alpha_d = None) || bool_decide (alpha_p = None))
          "alpha_d and alpha_p must be specified when using 'tsb'.";
    Ok (mkCroston (CrostonTSB alpha_d alpha_p) alpha_d alpha_p version).

End Croston.
End Croston.

(** * Time series *)

Section TimeSeries.
(** [V] stands for the floating-point numbers other than NaN; a [cell] is a
    float, with [None] for NaN (a missing value). *)
Context {V : Type}.

Definition cell : Type := option V.

(** Modelled from the spec: [darts.timeseries] is not among the sources. A
    series is an ordered sequence of timestamped observations of one or more
    named components; a distributional series holds several samples of every
    value, a deterministic one exactly one. [all_values] is indexed by
    timestamp, then component, then sample. *)
Record TimeSeries : Type := mkTimeSeries {
  time_index : list Z;
  components : list string;
  n_samples : nat;
  all_values : list (list (list cell))
}.

Definition is_deterministic (ts : TimeSeries) : bool :=
  bool_decide (n_samples ts = 1).

(** [len(series)], which also decides the truth value of a series. *)
Definition ts_len (ts : TimeSeries) : nat := length (time_index ts).

(** The array of a series has one row per timestamp, one entry per
    component in each row and [n_samples] samples in each entry. *)
Definition ts_wf (ts : TimeSeries) : Prop :=
  length (all_values ts) = length (time_index ts) ∧
  Forall (λ row, length row = length (components ts)) (all_values ts) ∧
  Forall (Forall (λ smp, length smp = n_samples ts)) (all_values ts).

(** The value of component [c] at position [t] in sample [s]. *)
Definition ts_value (ts : TimeSeries) (t c s : nat) : option cell :=
  row ← all_values ts !! t; smp ← row !! c; smp !! s.

(** Modelled from the spec: [TimeSeries.__sub__] is not among the sources.
    Elementwise arithmetic is supported between series sharing an identical
    time index and component count; the result keeps the time index and the
    component structure of the left operand. Other operands are rejected. *)
Definition ts_sub (fsub : cell → cell → cell)
    (a b : TimeSeries) : result TimeSeries :=
  if bool_decide (time_index a = time_index b
                  ∧ length (components a) = length (components b)
                  ∧ n_samples a = n_samples b)
  then Ok (mkTimeSeries (time_index a) (components a) (n_samples a)
             (zip_with (zip_with (zip_with fsub)) (all_values a) (all_values b)))
  else Raise (ValueError "Attempted to perform operation on two series of unequal shapes.").

End TimeSeries.

Arguments TimeSeries V : clear implicits.

(** * The difference scorer *)

Module DifferenceScorer.
Section DifferenceScorer.
Context {V : Type}.

(** Modelled from the spec: [_assert_deterministic] belongs to the scorer
    base class, which is not among the sources. It is the precondition check
    that both inputs be deterministic. *)
Definition _assert_deterministic (series : TimeSeries V) (name_series : string)
    : result () :=
  raise_if_not (is_deterministic series)
    ("Expecting " +:+ name_series +:+ " to be a deterministic series.").

(** [sub] is the subtraction of two series, [actual_series - pred_series]. *)
Definition _score_core_from_prediction
    (sub : TimeSeries V → TimeSeries V → result (TimeSeries V))
    (actual_series pred_series : TimeSeries V) : result (TimeSeries V) :=
  _ ← _assert_deterministic actual_series "actual_series";
  _ ← _assert_deterministic pred_series "pred_series";
  sub actual_series pred_series.

End DifferenceScorer.
End DifferenceScorer.

(** * Data frames and arrays *)

Section Tables.
Context {V : Type}.
Local Abbreviation cell := (@cell V).

(** A [pandas] frame: the column labels and the rows, each with its label
    in the index (a timestamp). *)
Record DataFrame : Type := mkDataFrame {
  columns : list string;
  rows : list (Z * list cell)
}.

Definition index (df : DataFrame) : list Z := (rows df).*1.
Definition width (df : DataFrame) : nat := length (columns df).
Definition nan_row (w : nat) : list cell := replicate w None.

(** Modelled from the spec: [TimeSeries.pd_dataframe] is not among the
    sources. The table of a series has its timestamps as index, one column
    per named component and the observed value of each component in every
    row (the single sample of a deterministic series). *)
Definition pd_dataframe (ts : TimeSeries V) : DataFrame :=
  mkDataFrame (components ts)
    (zip (time_index ts)
         ((λ row : list (list cell), (λ smp : list cell, default None (head smp)) <$> row)
            <$> all_values ts)).

(** [df.shift(periods)]: the index stays, the data moves down by [periods]
    rows (up for a negative count) and the vacated rows are NaN. *)
Definition shift (periods : Z) (df : DataFrame) : DataFrame :=
  let data := (rows df).*2 in
  let n := length data in
  let k := Z.abs_nat periods in
  let blank := nan_row (width df) in
  mkDataFrame (columns df)
    (zip (index df)
         (if (0 <=? periods)%Z then take n (replicate k blank ++ data)
          else drop k data ++ replicate (k `min` n) blank)).

(** [df.rename(columns={c: mapper c for c in df.columns})]. *)
Definition rename (mapper : string → string) (df : DataFrame) : DataFrame :=
  mkDataFrame (mapper <$> columns df) (rows df).

(** [df.dropna()]: the rows without any NaN. *)
Definition dropna (df : DataFrame) : DataFrame :=
  mkDataFrame (columns df) (filter (λ r, Forall is_Some r.2) (rows df)).

(** The outer join of labels: the labels of the first operand, then the new
    ones of each later operand as they come. *)
Definition union_labels `{EqDecision L} (ls : list (list L)) : list L :=
  foldl (λ acc l, acc ++ filter (λ x, x ∉ acc) l) [] ls.

Definition all_equal `{EqDecision L} (ls : list (list L)) : bool :=
  match ls with
  | [] => true
  | l0 :: rest => bool_decide (Forall (λ l, l = l0) rest)
  end.

Definition unique_labels `{EqDecision L} (ls : list (list L)) : bool :=
  bool_decide (Forall NoDup ls).

Definition row_at (df : DataFrame) (t : Z) : list cell :=
  match list_find (λ r, r.1 = t) (rows df) with
  | Some (_, r) => r.2
  | None => nan_row (width df)
  end.

Definition row_nth (df : DataFrame) (i : nat) : list cell :=
  default (nan_row (width df)) ((rows df).*2 !! i).

(** [pd.concat(objs, axis=1)]: the columns of all frames side by side.
    Frames with one and the same index are joined row by row; otherwise the
    rows are aligned on the union of the indexes and a frame has NaN where
    it lacks a label. *)
Definition concat_columns (objs : list DataFrame) : result DataFrame :=
  match objs with
  | [] => Raise (ValueError "No objects to concatenate")
  | df0 :: _ =>
    let cols := mjoin (columns <$> objs) in
    if all_equal (index <$> objs) then
      Ok (mkDataFrame cols
            (imap (λ i t, (t, mjoin ((λ df, row_nth df i) <$> objs))) (index df0)))
    else if unique_labels (index <$> objs) then
      Ok (mkDataFrame cols
            ((λ t, (t, mjoin ((λ df, row_at df t) <$> objs)))
               <$> union_labels (index <$> objs)))
    else Raise (LibraryError "Reindexing only valid with uniquely valued Index objects")
  end.

Definition cell_of (df : DataFrame) (row : list cell) (c : string) : cell :=
  match list_find (λ c', c' = c) (columns df) with
  | Some (k, _) => default None (row !! k)
  | None => None
  end.

(** [pd.concat(objs, axis=0)]: the rows of all frames one block after the
    other, each row keeping its label. Frames whose columns differ are
    aligned on the union of the column labels. *)
Definition concat_rows (objs : list DataFrame) : result DataFrame :=
  match objs with
  | [] => Raise (ValueError "No objects to concatenate")
  | df0 :: _ =>
    if all_equal (columns <$> objs) then
      Ok (mkDataFrame (columns df0) (mjoin (rows <$> objs)))
    else if unique_labels (columns <$> objs) then
      let cols := union_labels (columns <$> objs) in
      Ok (mkDataFrame cols
            (mjoin ((λ df, (λ r, (r.1, cell_of df r.2 <$> cols)) <$> rows df)
                      <$> objs)))
    else Raise (LibraryError "Reindexing only valid with uniquely valued Index objects")
  end.

(** A [numpy] array: its shape and its entries in row-major order. *)
Record ndarray : Type := mkArray {
  shape : list nat;
  data : list cell
}.

Definition size_of (shp : list nat) : nat := foldr Nat.mul 1 shp.

Definition ndarray_wf (a : ndarray) : Prop := length (data a) = size_of (shape a).

(** [a.ravel()]. *)
Definition ravel (a : ndarray) : ndarray := mkArray [length (data a)] (data a).

(** Indexing one axis with an integer and all axes before it with [:], as
    in [a[:, :, k]] (axis 2) and [a[:, k]] (axis 1). *)
Definition take_axis (axis k : nat) (a : ndarray) : result ndarray :=
  let pre := take axis (shape a) in
  match drop axis (shape a) with
  | [] => Raise IndexError
  | d :: post =>
    if bool_decide (k < d) then
      let inner := size_of post in
      Ok (mkArray (pre ++ post)
            (mjoin ((λ o, take inner (drop ((o * d + k) * inner) (data a)))
                      <$> seq 0 (size_of pre))))
    else Raise IndexError
  end.

(** A [shap] explanation object. [base_values] and [feature_names] are
    [None] on an object built from the values alone; [expl_time_index] is
    the attribute [time_index] the explainer attaches. *)
Record Explanation : Type := mkExplanation {
  values : ndarray;
  base_values : option ndarray;
  feature_names : option (list string);
  expl_time_index : option (list Z)
}.

Definition set_base_values (b : ndarray) (e : Explanation) : Explanation :=
  mkExplanation (values e) (Some b) (feature_names e) (expl_time_index e).
Definition set_feature_names (f : option (list string)) (e : Explanation)
    : Explanation :=
  mkExplanation (values e) (base_values e) f (expl_time_index e).
Definition set_time_index (t : list Z) (e : Explanation) : Explanation :=
  mkExplanation (values e) (base_values e) (feature_names e) (Some t).

(** ** The heap of explanation objects *)

Definition addr : Type := nat.
Local Abbreviation heap := (list Explanation).

Definition M (A : Type) : Type := heap → result (A * heap).

Definition lift {A} (r : result A) : M A := λ h,
  match r with Ok a => Ok (a, h) | Raise e => Raise e end.

(** A new object. *)
Definition new (e : Explanation) : M addr := λ h, Ok (length h, h ++ [e]).

(** Reading an object and assigning one of its attributes. *)
Definition get (a : addr) : M Explanation := λ h,
  match h !! a with Some e => Ok (e, h) | None => Raise AttributeError end.

Definition update (a : addr) (f : Explanation → Explanation) : M () := λ h,
  match h !! a with
  | Some e => Ok ((), <[a := f e]> h)
  | None => Raise AttributeError
  end.

End Tables.

Arguments DataFrame V : clear implicits.
Arguments ndarray V : clear implicits.
Arguments Explanation V : clear implicits.
Arguments M V A : clear implicits.

Abbreviation heap V := (list (Explanation V)).

#[global] Instance M_ret {V} : MRet (M V) := λ A a h, Ok (a, h).
#[global] Instance M_bind {V} : MBind (M V) := λ A B f m h,
  match m h with Ok (a, h') => f a h' | Raise e => Raise e end.

(** [for x in l: s = body s x], in either monad. *)
Fixpoint foldM {Mo : Type → Type} `{!MBind Mo, !MRet Mo} {S A}
    (body : S → A → Mo S) (s : S) (l : list A) : Mo S :=
  match l with
  | [] => mret s
  | x :: l' => s' ← body s x; foldM body s' l'
  end.

(** * The SHAP explainer *)

Inductive _ShapMethod : Type :=
  | TREE | GRADIENT | DEEP | KERNEL | SAMPLING | PARTITION | LINEAR
  | PERMUTATION | ADDITIVE.

(** The supported values of [shap_method] as the docstring of
    [ShapExplainer.__init__] lists them. *)
Definition supported_shap_methods : list string :=
  ["permutation"; "partition"; "tree"; "kernel"; "sampling"; "linear"; "deep";
   "gradient"].

(** [_ShapMethod.__members__]. *)
Definition _ShapMethod__members__ : gmap string _ShapMethod :=
  list_to_map
    [("TREE", TREE); ("GRADIENT", GRADIENT); ("DEEP", DEEP);
     ("KERNEL", KERNEL); ("SAMPLING", SAMPLING); ("PARTITION", PARTITION);
     ("LINEAR", LINEAR); ("PERMUTATION", PERMUTATION); ("ADDITIVE", ADDITIVE)].

Definition default_sklearn_shap_explainers : gmap string _ShapMethod :=
  list_to_map
    [("AdaBoostRegressor", PERMUTATION); ("BaggingRegressor", PERMUTATION);
     ("ExtraTreesRegressor", TREE); ("GradientBoostingRegressor", TREE);
     ("LGBMRegressor", TREE); ("RandomForestRegressor", TREE);
     ("LinearRegression", LINEAR); ("RidgeCV", PERMUTATION)].

Section Objects.
Context {V : Type} {Estimator : Type}.

(** The [scikit-learn] model of a regression model: one estimator, or a
    [MultiOutputRegressor] with one fitted estimator per output column. *)
Inductive sk_model : Type :=
  | Plain (e : Estimator)
  | MultiOutputRegressor (estimators_ : list Estimator).

(** What the explainer reads of a fitted [RegressionModel]; [lags] has the
    keys [target], [past] and [future], [input_dim_target] is
    [input_dim["target"]]. *)
Record RegressionModel : Type := mkRegressionModel {
  model : sk_model;
  lags : gmap string (list Z);
  output_chunk_length : nat;
  input_dim_target : nat
}.

(** [self.model.model]. *)
Definition model_model (m : RegressionModel) : sk_model := model m.

Inductive ForecastingModel : Type :=
  | IsRegressionModel (m : RegressionModel)
  | OtherForecastingModel.

(** A series argument: a [TimeSeries] or a sequence of them. *)
Inductive series_arg : Type :=
  | One (ts : TimeSeries V)
  | Many (l : list (TimeSeries V)).

(** A covariates argument that is not [None]: a [TimeSeries], a sequence of
    them, or (after a sequence was wrapped into a one-element list) a list
    whose only item is a list. *)
Inductive cov_arg : Type :=
  | CovSeries (c : TimeSeries V)
  | CovList (l : list (TimeSeries V))
  | CovNested.

(** The [shap] explainers the helper builds, with the arguments of their
    constructors. *)
Inductive explainer : Type :=
  | TreeExplainer (m : Estimator) (background : option (DataFrame V))
      (kwargs : gmap string string)
  | PermutationExplainer (m : Estimator) (background : DataFrame V)
      (kwargs : gmap string string)
  | KernelExplainer (m : Estimator) (background : DataFrame V)
  | LinearExplainer (m : Estimator) (background : DataFrame V)
      (kwargs : gmap string string).

Record _RegressionShapExplainers : Type := mk_RegressionShapExplainers {
  rse_model : RegressionModel;
  is_multiOutputRegressor : bool;
  target_dim : nat;
  rse_n : nat;
  single_output : bool;
  background_X : DataFrame V;
  rse_explainers : gmap nat (gmap nat explainer) + explainer
}.

Record ShapExplainer : Type := mkShapExplainer {
  se_model : RegressionModel;
  background_series : series_arg;
  background_past_covariates : option cov_arg;
  background_future_covariates : option cov_arg;
  target_names : list string;
  n : nat;
  shap_method : option _ShapMethod;
  explainers : _RegressionShapExplainers
}.

(** One call of [shap.summary_plot] under its title. *)
Record plot : Type := mkPlot {
  title : string;
  plotted : addr;
  features : DataFrame V;
  plot_type : string
}.

End Objects.

Arguments sk_model Estimator : clear implicits.
Arguments RegressionModel Estimator : clear implicits.
Arguments ForecastingModel Estimator : clear implicits.
Arguments series_arg V : clear implicits.
Arguments cov_arg V : clear implicits.
Arguments explainer V Estimator : clear implicits.
Arguments _RegressionShapExplainers V Estimator : clear implicits.
Arguments ShapExplainer V Estimator : clear implicits.
Arguments plot V : clear implicits.

(** The collaborators outside the sources: [shap], [scikit-learn] and the
    parts of [darts] the explainer calls into. *)
Class External (V Estimator : Type) : Type := {
  (** [type(model_sklearn).__name__] *)
  class_name : Estimator → string;
  (** the constructors of the [shap] explainers, which run on the model and
      on the background data and raise when they refuse them *)
  shap_explainer_init : explainer V Estimator → result ();
  (** calling a [shap] explainer on a feature matrix *)
  shap_call : explainer V Estimator → DataFrame V → result (Explanation V);
  (** [shap.summary_plot(shap_values, features, plot_type=...)], which
      raises when it refuses the explanation, the features or the type *)
  shap_summary_plot : Explanation V → DataFrame V → string → result ();
  (** the positions [shap.utils.sample] draws, from the number of rows and
      the number of samples *)
  resample : nat → nat → list nat;
  (** [series[idx]] on a [TimeSeries] *)
  ts_getitem : TimeSeries V → nat → result (TimeSeries V);
  (** [TimeSeries.from_times_and_values(times, values, columns=...)] *)
  from_times_and_values :
    option (list Z) → ndarray V → option (list string) → result (TimeSeries V);
  (** [ForecastingModelExplainer.__init__], which settles the background
      series and the target names *)
  base_init :
    RegressionModel Estimator →
    option (series_arg V) → option (cov_arg V) → option (cov_arg V) →
    result (series_arg V * option (cov_arg V) * option (cov_arg V) * list string);
  (** [ForecastingModelExplainer.explain] *)
  base_explain :
    ShapExplainer V Estimator →
    option (series_arg V) → option (cov_arg V) → option (cov_arg V) → result ()
}.

Section Explainer.
Context {V Estimator : Type} `{!External V Estimator}.

Local Abbreviation DataFrame := (DataFrame V).
Local Abbreviation TimeSeries := (TimeSeries V).
Local Abbreviation M := (M V).
Local Abbreviation explainer := (explainer V Estimator).

(** Modelled from the spec: [shap.utils.sample] is not among the sources. It
    down-samples the rows to a fixed count by a random draw and leaves a
    frame that has no more rows than that as it is. *)
Definition sample (X : DataFrame) (nsamples : nat) : DataFrame :=
  if bool_decide (length (rows X) ≤ nsamples) then X
  else mkDataFrame (columns X)
         (omap (λ i, rows X !! i) (resample (length (rows X)) nsamples)).

(** The truth value of a covariates argument. *)
Definition cov_truthy (c : option (cov_arg V)) : bool :=
  match c with
  | None => false
  | Some (CovSeries s) => bool_decide (0 < ts_len s)
  | Some (CovList l) => bool_decide (l ≠ [])
  | Some CovNested => true
  end.

(** [[c] if c else None]. *)
Definition wrap_cov (c : option (cov_arg V)) : option (cov_arg V) :=
  if cov_truthy c then
    match c with
    | Some (CovSeries s) => Some (CovList [s])
    | Some _ => Some CovNested
    | None => None
    end
  else None.

(** [c[idx].pd_dataframe(copy=False) if c else None]. *)
Definition cov_frame (c : option (cov_arg V)) (idx : nat)
    : result (option DataFrame) :=
  if cov_truthy c then
    match c with
    | Some (CovList l) =>
      match l !! idx with
      | Some ts => Ok (Some (pd_dataframe ts))
      | None => Raise IndexError
      end
    | Some (CovSeries s) => ts ← ts_getitem s idx; Ok (Some (pd_dataframe ts))
    | Some CovNested =>
      if bool_decide (idx = 0) then Raise AttributeError else Raise IndexError
    | None => Ok None
    end
  else Ok None.

(** The frames one feature class appends to [df_X]: for each lag, the table
    shifted by [-lag] with [suffix] and the lag added to every column name. *)
Definition lag_frames (suffix : string) (df : DataFrame) (lags : list Z)
    : list DataFrame :=
  (λ lag, rename (λ c, c +:+ suffix +:+ str lag) (shift (- lag) df)) <$> lags.

(** The body of the loop over the covariates for one entry
    [(df_cov, lags)]. *)
Definition cov_lag_frames (cov_type : string) (df_cov : option DataFrame)
    (lags : option (list Z)) : result (list DataFrame) :=
  match lags with
  | None | Some [] => Ok []
  | Some lags =>
    match df_cov with
    | None => Raise AttributeError
    | Some df_cov => Ok (lag_frames ("_" +:+ cov_type +:+ "_cov_lag") df_cov lags)
    end
  end.

(** The body of the loop over the series: the feature rows of the series at
    position [idx]. *)
Definition series_X (model : RegressionModel Estimator) (idx : nat)
    (target_ts : TimeSeries) (past_covariates future_covariates : option (cov_arg V))
    : result DataFrame :=
  df_past ← cov_frame past_covariates idx;
  df_fut ← cov_frame future_covariates idx;
  let df_target := pd_dataframe target_ts in
  let df_X :=
    match lags model !! "target" with
    | Some target_lags => lag_frames "_target_lag" df_target target_lags
    | None => []
    end in
  past_X ← cov_lag_frames "past" df_past (lags model !! "past");
  fut_X ← cov_lag_frames "fut" df_fut (lags model !! "future");
  dropna <$> concat_columns (df_X ++ past_X ++ fut_X).

(** The first step of the builder: a single series becomes a list of one,
    and so do its covariates. *)
Definition ensure_list (target_series : series_arg V)
    (past_covariates future_covariates : option (cov_arg V))
    : list TimeSeries * option (cov_arg V) * option (cov_arg V) :=
  match target_series with
  | One ts => ([ts], wrap_cov past_covariates, wrap_cov future_covariates)
  | Many l => (l, past_covariates, future_covariates)
  end.

Definition _create_regression_model_shap_X (model : RegressionModel Estimator)
    (target_series : series_arg V)
    (past_covariates future_covariates : option (cov_arg V))
    (n_samples : option nat) : result DataFrame :=
  let '(target_series, past_covariates, future_covariates) :=
    ensure_list target_series past_covariates future_covariates in
  Xs ← mapM (λ it : nat * TimeSeries,
               series_X model it.1 it.2 past_covariates future_covariates)
          (imap pair target_series);
  X ← concat_rows Xs;
  match n_samples with
  | Some (S k) => Ok (sample X (S k))
  | _ => Ok X
  end.

(** A call of a constructor of [shap]: the explainer when the constructor
    returns, and its error otherwise. *)
Definition construct (e : explainer) : result explainer :=
  _ ← shap_explainer_init e; Ok e.

Definition _get_explainer_sklearn (model_sklearn : Estimator)
    (background_X : DataFrame) (shap_method : option _ShapMethod)
    (kwargs : gmap string string) : result explainer :=
  let model_name := class_name model_sklearn in
  let shap_method :=
    match shap_method with
    | None => default KERNEL (default_sklearn_shap_explainers !! model_name)
    | Some m => m
    end in
  match shap_method with
  | TREE =>
    match kwargs !! "feature_perturbation" with
    | Some v =>
      if String.eqb v "interventional"
      then construct (TreeExplainer model_sklearn (Some background_X) kwargs)
      else construct (TreeExplainer model_sklearn None kwargs)
    | None => construct (TreeExplainer model_sklearn None kwargs)
    end
  | PERMUTATION =>
    construct (PermutationExplainer model_sklearn background_X kwargs)
  | KERNEL => construct (KernelExplainer model_sklearn background_X)
  | LINEAR => construct (LinearExplainer model_sklearn background_X kwargs)
  | _ => Raise UnboundLocalError
  end.

(** [range(k)]. *)
Definition range (k : nat) : list nat := seq 0 k.

Definition getitem {A} (l : list A) (i : nat) : result A :=
  match l !! i with Some x => Ok x | None => Raise IndexError end.

Definition _RegressionShapExplainers__init__ (model : RegressionModel Estimator)
    (background_series : series_arg V) (n : nat)
    (background_past_covariates background_future_covariates : option (cov_arg V))
    (shap_method : option _ShapMethod) (background_nb_samples : option nat)
    (kwargs : gmap string string)
    : result (_RegressionShapExplainers V Estimator) :=
  let is_multiOutputRegressor :=
    match model_model model with
    | MultiOutputRegressor _ => true
    | Plain _ => false
    end in
  let target_dim := input_dim_target model in
  let single_output := bool_decide (n = 1) && bool_decide (target_dim = 1) in
  background_X ← _create_regression_model_shap_X model background_series
                   background_past_covariates background_future_covariates
                   background_nb_samples;
  explainers ←
    match model_model model with
    | MultiOutputRegressor estimators_ =>
      inl <$>
      foldM (λ (explainers : gmap nat (gmap nat explainer)) i,
               row ← foldM (λ (row : gmap nat explainer) j,
                              estimator ← getitem estimators_ (i + j);
                              e ← _get_explainer_sklearn estimator background_X
                                    shap_method kwargs;
                              Ok (<[j := e]> row))
                       ∅ (range target_dim);
               Ok (<[i := row]> explainers))
        ∅ (range n)
    | Plain e =>
      inr <$> _get_explainer_sklearn e background_X shap_method kwargs
    end;
  Ok (mk_RegressionShapExplainers model is_multiOutputRegressor target_dim n
        single_output background_X explainers).

(** Calling an explainer yields a new explanation object. *)
Definition call (e : explainer) (X : DataFrame) : M addr :=
  ex ← lift (shap_call e X); new ex.

Definition attr {A} (o : option A) : result A :=
  match o with Some x => Ok x | None => Raise AttributeError end.

Definition dict_get {A} (d : gmap nat A) (k : nat) : result A :=
  match d !! k with Some x => Ok x | None => Raise KeyError end.

(** The body of the inner loop of [shap_explanations] with one estimator
    per output: the object stored at [tmp_n[j]]. *)
Definition per_output_entry (explainers : gmap nat (gmap nat explainer))
    (foreground_X : DataFrame) (i j : nat) : M addr :=
  row ← lift (dict_get explainers i);
  e ← lift (dict_get row j);
  explainer ← call e foreground_X;
  ex ← get explainer;
  b ← lift (attr (base_values ex));
  _ ← update explainer (set_base_values (ravel b));
  _ ← update explainer (set_time_index (index foreground_X));
  mret explainer.

(** The body of the inner loop of [shap_explanations] with one estimator
    for all outputs: the object stored at [tmp_n[j]]. *)
Definition combined_entry (single_output : bool) (target_dim : nat)
    (shap_explanation_tmp : addr) (foreground_X : DataFrame) (i j : nat)
    : M addr :=
  tmp_t ←
    (if negb single_output then
       raw ← get shap_explanation_tmp;
       v ← lift (take_axis 2 (target_dim * i + j) (values raw));
       tmp_t ← new (mkExplanation v None None None);
       raw ← get shap_explanation_tmp;
       b ← lift (attr (base_values raw));
       b ← lift (take_axis 1 (target_dim * i + j) b);
       _ ← update tmp_t (set_base_values (ravel b));
       mret tmp_t
     else
       let tmp_t := shap_explanation_tmp in
       raw ← get shap_explanation_tmp;
       b ← lift (attr (base_values raw));
       _ ← update tmp_t (set_base_values (ravel b));
       mret tmp_t);
  raw ← get shap_explanation_tmp;
  _ ← update tmp_t (set_feature_names (feature_names raw));
  _ ← update tmp_t (set_time_index (index foreground_X));
  mret tmp_t.

(** The two nested loops filling the dictionary horizon → component →
    object. *)
Definition fill (n target_dim : nat) (entry : nat → nat → M addr)
    : M (gmap nat (gmap nat addr)) :=
  foldM (λ (shap_explanations : gmap nat (gmap nat addr)) i,
           tmp_n ← foldM (λ (tmp_n : gmap nat addr) j,
                            tmp_t ← entry i j; mret (<[j := tmp_t]> tmp_n))
                     ∅ (range target_dim);
           mret (<[i := tmp_n]> shap_explanations))
    ∅ (range n).

Definition shap_explanations (self : _RegressionShapExplainers V Estimator)
    (foreground_series : series_arg V)
    (foreground_past_covariates foreground_future_covariates : option (cov_arg V))
    (n_samples : option nat) : M (gmap nat (gmap nat addr)) :=
  foreground_X ← lift (_create_regression_model_shap_X (rse_model self)
                         foreground_series foreground_past_covariates
                         foreground_future_covariates n_samples);
  if is_multiOutputRegressor self then
    match rse_explainers self with
    | inl explainers =>
      fill (rse_n self) (target_dim self)
        (per_output_entry explainers foreground_X)
    | inr _ => lift (Raise TypeError)
    end
  else
    match rse_explainers self with
    | inr explainers =>
      shap_explanation_tmp ← call explainers foreground_X;
      fill (rse_n self) (target_dim self)
        (combined_entry (single_output self) (target_dim self)
           shap_explanation_tmp foreground_X)
    | inl _ => lift (Raise TypeError)
    end.

Definition ShapExplainer__init__ (model : ForecastingModel Estimator)
    (background_series : option (series_arg V))
    (background_past_covariates background_future_covariates : option (cov_arg V))
    (shap_method : option string) (background_nb_samples : option nat)
    (kwargs : gmap string string) : result (ShapExplainer V Estimator) :=
  match model with
  | OtherForecastingModel =>
    raise_log (ValueError
      "Invalid model type. For now, only RegressionModel type can be explained.")
  | IsRegressionModel model =>
    '(background_series, background_past_covariates,
      background_future_covariates, target_names) ←
      base_init model background_series background_past_covariates
        background_future_covariates;
    let n := output_chunk_length model in
    shap_method ←
      match shap_method with
      | Some shap_method =>
        let shap_method := upper shap_method in
        match _ShapMethod__members__ !! shap_method with
        | Some m => Ok (Some m)
        | None =>
          raise_log (ValueError
            ("Invalid shap method. Please choose one value among the following: [partition, tree, "
             +:+ "kernel, sampling, linear, deep, gradient]."))
        end
      | None => Ok None
      end;
    explainers ← _RegressionShapExplainers__init__ model background_series n
                   background_past_covariates background_future_covariates
                   shap_method background_nb_samples kwargs;
    Ok (mkShapExplainer model background_series background_past_covariates
          background_future_covariates target_names n shap_method explainers)
  end.

(** [self.target_names]. *)
Definition self_target_names (self : ShapExplainer V Estimator) : list string :=
  target_names self.

Definition explain (self : ShapExplainer V Estimator)
    (foreground_series : option (series_arg V))
    (foreground_past_covariates foreground_future_covariates : option (cov_arg V))
    : M (gmap nat (gmap string TimeSeries)) :=
  _ ← lift (base_explain self foreground_series foreground_past_covariates
              foreground_future_covariates);
  let '(foreground_series, foreground_past_covariates,
        foreground_future_covariates) :=
    match foreground_series with
    | None => (background_series self, background_past_covariates self,
               background_future_covariates self)
    | Some foreground_series =>
      (foreground_series, foreground_past_covariates,
       foreground_future_covariates)
    end in
  let '(foreground_series, foreground_past_covariates,
        foreground_future_covariates) :=
    match foreground_series with
    | One ts => (Many [ts], wrap_cov foreground_past_covariates,
                 wrap_cov foreground_future_covariates)
    | Many _ => (foreground_series, foreground_past_covariates,
                 foreground_future_covariates)
    end in
  shap_ ← shap_explanations (explainers self) foreground_series
            foreground_past_covariates foreground_future_covariates None;
  foldM (λ (shap_values_dict : gmap nat (gmap string TimeSeries)) h,
           tmp ← foldM (λ (tmp : gmap string TimeSeries) (it : nat * string),
                          let '(idx, t) := it in
                          row ← lift (dict_get shap_ h);
                          a ← lift (dict_get row idx);
                          ex ← get a;
                          ts ← lift (from_times_and_values (expl_time_index ex)
                                       (values ex) (feature_names ex));
                          mret (<[t := ts]> tmp))
                   ∅ (imap pair (target_names self));
           mret (<[h := tmp]> shap_values_dict))
    ∅ (range (n self)).

(** [max(horizons)]. *)
Definition py_max (l : list Z) : result Z :=
  match l with
  | [] => Raise (ValueError "max() arg is an empty sequence")
  | x :: l' => Ok (foldl Z.max x l')
  end.

(** [shaps_[h]] for an integer key. *)
Definition dict_get_Z {A} (d : gmap nat A) (k : Z) : result A :=
  if (k <? 0)%Z then Raise KeyError else dict_get d (Z.to_nat k).

(** [summary_plot] draws; its result here is the sequence of plots drawn.
    Each plot is a call of [shap.summary_plot] on the object the dictionary
    holds, which may raise. *)
Definition summary_plot (self : ShapExplainer V Estimator)
    (target_names : option (list string)) (horizons : option (list Z))
    (nb_samples : option nat) (plot_type : string) : M (list (plot V)) :=
  _ ← lift (match target_names with
            | Some target_names =>
              raise_if
                (existsb (λ target_name,
                            negb (bool_decide (target_name ∈ self_target_names self)))
                   target_names)
                "One of the target names doesn't exist in the original background ts."
            | None => Ok ()
            end);
  _ ← lift (match horizons with
            | Some horizons =>
              m ← py_max horizons;
              raise_if (Z.of_nat (n self) - 1 <? m)%Z
                "One of the horizons is greater than the model output_chunk_length."
            | None => Ok ()
            end);
  let foreground_X_sampled :=
    match nb_samples with
    | Some (S k) => sample (background_X (explainers self)) (S k)
    | _ => background_X (explainers self)
    end in
  let target_names := default (self_target_names self) target_names in
  let horizons :=
    default (Z.of_nat <$> range (output_chunk_length (se_model self))) horizons in
  shaps_ ← shap_explanations (explainers self) (background_series self)
             (background_past_covariates self)
             (background_future_covariates self) nb_samples;
  foldM (λ (plots : list (plot V)) (it : nat * string),
           let '(idx, t) := it in
           foldM (λ (plots : list (plot V)) (h : Z),
                    row ← lift (dict_get_Z shaps_ h);
                    a ← lift (dict_get row idx);
                    ex ← get a;
                    _ ← lift (shap_summary_plot ex foreground_X_sampled
                                plot_type);
                    mret (plots ++
                            [mkPlot ("Target: `" +:+ t +:+ "` - Horizon: t+" +:+ str h)
                               a foreground_X_sampled plot_type]))
             plots horizons)
    [] (imap pair target_names).

End Explainer.

(** * The statements of the specification *)

(** The column names of one feature class as the specification orders
    them: the outer loop runs over the lags, the inner one over the
    components. *)
Definition feature_columns (suffix : string) (comps : list string)
    (lags : list Z) : list string :=
  lag ← lags; (λ c, c +:+ suffix +:+ str lag) <$> comps.

(** The largest magnitude among the lags. *)
Definition max_lag (lags : list Z) : nat :=
  foldr (λ lag acc, Z.abs_nat lag `max` acc) 0 lags.

(** The columns of the feature matrix as the specification orders them: the
    target lags, then the lags of the past covariates, then the lags of the
    future covariates. *)
Definition expected_columns {Estimator} (model : RegressionModel Estimator)
    (target_comps past_comps future_comps : list string) : list string :=
  feature_columns "_target_lag" target_comps (default [] (lags model !! "target"))
  ++ feature_columns "_past_cov_lag" past_comps (default [] (lags model !! "past"))
  ++ feature_columns "_fut_cov_lag" future_comps
       (default [] (lags model !! "future")).

(** The columns of the table of an optional covariate series. *)
Definition frame_columns {V} (o : option (DataFrame V)) : list string :=
  from_option columns [] o.

(** A series without missing values. *)
Definition no_missing {V} (ts : TimeSeries V) : Prop :=
  Forall (Forall (Forall is_Some)) (all_values ts).

(** A step from the heap [h] to the heap [h'] that drops no object and
    leaves the objects below the address [base] as they are. *)
Definition preserves {V} (base : nat) (h h' : heap V) : Prop :=
  length h ≤ length h' ∧ ∀ x, x < base → h' !! x = h !! x.

(** * Inputs for the examples *)

Module Example.

(** An estimator of the examples: its number and, when it predicts all
    outputs at once, how many. *)
Record estimator : Type := mkEstimator {
  number : nat;
  outputs : option nat
}.

Definition estimator_of (e : explainer Z estimator) : estimator :=
  match e with
  | TreeExplainer m _ _ | PermutationExplainer m _ _
  | KernelExplainer m _ | LinearExplainer m _ _ => m
  end.

(** Marker values: every entry of the array holds its own position. *)
Definition markers (k : nat) : list (@cell Z) :=
  (λ i, Some (Z.of_nat i)) <$> seq 0 k.

(** The attribution engine of the examples. A combined estimator with [o]
    outputs answers with marker values of shape (samples, features, [o]); an
    estimator of one output fills its answer with its own number. *)
Definition example_call (e : explainer Z estimator) (X : DataFrame Z)
    : result (Explanation Z) :=
  let s := length (rows X) in
  let f := width X in
  match outputs (estimator_of e) with
  | Some o =>
    Ok (mkExplanation (mkArray [s; f; o] (markers (s * f * o)))
          (Some (mkArray [s; o] (markers (s * o)))) (Some (columns X)) None)
  | None =>
    let v := Some (Z.of_nat (number (estimator_of e))) in
    Ok (mkExplanation (mkArray [s; f] (replicate (s * f) v))
          (Some (mkArray [s; 1] (replicate s v))) (Some (columns X)) None)
  end.

Definition example_getitem (ts : TimeSeries Z) (i : nat) : result (TimeSeries Z) :=
  match time_index ts !! i, all_values ts !! i with
  | Some t, Some row => Ok (mkTimeSeries [t] (components ts) (n_samples ts) [row])
  | _, _ => Raise IndexError
  end.

Definition example_from_times_and_values (times : option (list Z))
    (values : ndarray Z) (columns : option (list string))
    : result (TimeSeries Z) :=
  match times, shape values with
  | Some times, [s; f] =>
    Ok (mkTimeSeries times (default ((λ i, pretty i) <$> seq 0 f) columns) 1
          ((λ i, (λ x, [x]) <$> take f (drop (i * f) (data values))) <$> seq 0 s))
  | _, _ => Raise (ValueError "The time index and the values do not match.")
  end.

Definition example_base_init (m : RegressionModel estimator)
    (series : option (series_arg Z)) (past future : option (cov_arg Z))
    : result (series_arg Z * option (cov_arg Z) * option (cov_arg Z) * list string) :=
  match series with
  | Some (One ts) => Ok (One ts, past, future, components ts)
  | Some (Many (ts :: l)) => Ok (Many (ts :: l), past, future, components ts)
  | _ => Raise (ValueError "A background time series has to be provided.")
  end.

(** An engine that refuses to build a tree explainer on a linear model, and
    to plot an explanation over features of another number of rows. *)
Definition example_explainer_init (e : explainer Z estimator) : result () :=
  match e with
  | TreeExplainer _ _ _ =>
    Raise (LibraryError "Model type not yet supported by TreeExplainer")
  | _ => Ok ()
  end.

Definition example_summary_plot (ex : Explanation Z) (X : DataFrame Z)
    (plot_type : string) : result () :=
  if bool_decide (head (shape (values ex)) = Some (length (rows X)))
  then Ok ()
  else Raise (LibraryError
    "The shape of the shap_values matrix does not match the shape of the provided data matrix.").

#[global] Instance example_external : External Z estimator := {|
  class_name := λ _, "LinearRegression";
  shap_explainer_init := example_explainer_init;
  shap_call := example_call;
  shap_summary_plot := example_summary_plot;
  resample := λ _ k, seq 0 k;
  ts_getitem := example_getitem;
  from_times_and_values := example_from_times_and_values;
  base_init := example_base_init;
  base_explain := λ _ _ _ _, Ok ()
|}.

(** A deterministic series from the rows of its values. *)
Definition series (names : list string) (vals : list (list (@cell Z)))
    : TimeSeries Z :=
  mkTimeSeries (Z.of_nat <$> seq 0 (length vals)) names 1
    ((λ row : list (@cell Z), (λ x, [x]) <$> row) <$> vals).

(** A series of two samples per value. *)
Definition sampled : TimeSeries Z :=
  mkTimeSeries [0; 1]%Z ["x"] 2 [[[Some 1; Some 2]]; [[Some 3; Some 5]]]%Z.

Definition actual : TimeSeries Z :=
  series ["x"; "y"] [[Some 5; Some 7]; [Some 1; None]; [Some 4; Some 4]]%Z.
Definition predicted : TimeSeries Z :=
  series ["x"; "y"] [[Some 2; Some 9]; [Some 1; Some 3]; [Some 0; Some 1]]%Z.

Definition example_fsub (a b : @cell Z) : @cell Z :=
  x ← a; y ← b; Some (x - y)%Z.

(** A univariate series of five values, and one of four with a gap. *)
Definition univariate : TimeSeries Z :=
  series ["x"] [[Some 10]; [Some 11]; [Some 12]; [Some 13]; [Some 14]]%Z.
Definition gappy : TimeSeries Z :=
  series ["x"] [[Some 10]; [None]; [Some 12]; [Some 13]]%Z.

(** A series of two components with a past and a future covariate. *)
Definition bivariate : TimeSeries Z :=
  series ["a"; "b"]
    [[Some 1; Some 2]; [Some 3; Some 4]; [Some 5; Some 6]; [Some 7; Some 8]]%Z.
Definition past_cov : TimeSeries Z :=
  series ["p"] [[Some 20]; [Some 21]; [Some 22]; [Some 23]]%Z.
Definition future_cov : TimeSeries Z :=
  series ["f"] [[Some 30]; [Some 31]; [Some 32]; [Some 33]; [Some 34]]%Z.

(** A model with lags on the target and on both kinds of covariates. *)
Definition cov_model : RegressionModel estimator :=
  mkRegressionModel (Plain (mkEstimator 0 None))
    (<[ "target" := [-2; -1]%Z ]> (<[ "past" := [-1]%Z ]>
       {[ "future" := [0; 1]%Z ]})) 1 2.



(** A model with the target lags [-2, -1] only. *)
Definition lag_model (m : sk_model estimator) (horizons dim : nat)
    : RegressionModel estimator :=
  mkRegressionModel m {[ "target" := [-2; -1]%Z ]} horizons dim.

Definition from_result {A} (d : A) (r : result A) : A :=
  match r with Ok a => a | Raise _ => d end.

Definition no_frame : DataFrame Z := mkDataFrame [] [].
Definition no_explanation : Explanation Z :=
  mkExplanation (mkArray [] []) None None None.
Definition no_explainers : _RegressionShapExplainers Z estimator :=
  mk_RegressionShapExplainers (lag_model (Plain (mkEstimator 0 None)) 0 0)
    false 0 0 false no_frame (inl ∅).

(** The combined layout with two horizons and three components: a series of
    three components and six values under the lag [-1] gives five samples of
    three features, and the estimator has six outputs. *)
Definition trivariate : TimeSeries Z :=
  series ["a"; "b"; "c"]
    [[Some 1; Some 2; Some 3]; [Some 4; Some 5; Some 6]; [Some 7; Some 8; Some 9];
     [Some 10; Some 11; Some 12]; [Some 13; Some 14; Some 15];
     [Some 16; Some 17; Some 18]]%Z.

Definition combined_estimator : estimator := mkEstimator 0 (Some 6).

Definition combined_model : RegressionModel estimator :=
  mkRegressionModel (Plain combined_estimator) {[ "target" := [-1]%Z ]} 2 3.

Definition combined_explainers : _RegressionShapExplainers Z estimator :=
  from_result no_explainers
    (_RegressionShapExplainers__init__ combined_model (One trivariate) 2
       None None None None ∅).

Definition combined_X : DataFrame Z :=
  from_result no_frame
    (_create_regression_model_shap_X combined_model (One trivariate)
       None None None).

Definition combined_explainer : explainer Z estimator :=
  LinearExplainer combined_estimator combined_X ∅.

Definition combined_raw : Explanation Z :=
  from_result no_explanation (example_call combined_explainer combined_X).

(** Output 5 of the marker values: the entries 5, 11, 17, ... *)
Definition slot5 (k : nat) : list (@cell Z) :=
  (λ i, Some (Z.of_nat (6 * i + 5))) <$> seq 0 k.

(** The single-output case: one horizon, one component. *)
Definition single_estimator : estimator := mkEstimator 7 None.

Definition single_model : RegressionModel estimator :=
  lag_model (Plain single_estimator) 1 1.

Definition single_explainers : _RegressionShapExplainers Z estimator :=
  from_result no_explainers
    (_RegressionShapExplainers__init__ single_model (One univariate) 1
       None None None None ∅).

Definition single_X : DataFrame Z :=
  from_result no_frame
    (_create_regression_model_shap_X single_model (One univariate)
       None None None).

Definition single_explainer : explainer Z estimator :=
  LinearExplainer single_estimator single_X ∅.

Definition single_raw : Explanation Z :=
  from_result no_explanation (example_call single_explainer single_X).

(** One estimator per output, two horizons and two components: the
    estimator of output column [k] has the number [k]. *)
Definition per_output_model : RegressionModel estimator :=
  mkRegressionModel
    (MultiOutputRegressor
       [mkEstimator 0 None; mkEstimator 1 None; mkEstimator 2 None;
        mkEstimator 3 None])
    {[ "target" := [-1]%Z ]} 2 2.

(** One estimator per output, two horizons and one component. *)
Definition per_horizon_model : RegressionModel estimator :=
  mkRegressionModel
    (MultiOutputRegressor [mkEstimator 0 None; mkEstimator 1 None])
    {[ "target" := [-1]%Z ]} 2 1.

(** An explainer of the single-output model on [univariate]. *)
Definition no_shap_explainer : ShapExplainer Z estimator :=
  mkShapExplainer single_model (One univariate) None None [] 0 None
    no_explainers.

Definition shap_explainer : ShapExplainer Z estimator :=
  from_result no_shap_explainer
    (ShapExplainer__init__ (IsRegressionModel single_model)
       (Some (One univariate)) None None None None ∅).

(** The number of the estimator whose answer the dictionary holds at
    horizon [i] and component [j]. *)
Definition answered_by (d : gmap nat (gmap nat addr)) (h : heap Z) (i j : nat)
    : option Z :=
  a ← d !! i ≫= (.!! j); ex ← h !! a; mjoin (head (data (values ex))).

End Example.

(** * Properties: the Croston constructor *)

Section CrostonProperties.
Context {float : Type}.
Implicit Types (version : string) (alpha_d alpha_p : option float).

Lemma version_check_passes version :
  lower version ∈ Croston.versions →
  raise_if_not (bool_decide (lower version ∈ Croston.versions))
    "The provided 'version' parameter must be set to 'classic', 'optimized', 'sba' or 'tsb'."
  = Ok ().
Proof.
  intros Hin. unfold raise_if_not, raise_if.
  by rewrite bool_decide_eq_true_2.
Qed.

(** C9. The constructor accepts every [version] whose lower-cased form is
    one of the four names, but compares the string itself with [classic],
    [optimized] and [sba]: an accepted string that is none of these three
    reaches the last branch, where the call raises unless both [alpha_d] and
    [alpha_p] are given, and otherwise builds the TSB model. *)
Theorem croston_accepted_version_falls_to_tsb version alpha_d alpha_p :
  lower version ∈ Croston.versions →
  version ≠ "classic" → version ≠ "optimized" → version ≠ "sba" →
  (alpha_d = None ∨ alpha_p = None →
   Croston.__init__ version alpha_d alpha_p =
   Raise (ValueError "alpha_d and alpha_p must be specified when using 'tsb'."))
  ∧ (∀ d p, alpha_d = Some d → alpha_p = Some p →
     Croston.__init__ version alpha_d alpha_p =
     Ok (Croston.mkCroston (Croston.CrostonTSB (Some d) (Some p))
           (Some d) (Some p) version)).
Proof.
  intros Hin Hc Ho Hs. unfold Croston.__init__.
  rewrite (version_check_passes _ Hin). cbn.
  apply String.eqb_neq in Hc, Ho, Hs. rewrite Hc, Ho, Hs.
  split.
  - intros [-> | ->]; [done|]. by destruct alpha_d.
  - by intros d p -> ->.
Qed.

End CrostonProperties.

(** [Classic] is accepted, is not one of the three names compared, and so
    needs the two smoothing parameters. *)
Lemma croston_accepted_version_falls_to_tsb_witness :
  Croston.__init__ (float := Z) "Classic" None None =
  Raise (ValueError "alpha_d and alpha_p must be specified when using 'tsb'.").
Proof.
  refine (proj1 (croston_accepted_version_falls_to_tsb (float := Z)
                   "Classic" None None _ _ _ _) _).
  - apply list_elem_of_In. cbn. tauto.
  - discriminate.
  - discriminate.
  - discriminate.
  - by left.
Defined.

(** * Properties: the difference scorer *)

Section ScorerProperties.
Context {V : Type}.
Implicit Types (A B R : TimeSeries V) (fsub : @cell V → @cell V → @cell V).

Lemma assert_deterministic_ok A name :
  is_deterministic A = true → DifferenceScorer._assert_deterministic A name = Ok ().
Proof.
  intros H. unfold DifferenceScorer._assert_deterministic, raise_if_not, raise_if.
  by rewrite H.
Qed.

Lemma ts_value_sub fsub A B t c s :
  ts_value
    (mkTimeSeries (time_index A) (components A) (n_samples A)
       (zip_with (zip_with (zip_with fsub)) (all_values A) (all_values B)))
    t c s
  = a ← ts_value A t c s; b ← ts_value B t c s; Some (fsub a b).
Proof.
  unfold ts_value; cbn.
  rewrite lookup_zip_with.
  destruct (all_values A !! t) as [ra|]; cbn; [|done].
  destruct (all_values B !! t) as [rb|]; cbn.
  - rewrite lookup_zip_with.
    destruct (ra !! c) as [sa|]; cbn; [|done].
    destruct (rb !! c) as [sb|]; cbn.
    + rewrite lookup_zip_with.
      destruct (sa !! s); cbn; [|done]. by destruct (sb !! s).
    + by destruct (sa !! s).
  - destruct (ra !! c) as [sa|]; cbn; [|done]. by destruct (sa !! s).
Qed.

(** Two well-formed series of one shape have values at the same places. *)
Lemma ts_value_same_shape A B t c s a :
  ts_wf A → ts_wf B →
  length (time_index A) = length (time_index B) →
  length (components A) = length (components B) →
  n_samples A = n_samples B →
  ts_value A t c s = Some a → is_Some (ts_value B t c s).
Proof.
  intros (HA1 & HA2 & HA3) (HB1 & HB2 & HB3) Ht Hc Hs. unfold ts_value.
  destruct (all_values A !! t) as [ra|] eqn:Era; cbn; [|done].
  destruct (ra !! c) as [sa|] eqn:Esa; cbn; [|done].
  intros Ha.
  destruct (lookup_lt_is_Some_2 (all_values B) t) as [rb Erb].
  { apply lookup_lt_Some in Era. lia. }
  rewrite Erb; cbn.
  destruct (lookup_lt_is_Some_2 rb c) as [sb Esb].
  { apply lookup_lt_Some in Esa.
    rewrite (Forall_lookup_1 _ _ _ _ HB2 Erb), <- Hc,
      <- (Forall_lookup_1 _ _ _ _ HA2 Era). done. }
  rewrite Esb; cbn.
  apply lookup_lt_is_Some_2. apply lookup_lt_Some in Ha.
  pose proof (Forall_lookup_1 _ _ _ _ HA3 Era) as HA4.
  pose proof (Forall_lookup_1 _ _ _ _ HB3 Erb) as HB4.
  rewrite (Forall_lookup_1 _ _ _ _ HB4 Esb), <- Hs,
    <- (Forall_lookup_1 _ _ _ _ HA4 Esa). done.
Qed.

(** C6. For deterministic series [A] and [B] with one time index and one
    component structure the score is the series with the time index and the
    component names of [A] whose value at every place is the value of [A]
    minus the value of [B] there. *)
Theorem score_is_pointwise_difference fsub A B :
  ts_wf A → ts_wf B →
  is_deterministic A = true → is_deterministic B = true →
  time_index A = time_index B → components A = components B →
  ∃ R, DifferenceScorer._score_core_from_prediction (ts_sub fsub) A B = Ok R
       ∧ time_index R = time_index A
       ∧ components R = components A
       ∧ (∀ t c s a, ts_value A t c s = Some a →
            ∃ b, ts_value B t c s = Some b ∧ ts_value R t c s = Some (fsub a b))
       ∧ (∀ t c s, ts_value A t c s = None → ts_value R t c s = None).
Proof.
  intros HA HB HdA HdB Ht Hc.
  assert (Hs : n_samples A = n_samples B).
  { unfold is_deterministic in *.
    apply bool_decide_eq_true_1 in HdA, HdB. congruence. }
  eexists. split.
  { unfold DifferenceScorer._score_core_from_prediction.
    rewrite !assert_deterministic_ok by done. cbn.
    unfold ts_sub. rewrite bool_decide_eq_true_2; [done|].
    by rewrite Hc. }
  split; [done|]. split; [done|]. split.
  - intros t c s a Ha.
    destruct (ts_value_same_shape A B t c s a) as [b Hb]; try done.
    { by rewrite Ht. } { by rewrite Hc. }
    exists b. split; [done|]. rewrite ts_value_sub, Ha, Hb. done.
  - intros t c s Ha. by rewrite ts_value_sub, Ha.
Qed.

(** C7. When either input is not deterministic the call raises the
    precondition error, whatever the subtraction would do: it is not
    reached. *)
Theorem score_rejects_non_deterministic
    (sub : TimeSeries V → TimeSeries V → result (TimeSeries V)) A B :
  is_deterministic A = false ∨ is_deterministic B = false →
  ∃ msg, DifferenceScorer._score_core_from_prediction sub A B
         = Raise (ValueError msg).
Proof.
  unfold DifferenceScorer._score_core_from_prediction,
    DifferenceScorer._assert_deterministic, raise_if_not, raise_if.
  intros [H | H].
  - rewrite H. cbn. eauto.
  - destruct (is_deterministic A); cbn; [|eauto].
    rewrite H. cbn. eauto.
Qed.

End ScorerProperties.

Lemma score_is_pointwise_difference_witness :
  ∃ R, DifferenceScorer._score_core_from_prediction
         (ts_sub Example.example_fsub) Example.actual Example.predicted = Ok R
       ∧ time_index R = time_index Example.actual
       ∧ components R = components Example.actual
       ∧ (∀ t c s a, ts_value Example.actual t c s = Some a →
            ∃ b, ts_value Example.predicted t c s = Some b
                 ∧ ts_value R t c s = Some (Example.example_fsub a b))
       ∧ (∀ t c s, ts_value Example.actual t c s = None →
            ts_value R t c s = None).
Proof.
  apply (score_is_pointwise_difference Example.example_fsub
           Example.actual Example.predicted).
  - unfold ts_wf; cbn. split; [done|]. split; repeat constructor.
  - unfold ts_wf; cbn. split; [done|]. split; repeat constructor.
  - reflexivity.
  - reflexivity.
  - reflexivity.
  - reflexivity.
Defined.

Lemma score_rejects_non_deterministic_witness :
  ∃ msg, DifferenceScorer._score_core_from_prediction
           (ts_sub Example.example_fsub) Example.sampled Example.sampled
         = Raise (ValueError msg).
Proof.
  apply (score_rejects_non_deterministic (ts_sub Example.example_fsub)
           Example.sampled Example.sampled).
  left. reflexivity.
Defined.

(** * Properties: the feature matrix *)

Section MatrixProperties.
Context {V Estimator : Type} `{!External V Estimator}.
Implicit Types (df X : DataFrame V) (ts : TimeSeries V) (lags : list Z).

(** ** Results of loops *)

Lemma mapM_Ok {A B} (f : A → result B) (l : list A) (k : list B) :
  mapM f l = Ok k → Forall2 (λ x y, f x = Ok y) l k.
Proof.
  revert k. induction l as [|x l IH]; intros k; cbn.
  - intros [= <-]. constructor.
  - destruct (f x) as [y|] eqn:Hx; cbn; [|done].
    destruct (mapM f l) as [k'|]; cbn; [|done].
    intros [= <-]. constructor; [done|]. by apply IH.
Qed.

(** ** Columns *)

Lemma columns_lag_frames suffix df lags :
  mjoin (columns <$> lag_frames suffix df lags)
  = feature_columns suffix (columns df) lags.
Proof.
  unfold lag_frames, feature_columns.
  induction lags as [|lag lags IH]; cbn; [done|]. f_equal. exact IH.
Qed.

Lemma concat_columns_columns (objs : list (DataFrame V)) X :
  concat_columns objs = Ok X → columns X = mjoin (columns <$> objs).
Proof.
  unfold concat_columns. destruct objs as [|df0 objs]; [done|].
  destruct (all_equal _); [by intros [= <-]|].
  destruct (unique_labels _); [by intros [= <-]|done].
Qed.


Lemma sample_columns X k : columns (sample X k) = columns X.
Proof. unfold sample. by case_bool_decide. Qed.

Lemma cov_lag_frames_columns cov_type (o : option (DataFrame V))
    (l : option (list Z)) frames :
  cov_lag_frames cov_type o l = Ok frames →
  mjoin (columns <$> frames)
  = feature_columns ("_" +:+ cov_type +:+ "_cov_lag") (frame_columns o)
      (default [] l).
Proof.
  unfold cov_lag_frames.
  destruct l as [[|lag l]|]; try by intros [= <-].
  destruct o as [df|]; [|done].
  intros [= <-]. exact (columns_lag_frames _ df (lag :: l)).
Qed.

(** The columns of the frame of one series: the target lags, then the lags
    of the past covariates, then those of the future covariates. *)
Lemma series_X_columns (model : RegressionModel Estimator) idx ts
    (past fut : option (cov_arg V)) X :
  series_X model idx ts past fut = Ok X →
  ∃ dfp dff,
    cov_frame past idx = Ok dfp ∧ cov_frame fut idx = Ok dff ∧
    (dfp = None → default [] (lags model !! "past") = []) ∧
    (dff = None → default [] (lags model !! "future") = []) ∧
    columns X
    = expected_columns model (components ts) (frame_columns dfp)
        (frame_columns dff).
Proof.
  unfold series_X, expected_columns.
  destruct (cov_frame past idx) as [dfp|] eqn:Hp; cbn; [|done].
  destruct (cov_frame fut idx) as [dff|] eqn:Hf; cbn; [|done].
  destruct (cov_lag_frames "past" dfp _) as [past_X|] eqn:HpX; cbn; [|done].
  destruct (cov_lag_frames "fut" dff _) as [fut_X|] eqn:HfX; cbn; [|done].
  destruct (concat_columns _) as [X'|] eqn:HX; cbn; [|done].
  intros [= <-]. exists dfp, dff. split; [done|]. split; [done|].
  split; [|split].
  - intros ->. unfold cov_lag_frames in HpX.
    by destruct (lags model !! "past") as [[|??]|].
  - intros ->. unfold cov_lag_frames in HfX.
    by destruct (lags model !! "future") as [[|??]|].
  - cbn. rewrite (concat_columns_columns _ _ HX), !fmap_app, !join_app.
    rewrite (cov_lag_frames_columns _ _ _ _ HpX),
      (cov_lag_frames_columns _ _ _ _ HfX).
    f_equal. destruct (lags model !! "target") as [tl|]; cbn; [|done].
    apply columns_lag_frames.
Qed.


(** ** Rows *)

Lemma length_index df : length (index df) = length (rows df).
Proof. unfold index. by rewrite length_fmap. Qed.

Lemma length_snd_rows df : length (rows df).*2 = length (rows df).
Proof. by rewrite length_fmap. Qed.

(** Shifting down by [p] rows keeps the index and the number of rows. *)
Lemma rows_shift_down p df :
  (0 ≤ p)%Z →
  index (shift p df) = index df ∧
  (rows (shift p df)).*2
  = take (length (rows df))
      (replicate (Z.abs_nat p) (nan_row (width df)) ++ (rows df).*2).
Proof.
  intros Hp. unfold shift, index; cbn.
  assert ((0 <=? p)%Z = true) as -> by by apply Z.leb_le.
  rewrite length_snd_rows.
  assert (length (take (length (rows df))
                    (replicate (Z.abs_nat p) (nan_row (width df)) ++ (rows df).*2))
          = length (rows df)) as Hlen.
  { rewrite length_take, length_app, length_replicate, length_snd_rows. lia. }
  split.
  - apply fst_zip. rewrite Hlen, length_fmap. done.
  - apply snd_zip. rewrite Hlen, length_fmap. done.
Qed.

(** Row [i] of the frame of a look-back lag: NaN in the first rows, the
    row of the table [|lag|] places earlier after them. *)
Lemma row_nth_lag_frame (f : string → string) df lag i :
  (lag < 0)%Z → i < length (rows df) →
  row_nth (rename f (shift (- lag) df)) i
  = if decide (i < Z.abs_nat lag) then nan_row (width df)
    else row_nth df (i - Z.abs_nat lag).
Proof.
  intros Hlag Hi. unfold row_nth. cbn [rows rename].
  destruct (rows_shift_down (- lag) df) as [_ ->]; [lia|].
  assert (width (rename f (shift (- lag) df)) = width df) as ->.
  { unfold width; cbn. by rewrite length_fmap. }
  rewrite lookup_take_lt by done.
  assert (Z.abs_nat (- lag) = Z.abs_nat lag) as -> by lia.
  case_decide as Hk.
  - rewrite lookup_app_l by (rewrite length_replicate; lia).
    by rewrite lookup_replicate_2.
  - rewrite lookup_app_r by (rewrite length_replicate; lia).
    by rewrite length_replicate.
Qed.

Lemma all_equal_index_lag_frames suffix df lags :
  Forall (λ lag, (lag < 0)%Z) lags →
  all_equal (index <$> lag_frames suffix df lags) = true.
Proof.
  intros Hlags. unfold all_equal, lag_frames.
  destruct lags as [|lag0 lags]; [done|]. cbn.
  apply bool_decide_eq_true_2.
  apply Forall_cons in Hlags as [H0 Hlags].
  rewrite !Forall_fmap. eapply Forall_impl; [exact Hlags|].
  cbn. intros lag Hlag.
  destruct (rows_shift_down (- lag) df) as [Hi _]; [lia|].
  destruct (rows_shift_down (- lag0) df) as [Hi0 _]; [lia|].
  transitivity (index df); [exact Hi|symmetry; exact Hi0].
Qed.

(** A predicate that fails on the first [L] places of a list and holds on
    all later ones keeps the list without its first [L] items. *)
Lemma filter_threshold {A} (P : A → Prop) `{!∀ x, Decision (P x)}
    (l : list A) (L : nat) :
  (∀ i x, l !! i = Some x → (P x ↔ L ≤ i)) → filter P l = drop L l.
Proof.
  revert L. induction l as [|x l IH]; intros L Hth; [by destruct L|].
  destruct L as [|L].
  - rewrite filter_cons_True by (apply (Hth 0 x); [done|lia]).
    rewrite (IH 0); [done|]. intros i y Hy. split; [lia|].
    intros _. apply (Hth (S i) y); [done|lia].
  - rewrite filter_cons_False.
    2:{ intros HP. apply (Hth 0 x) in HP; [lia|done]. }
    cbn. apply IH. intros i y Hy.
    specialize (Hth (S i) y Hy). split.
    + intros HP. apply Hth in HP. lia.
    + intros HL. apply Hth. lia.
Qed.

Lemma Forall_mjoin {A} (P : A → Prop) (ls : list (list A)) :
  Forall P (mjoin ls) ↔ Forall (Forall P) ls.
Proof.
  induction ls as [|l ls IH]; cbn.
  - split; constructor.
  - rewrite Forall_app, Forall_cons, IH. done.
Qed.

Lemma max_lag_le lags i :
  max_lag lags ≤ i ↔ Forall (λ lag, Z.abs_nat lag ≤ i) lags.
Proof.
  induction lags as [|lag lags IH].
  - cbn. split; [constructor|lia].
  - change (max_lag (lag :: lags)) with (Z.abs_nat lag `max` max_lag lags).
    rewrite Forall_cons, <- IH. lia.
Qed.

Lemma nan_row_not_defined w : 0 < w → ¬ Forall is_Some (@nan_row V w).
Proof.
  destruct w as [|w]; [lia|]. intros _ H. cbn in H.
  apply Forall_cons in H as [[x Hx] _]. done.
Qed.

(** The table of a deterministic series without missing values has a
    value in every cell. *)
Lemma pd_dataframe_defined ts i :
  ts_wf ts → is_deterministic ts = true → no_missing ts →
  i < ts_len ts → Forall is_Some (row_nth (pd_dataframe ts) i).
Proof.
  intros (H1 & H2 & H3) Hd Hm Hi. unfold row_nth, pd_dataframe. cbn [rows].
  unfold ts_len in Hi.
  rewrite snd_zip by (rewrite length_fmap; lia).
  rewrite list_lookup_fmap.
  destruct (lookup_lt_is_Some_2 (all_values ts) i) as [row Hrow]; [lia|].
  rewrite Hrow. cbn.
  apply Forall_fmap, Forall_lookup. intros c smp Hsmp. cbn.
  pose proof (Forall_lookup_1 _ _ _ _ H3 Hrow) as H3'.
  pose proof (Forall_lookup_1 _ _ _ _ H3' Hsmp) as Hlen. cbn in Hlen.
  pose proof (Forall_lookup_1 _ _ _ _ Hm Hrow) as Hm'.
  pose proof (Forall_lookup_1 _ _ _ _ Hm' Hsmp) as Hdef. cbn in Hdef.
  apply bool_decide_eq_true_1 in Hd. rewrite Hd in Hlen.
  destruct smp as [|x smp]; [done|]. cbn.
  by apply Forall_cons in Hdef as [Hx _].
Qed.

Lemma length_rows_pd_dataframe ts :
  ts_wf ts → length (rows (pd_dataframe ts)) = ts_len ts.
Proof.
  intros (H1 & _). unfold pd_dataframe, ts_len. cbn.
  rewrite length_zip, length_fmap. lia.
Qed.

Lemma length_feature_columns suffix comps lags :
  length (feature_columns suffix comps lags) = length lags * length comps.
Proof.
  unfold feature_columns. induction lags as [|lag lags IH]; [done|].
  cbn. rewrite length_app, length_fmap. cbn in IH. by rewrite IH.
Qed.

Lemma concat_columns_same_index (df0 : DataFrame V) objs :
  all_equal (index <$> df0 :: objs) = true →
  concat_columns (df0 :: objs)
  = Ok (mkDataFrame (mjoin (columns <$> df0 :: objs))
          (imap (λ i t, (t, mjoin ((λ df, row_nth df i) <$> df0 :: objs)))
             (index df0))).
Proof. intros H. unfold concat_columns. by rewrite H. Qed.

(** Row [i] of the frames of the target lags is complete exactly from the
    largest lag magnitude on. *)
Lemma lag_rows_complete suffix ts lags i :
  ts_wf ts → is_deterministic ts = true → components ts ≠ [] → no_missing ts →
  Forall (λ lag, (lag < 0)%Z) lags → i < ts_len ts →
  Forall is_Some
    (mjoin ((λ df, row_nth df i) <$> lag_frames suffix (pd_dataframe ts) lags))
  ↔ max_lag lags ≤ i.
Proof.
  intros Hwf Hd Hc Hm Hlags Hi.
  rewrite Forall_mjoin, Forall_fmap, max_lag_le.
  unfold lag_frames. rewrite Forall_fmap, !Forall_forall.
  assert (Hw : 0 < width (pd_dataframe ts)).
  { unfold width; cbn. destruct (components ts); [done|cbn; lia]. }
  assert (Hrow : ∀ lag, lag ∈ lags →
            (Forall is_Some
               (row_nth (rename (λ c, c +:+ suffix +:+ str lag)
                           (shift (- lag) (pd_dataframe ts))) i)
             ↔ Z.abs_nat lag ≤ i)).
  { intros lag Hin. rewrite Forall_forall in Hlags.
    rewrite row_nth_lag_frame;
      [|by apply Hlags|by rewrite length_rows_pd_dataframe].
    case_decide as Hk.
    - split; [|lia]. intros H. by apply nan_row_not_defined in H.
    - split; [lia|]. intros _. apply pd_dataframe_defined; try done. lia. }
  split; intros H lag Hin; apply (Hrow lag Hin), H, Hin.
Qed.

Lemma series_X_target_only (model : RegressionModel Estimator) ts tl :
  lags model !! "target" = Some tl → tl ≠ [] →
  Forall (λ lag, (lag < 0)%Z) tl →
  default [] (lags model !! "past") = [] →
  default [] (lags model !! "future") = [] →
  ts_wf ts → is_deterministic ts = true → components ts ≠ [] → no_missing ts →
  ∃ X, series_X model 0 ts None None = Ok X
       ∧ length (rows X) = ts_len ts - max_lag tl
       ∧ columns X = feature_columns "_target_lag" (components ts) tl.
Proof.
  intros Htl Hne Hneg Hpast Hfut Hwf Hd Hc Hm.
  unfold series_X. cbn [cov_frame cov_truthy]. cbn -[concat_columns].
  rewrite Htl.
  assert (cov_lag_frames "past" None (lags model !! "past") = Ok []) as ->.
  { unfold cov_lag_frames. by destruct (lags model !! "past") as [[|??]|]. }
  assert (cov_lag_frames "fut" None (lags model !! "future") = Ok []) as ->.
  { unfold cov_lag_frames. by destruct (lags model !! "future") as [[|??]|]. }
  cbn -[concat_columns]. rewrite app_nil_r.
  pose proof (all_equal_index_lag_frames "_target_lag" (pd_dataframe ts) tl Hneg)
    as Heq.
  pose proof (columns_lag_frames "_target_lag" (pd_dataframe ts) tl) as Hcols.
  pose proof (lag_rows_complete "_target_lag" ts tl) as Hrows.
  destruct (lag_frames "_target_lag" (pd_dataframe ts) tl) as [|df0 objs] eqn:Hfr.
  { destruct tl; [done|discriminate Hfr]. }
  rewrite (concat_columns_same_index _ _ Heq). cbn -[mjoin].
  eexists. split; [reflexivity|]. cbn [columns rows dropna]. split; [|done].
  assert (Hidx : index df0 = index (pd_dataframe ts)).
  { destruct tl as [|lag0 tl']; [done|]. injection Hfr as <- _.
    apply Forall_cons in Hneg as [H0 _].
    destruct (rows_shift_down (- lag0) (pd_dataframe ts)) as [Hi _]; [lia|].
    exact Hi. }
  rewrite (filter_threshold _ _ (max_lag tl)).
  - rewrite length_drop, length_imap, Hidx, length_index.
    by rewrite length_rows_pd_dataframe.
  - intros i x Hx.
    apply list_lookup_imap_Some in Hx as (t & Ht & ->). cbn [snd].
    apply Hrows; try done.
    apply lookup_lt_Some in Ht.
    by rewrite Hidx, length_index, length_rows_pd_dataframe in Ht.
Qed.

(** C3 (as amended). For a single deterministic target series of length [N]
    without missing values, with look-back target lags only and no
    covariates, the feature matrix has [N - L] rows, [L] being the largest
    lag magnitude (no row at all when [N ≤ L]), and one column per (lag,
    component) pair, named by the component followed by [_target_lag] and
    the lag. *)
Theorem target_lag_matrix_shape (model : RegressionModel Estimator) ts tl :
  lags model !! "target" = Some tl → tl ≠ [] →
  Forall (λ lag, (lag < 0)%Z) tl →
  default [] (lags model !! "past") = [] →
  default [] (lags model !! "future") = [] →
  ts_wf ts → is_deterministic ts = true → components ts ≠ [] → no_missing ts →
  ∃ X, _create_regression_model_shap_X model (One ts) None None None = Ok X
       ∧ length (rows X) = ts_len ts - max_lag tl
       ∧ columns X = feature_columns "_target_lag" (components ts) tl
       ∧ length (columns X) = length tl * length (components ts).
Proof.
  intros Htl Hne Hneg Hpast Hfut Hwf Hd Hc Hm.
  destruct (series_X_target_only model ts tl) as (X & HX & Hrows & Hcols);
    try done.
  unfold _create_regression_model_shap_X.
  cbn [ensure_list wrap_cov cov_truthy imap mapM fst snd].
  cbn -[series_X concat_rows]. rewrite HX. cbn.
  eexists. split; [reflexivity|]. cbn. rewrite app_nil_r.
  split; [done|]. split; [done|].
  rewrite Hcols. apply length_feature_columns.
Qed.

End MatrixProperties.


Lemma target_lag_matrix_shape_witness :
  ∃ X, _create_regression_model_shap_X
         (Example.lag_model (Plain (Example.mkEstimator 0 None)) 1 1)
         (One Example.univariate) None None None = Ok X
       ∧ length (rows X) = 5 - 2
       ∧ columns X = ["x_target_lag-2"; "x_target_lag-1"]
       ∧ length (columns X) = 2 * 1.
Proof.
  apply (target_lag_matrix_shape
           (Example.lag_model (Plain (Example.mkEstimator 0 None)) 1 1)
           Example.univariate [-2; -1]%Z).
  - reflexivity.
  - discriminate.
  - repeat constructor.
  - reflexivity.
  - reflexivity.
  - unfold ts_wf; cbn. split; [done|]. split; repeat constructor.
  - reflexivity.
  - discriminate.
  - unfold no_missing; cbn. repeat constructor; eexists; reflexivity.
Defined.

(** C3, as stated, fails on a series with a missing value: of the four
    rows of [gappy] the lags [-2, -1] leave none, not [4 - 2]. *)
Lemma target_lag_matrix_shape_counterexample :
  ts_len Example.gappy = 4 ∧ max_lag [-2; -1]%Z = 2 ∧
  ∃ X, _create_regression_model_shap_X
         (Example.lag_model (Plain (Example.mkEstimator 0 None)) 1 1)
         (One Example.gappy) None None None = Ok X
       ∧ length (rows X) = 0
       ∧ length (rows X) ≠ ts_len Example.gappy - max_lag [-2; -1]%Z.
Proof.
  split; [reflexivity|]. split; [reflexivity|].
  eexists. split; [vm_compute; reflexivity|]. cbn. split; [done|lia].
Defined.




(** * Properties: the heap and the loops of the reassembly *)

Section HeapProperties.
Context {V : Type}.
Implicit Types (h : heap V) (e : Explanation V) (a : addr).

Lemma bind_Ok {A B} (m : M V A) (f : A → M V B) h x h' :
  m h = Ok (x, h') → (m ≫= f) h = f x h'.
Proof. intros H. unfold mbind, M_bind. by rewrite H. Qed.

Lemma bind_Raise {A B} (m : M V A) (f : A → M V B) h (err : exn) :
  m h = Raise err → (m ≫= f) h = Raise err.
Proof. intros H. unfold mbind, M_bind. by rewrite H. Qed.

Lemma lift_Ok {A} (r : result A) (x : A) h :
  r = Ok x → lift (V := V) r h = Ok (x, h).
Proof. by intros ->. Qed.

Lemma get_Ok a h e : h !! a = Some e → get a h = Ok (e, h).
Proof. intros H. unfold get. by rewrite H. Qed.

Lemma get_old a h ext e : h !! a = Some e → get a (h ++ ext) = Ok (e, h ++ ext).
Proof. intros H. apply get_Ok. by apply lookup_app_l_Some. Qed.

Lemma update_last h e (f : Explanation V → Explanation V) :
  update (length h) f (h ++ [e]) = Ok ((), h ++ [f e]).
Proof.
  unfold update. rewrite list_lookup_middle by done.
  by rewrite insert_app_r_alt, Nat.sub_diag by done.
Qed.

Lemma update_Ok a h e (f : Explanation V → Explanation V) :
  h !! a = Some e → update a f h = Ok ((), <[a := f e]> h).
Proof. intros H. unfold update. by rewrite H. Qed.

End HeapProperties.

(** One step of a computation on the heap whose outcome [H] is known. *)
Tactic Notation "run" uconstr(H) := rewrite (bind_Ok _ _ _ _ _ H).

Section LoopProperties.
Context {V : Type}.
Implicit Types (h : heap V) (e : Explanation V) (a : addr).

(** A loop over [range n] that keeps an invariant indexed by the number of
    iterations done runs to its end and establishes the invariant at [n]. *)
Lemma foldM_range_inv {S} (body : S → nat → M V S)
    (I : nat → S → heap V → Prop) (n : nat) (s0 : S) h0 :
  I 0 s0 h0 →
  (∀ k s h, k < n → I k s h →
            ∃ s' h', body s k h = Ok (s', h') ∧ I (Datatypes.S k) s' h') →
  ∃ s h, foldM body s0 (range n) h0 = Ok (s, h) ∧ I n s h.
Proof.
  intros H0 Hstep. unfold range.
  assert (Hgen : ∀ m a s h, a + m = n → I a s h →
            ∃ s' h', foldM body s (seq a m) h = Ok (s', h') ∧ I n s' h').
  { induction m as [|m IH]; intros a s h Ha HI.
    - exists s, h. split; [done|]. by replace n with a by lia.
    - destruct (Hstep a s h) as (s' & h' & Hb & HI'); [lia|done|].
      destruct (IH (Datatypes.S a) s' h') as (s'' & h'' & Hf & HI''); [lia|done|].
      exists s'', h''. split; [|done]. cbn [seq foldM].
      by run Hb. }
  by apply (Hgen n 0).
Qed.

(** The two loops of [fill] when every entry is a new object: the objects
    are laid out row after row behind the heap the loops started on, and the
    dictionary holds, at horizon [i] and component [j], the address of the
    object made for [(i, j)]. *)
Lemma fill_fresh (n td : nat) (entry : nat → nat → M V addr)
    (obj : nat → nat → Explanation V) (Inv : heap V → Prop) h0 :
  Inv h0 →
  (∀ h e, Inv h → Inv (h ++ [e])) →
  (∀ i j h, i < n → j < td → Inv h →
            entry i j h = Ok (length h, h ++ [obj i j])) →
  ∃ d h,
    fill n td entry h0 = Ok (d, h) ∧ Inv h ∧
    length h = length h0 + n * td ∧
    dom d = set_seq 0 n ∧
    (∀ a, a < length h0 → h !! a = h0 !! a) ∧
    ∀ i j, i < n → j < td →
      ∃ row, d !! i = Some row ∧ dom row = set_seq 0 td ∧
             row !! j = Some (length h0 + td * i + j) ∧
             h !! (length h0 + td * i + j) = Some (obj i j).
Proof.
  intros HInv Happ Hentry. unfold fill.
  set (Iout := λ (i : nat) (d : gmap nat (gmap nat addr)) (h : heap V),
    Inv h ∧ length h = length h0 + i * td ∧
    dom d = (set_seq 0 i : gset nat) ∧
    (∀ a, a < length h0 → h !! a = h0 !! a) ∧
    ∀ i' j, i' < i → j < td →
      ∃ row, d !! i' = Some row ∧ dom row = (set_seq 0 td : gset nat) ∧
             row !! j = Some (length h0 + td * i' + j) ∧
             h !! (length h0 + td * i' + j) = Some (obj i' j)).
  destruct (foldM_range_inv
    (λ (shap_explanations : gmap nat (gmap nat addr)) i,
       tmp_n ← foldM (λ (tmp_n : gmap nat addr) j,
                        tmp_t ← entry i j; mret (<[j := tmp_t]> tmp_n))
                 ∅ (range td);
       mret (<[i := tmp_n]> shap_explanations))
    Iout n ∅ h0) as (d & h & Hrun & HI & Hlen & Hdom & Hold & Hall).
  - repeat split; try done; lia.
  - intros i d hi Hi (HI & Hlen & Hdom & Hold & Hall).
    set (Iin := λ (k : nat) (row : gmap nat addr) (h : heap V),
      Inv h ∧ length h = length hi + k ∧
      dom row = (set_seq 0 k : gset nat) ∧
      (∀ a, a < length hi → h !! a = hi !! a) ∧
      ∀ j, j < k → row !! j = Some (length hi + j) ∧
                   h !! (length hi + j) = Some (obj i j)).
    destruct (foldM_range_inv
      (λ (tmp_n : gmap nat addr) j,
         tmp_t ← entry i j; mret (<[j := tmp_t]> tmp_n))
      Iin td ∅ hi) as (row & h & Hrow & HI' & Hlen' & Hdom' & Hold' & Hall').
    + repeat split; try done; lia.
    + intros k row h Hk (HIk & Hlenk & Hdomk & Holdk & Hallk).
      exists (<[k := length h]> row), (h ++ [obj i k]).
      split.
      { run (Hentry i k h Hi Hk HIk). done. }
      split; [by apply Happ|].
      split; [rewrite length_app; cbn; lia|].
      split; [rewrite dom_insert_L, set_seq_S_end_union_L, Hdomk; done|].
      split.
      { intros a Ha. rewrite lookup_app_l by lia. by apply Holdk. }
      intros j Hj. destruct (decide (j = k)) as [->|Hne].
      * rewrite lookup_insert_eq. split; [by rewrite Hlenk|].
        rewrite <- Hlenk. by apply list_lookup_middle.
      * rewrite lookup_insert_ne by done.
        destruct (Hallk j) as [Hr Hh]; [lia|]. split; [done|].
        rewrite lookup_app_l by lia. done.
    + exists (<[i := row]> d), h. split.
      { run Hrow. done. }
      split; [done|]. split; [lia|].
      split; [rewrite dom_insert_L, set_seq_S_end_union_L, Hdom; done|].
      split.
      { intros a Ha. rewrite Hold' by lia. by apply Hold. }
      intros i' j Hi' Hj. destruct (decide (i' = i)) as [->|Hne].
      * exists row. rewrite lookup_insert_eq. split; [done|]. split; [done|].
        destruct (Hall' j Hj) as [Hr Hh].
        replace (length h0 + td * i + j) with (length hi + j) by lia. done.
      * rewrite lookup_insert_ne by done.
        destruct (Hall i' j) as (row' & Hd & Hdr & Hr & Hh); [lia|done|].
        exists row'. split; [done|]. split; [done|]. split; [done|].
        rewrite Hold'; [done|]. rewrite Hlen. nia.
  - exists d, h. done.
Qed.

End LoopProperties.

(** * Properties: the reassembly of the attributions *)

Section AssemblyProperties.
Context {V Estimator : Type} `{!External V Estimator}.
Implicit Types (h : heap V) (X : DataFrame V) (raw : Explanation V).

Lemma dict_get_Ok {A} (d : gmap nat A) (k : nat) (x : A) :
  d !! k = Some x → dict_get d k = Ok x.
Proof. intros H. unfold dict_get. by rewrite H. Qed.

Lemma call_Ok (e : explainer V Estimator) X raw h :
  shap_call e X = Ok raw → call e X h = Ok (length h, h ++ [raw]).
Proof. intros H. unfold call. by rewrite (bind_Ok _ _ h raw h (lift_Ok _ _ _ H)). Qed.

(** One entry of the combined layout with several outputs: a new object
    holding the slice of the values and the flattened slice of the base
    values at output [target_dim * i + j]. *)
Lemma combined_entry_fresh (td : nat) (tmp : addr) X (i j : nat) h raw
    (v b0 b : ndarray V) :
  h !! tmp = Some raw →
  take_axis 2 (td * i + j) (values raw) = Ok v →
  base_values raw = Some b0 →
  take_axis 1 (td * i + j) b0 = Ok b →
  combined_entry false td tmp X i j h
  = Ok (length h,
        h ++ [mkExplanation v (Some (ravel b)) (feature_names raw)
                (Some (index X))]).
Proof.
  intros Htmp Hv Hb0 Hb. unfold combined_entry. cbn [negb].
  rewrite (bind_Ok _ _ h (length h)
             (h ++ [mkExplanation v (Some (ravel b)) None None])).
  - run (get_old _ _ _ _ Htmp).
    run (update_last _ _ _).
    run (update_last _ _ _).
    done.
  - run (get_Ok _ _ _ Htmp).
    run (lift_Ok _ _ _ Hv).
    rewrite (bind_Ok (new (mkExplanation v None None None)) _ h (length h)
               (h ++ [mkExplanation v None None None])) by done.
    run (get_old _ _ _ _ Htmp).
    rewrite Hb0.
    run (lift_Ok (attr (Some b0)) b0 _ eq_refl).
    run (lift_Ok _ _ _ Hb).
    run (update_last _ _ _).
    done.
Qed.

(** The only entry of the combined layout with a single output: the object
    the engine returned, updated in place. *)
Lemma combined_entry_single (td : nat) (tmp : addr) X (i j : nat) h raw
    (b0 : ndarray V) :
  h !! tmp = Some raw →
  base_values raw = Some b0 →
  combined_entry true td tmp X i j h
  = Ok (tmp,
        <[tmp := mkExplanation (values raw) (Some (ravel b0))
                   (feature_names raw) (Some (index X))]> h).
Proof.
  intros Htmp Hb0. unfold combined_entry. cbn [negb].
  assert (Hlt : tmp < length h) by by eapply lookup_lt_Some.
  set (e1 := set_base_values (ravel b0) raw).
  set (e2 := set_feature_names (feature_names e1) e1).
  assert (H1 : (<[tmp := e1]> h) !! tmp = Some e1)
    by by apply list_lookup_insert_eq.
  assert (H2 : (<[tmp := e2]> (<[tmp := e1]> h)) !! tmp = Some e2).
  { apply list_lookup_insert_eq. by rewrite length_insert. }
  rewrite (bind_Ok _ _ h tmp (<[tmp := e1]> h)).
  - run (get_Ok _ _ _ H1).
    run (update_Ok _ _ _ _ H1).
    run (update_Ok _ _ _ _ H2).
    by rewrite !list_insert_insert_eq.
  - run (get_Ok _ _ _ Htmp).
    rewrite Hb0.
    run (lift_Ok (attr (Some b0)) b0 _ eq_refl).
    run (update_Ok _ _ _ _ Htmp).
    done.
Qed.

(** One entry of the layout with one estimator per output: the object the
    explainer stored for [(i, j)] returned, with its base values flattened
    and the time index attached. *)
Lemma per_output_entry_fresh (explainers : gmap nat (gmap nat (explainer V Estimator)))
    X (i j : nat) h row e raw (b0 : ndarray V) :
  explainers !! i = Some row → row !! j = Some e →
  shap_call e X = Ok raw → base_values raw = Some b0 →
  per_output_entry explainers X i j h
  = Ok (length h,
        h ++ [mkExplanation (values raw) (Some (ravel b0)) (feature_names raw)
                (Some (index X))]).
Proof.
  intros Hi Hj Hcall Hb0. unfold per_output_entry.
  run (lift_Ok _ _ h (dict_get_Ok _ _ _ Hi)).
  run (lift_Ok _ _ h (dict_get_Ok _ _ _ Hj)).
  run (call_Ok _ _ _ _ Hcall).
  rewrite (bind_Ok _ _ _ _ _
             (get_Ok (length h) (h ++ [raw]) raw
                (list_lookup_middle h [] raw _ eq_refl))).
  rewrite Hb0.
  run (lift_Ok (attr (Some b0)) b0 _ eq_refl).
  run (update_last _ _ _).
  run (update_last _ _ _).
  done.
Qed.

(** ** What the constructor of the helper establishes *)

Lemma init_plain (model : RegressionModel Estimator) bg (n : nat) bpc bfc sm nb
    kw self est :
  _RegressionShapExplainers__init__ model bg n bpc bfc sm nb kw = Ok self →
  model_model model = Plain est →
  ∃ bgX e,
    _create_regression_model_shap_X model bg bpc bfc nb = Ok bgX ∧
    _get_explainer_sklearn est bgX sm kw = Ok e ∧
    self = mk_RegressionShapExplainers model false (input_dim_target model) n
             (bool_decide (n = 1) && bool_decide (input_dim_target model = 1))
             bgX (inr e).
Proof.
  unfold _RegressionShapExplainers__init__. intros Hinit Hm.
  destruct (_create_regression_model_shap_X model bg bpc bfc nb) as [bgX|];
    cbn in Hinit; [|done].
  rewrite Hm in Hinit.
  destruct (_get_explainer_sklearn est bgX sm kw) as [e|] eqn:He;
    cbn in Hinit; [|done].
  simplify_eq. by exists bgX, e.
Qed.

Lemma foldM_range_result {S} (body : S → nat → result S) (I : nat → S → Prop)
    (n : nat) (s0 s : S) :
  foldM body s0 (range n) = Ok s →
  I 0 s0 →
  (∀ k s s', k < n → I k s → body s k = Ok s' → I (Datatypes.S k) s') →
  I n s.
Proof.
  intros Hrun H0 Hstep. unfold range in Hrun.
  assert (Hgen : ∀ m a s1, a + m = n → I a s1 →
            foldM body s1 (seq a m) = Ok s → I n s).
  { induction m as [|m IH]; intros a s1 Ha HI; cbn [seq foldM].
    - intros [= <-]. by replace n with a by lia.
    - destruct (body s1 a) as [s'|] eqn:Hb; cbn; [|done].
      apply IH; [lia|]. apply (Hstep a s1 s'); [lia|done..]. }
  by apply (Hgen n 0 s0).
Qed.

(** With a [MultiOutputRegressor] the explainer kept for horizon [i] and
    component [j] is built from [estimators_[i + j]]. *)
Lemma init_per_output (model : RegressionModel Estimator) bg (n : nat) bpc bfc
    sm nb kw self ests :
  _RegressionShapExplainers__init__ model bg n bpc bfc sm nb kw = Ok self →
  model_model model = MultiOutputRegressor ests →
  ∃ bgX d,
    _create_regression_model_shap_X model bg bpc bfc nb = Ok bgX ∧
    self = mk_RegressionShapExplainers model true (input_dim_target model) n
             (bool_decide (n = 1) && bool_decide (input_dim_target model = 1))
             bgX (inl d) ∧
    ∀ i j, i < n → j < input_dim_target model →
      ∃ row est e,
        d !! i = Some row ∧ row !! j = Some e ∧
        ests !! (i + j) = Some est ∧
        _get_explainer_sklearn est bgX sm kw = Ok e.
Proof.
  unfold _RegressionShapExplainers__init__. intros Hinit Hm.
  destruct (_create_regression_model_shap_X model bg bpc bfc nb) as [bgX|];
    cbn in Hinit; [|done].
  rewrite Hm in Hinit.
  match type of Hinit with
  | context [foldM ?body ∅ (range n)] =>
    destruct (foldM body ∅ (range n)) as [d|] eqn:Hd; cbn in Hinit; [|done]
  end.
  simplify_eq. exists bgX, d. split; [done|]. split; [done|].
  set (td := input_dim_target model) in *.
  refine (foldM_range_result _
    (λ k (d : gmap nat (gmap nat (explainer V Estimator))),
       ∀ i j, i < k → j < td →
         ∃ row est e, d !! i = Some row ∧ row !! j = Some e ∧
                      ests !! (i + j) = Some est ∧
                      _get_explainer_sklearn est bgX sm kw = Ok e)
    n ∅ d Hd _ _).
  - intros i j Hi. lia.
  - intros k dk dk' Hk IHk Hbody.
    match type of Hbody with
    | context [foldM ?body ∅ (range td)] =>
      destruct (foldM body ∅ (range td)) as [row|] eqn:Hrow;
        cbn in Hbody; [|done]
    end.
    simplify_eq.
    assert (Hrow' : ∀ j, j < td →
              ∃ est e, row !! j = Some e ∧ ests !! (k + j) = Some est ∧
                       _get_explainer_sklearn est bgX sm kw = Ok e).
    { refine (foldM_range_result _
        (λ c (row : gmap nat (explainer V Estimator)),
           ∀ j, j < c →
             ∃ est e, row !! j = Some e ∧ ests !! (k + j) = Some est ∧
                      _get_explainer_sklearn est bgX sm kw = Ok e)
        td ∅ row Hrow _ _).
      - intros j Hj. lia.
      - intros c r r' Hc IHc Hstep.
        unfold getitem in Hstep.
        destruct (ests !! (k + c)) as [est|] eqn:Hest; cbn in Hstep; [|done].
        destruct (_get_explainer_sklearn est bgX sm kw) as [e|] eqn:He;
          cbn in Hstep; [|done].
        simplify_eq. intros j Hj.
        destruct (decide (j = c)) as [->|Hne].
        + exists est, e. by rewrite lookup_insert_eq.
        + rewrite lookup_insert_ne by done. apply IHc. lia. }
    intros i j Hi Hj. destruct (decide (i = k)) as [->|Hne].
    + destruct (Hrow' j Hj) as (est & e & Hr & Hest & He).
      exists row, est, e. by rewrite lookup_insert_eq.
    + rewrite lookup_insert_ne by done. apply IHk; [lia|done].
Qed.

(** ** The layout with one estimator per output *)

(** With a [MultiOutputRegressor] the dictionary has the horizons as keys
    and holds at horizon [i] and component [j] the answer of the explainer
    of [estimators_[i + j]], passed through: its values and feature names
    are untouched, its base values flattened, the index of the feature
    matrix attached. *)
Lemma per_output_layout_passes_through (model : RegressionModel Estimator) bg
    (n : nat) bpc bfc sm nb kw self ests fg fpc ffc ns X h0 :
  _RegressionShapExplainers__init__ model bg n bpc bfc sm nb kw = Ok self →
  model_model model = MultiOutputRegressor ests →
  _create_regression_model_shap_X model fg fpc ffc ns = Ok X →
  (∀ e, ∃ raw b0, shap_call e X = Ok raw ∧ base_values raw = Some b0) →
  ∃ bgX d h,
    _create_regression_model_shap_X model bg bpc bfc nb = Ok bgX ∧
    shap_explanations self fg fpc ffc ns h0 = Ok (d, h) ∧
    dom d = set_seq 0 n ∧
    ∀ i j, i < n → j < input_dim_target model →
      ∃ row a est e raw b0,
        d !! i = Some row ∧ dom row = set_seq 0 (input_dim_target model) ∧
        row !! j = Some a ∧
        ests !! (i + j) = Some est ∧
        _get_explainer_sklearn est bgX sm kw = Ok e ∧
        shap_call e X = Ok raw ∧ base_values raw = Some b0 ∧
        h !! a = Some (mkExplanation (values raw) (Some (ravel b0))
                         (feature_names raw) (Some (index X))).
Proof.
  intros Hinit Hm HX Hcalls.
  destruct (init_per_output _ _ _ _ _ _ _ _ _ _ Hinit Hm)
    as (bgX & ex & Hbg & -> & Hex).
  set (td := input_dim_target model) in *.
  unfold shap_explanations. cbn [rse_model is_multiOutputRegressor rse_explainers
    rse_n target_dim single_output].
  run (lift_Ok _ _ h0 HX).
  set (nothing := mkExplanation (mkArray [] []) None None None : Explanation V).
  set (obj := λ i j : nat,
    match ex !! i ≫= (.!! j) with
    | Some e =>
      match shap_call e X with
      | Ok raw =>
        mkExplanation (values raw) (ravel <$> base_values raw)
          (feature_names raw) (Some (index X))
      | Raise _ => nothing
      end
    | None => nothing
    end).
  destruct (fill_fresh n td (per_output_entry ex X) obj (λ _, True) h0)
    as (d & h & Hfill & _ & _ & Hdom & _ & Hall); [done..| |].
  - intros i j h Hi Hj _.
    destruct (Hex i j Hi Hj) as (row & est & e & Hrow & He & _ & _).
    destruct (Hcalls e) as (raw & b0 & Hraw & Hb0).
    rewrite (per_output_entry_fresh _ _ _ _ _ _ _ _ _ Hrow He Hraw Hb0).
    unfold obj. rewrite Hrow. cbn. rewrite He, Hraw, Hb0. done.
  - exists bgX, d, h. split; [done|]. split; [done|]. split; [done|].
    intros i j Hi Hj.
    destruct (Hex i j Hi Hj) as (row' & est & e & Hrow' & He & Hest & Hget).
    destruct (Hcalls e) as (raw & b0 & Hraw & Hb0).
    destruct (Hall i j Hi Hj) as (row & Hd & Hdr & Hr & Hh).
    exists row, (length h0 + td * i + j), est, e, raw, b0.
    repeat (split; [done|]).
    etrans; [exact Hh|].
    unfold obj. rewrite Hrow'. cbn. rewrite He, Hraw, Hb0. done.
Qed.

(** ** The combined layout *)

(** C1. With one estimator for all outputs and more than one horizon or
    more than one component, the dictionary holds at horizon [i] and
    component [j] an object whose values are the slice of the raw values at
    index [target_dim * i + j] of the last axis and whose base values are
    the flattened slice of the raw base values at that index; it carries
    the feature names of the raw object and the index of the feature
    matrix. *)
Theorem combined_layout_slices (model : RegressionModel Estimator) bg (n : nat)
    bpc bfc sm nb kw self est fg fpc ffc ns X e raw (b0 : ndarray V) h0
    (i j : nat) (v b : ndarray V) :
  _RegressionShapExplainers__init__ model bg n bpc bfc sm nb kw = Ok self →
  model_model model = Plain est →
  1 < n ∨ 1 < input_dim_target model →
  _create_regression_model_shap_X model fg fpc ffc ns = Ok X →
  rse_explainers self = inr e →
  shap_call e X = Ok raw →
  base_values raw = Some b0 →
  (∀ k, k < n * input_dim_target model →
        is_Ok (take_axis 2 k (values raw)) ∧ is_Ok (take_axis 1 k b0)) →
  i < n → j < input_dim_target model →
  take_axis 2 (input_dim_target model * i + j) (values raw) = Ok v →
  take_axis 1 (input_dim_target model * i + j) b0 = Ok b →
  ∃ d h a,
    shap_explanations self fg fpc ffc ns h0 = Ok (d, h) ∧
    d !! i ≫= (.!! j) = Some a ∧
    h !! a = Some (mkExplanation v (Some (ravel b)) (feature_names raw)
                     (Some (index X))).
Proof.
  intros Hinit Hm Hmulti HX He Hcall Hb0 Hslices Hi Hj Hv Hb.
  destruct (init_plain _ _ _ _ _ _ _ _ _ _ Hinit Hm) as (bgX & e' & _ & _ & ->).
  cbn in He. simplify_eq.
  set (td := input_dim_target model) in *.
  assert (bool_decide (n = 1) && bool_decide (td = 1) = false) as Hsingle.
  { apply andb_false_iff.
    destruct Hmulti; [left|right]; apply bool_decide_eq_false_2; lia. }
  unfold shap_explanations. cbn [rse_model is_multiOutputRegressor rse_explainers
    rse_n target_dim single_output].
  run (lift_Ok _ _ h0 HX).
  run (call_Ok _ _ _ _ Hcall).
  rewrite Hsingle.
  set (obj := λ i j : nat,
    match take_axis 2 (td * i + j) (values raw), take_axis 1 (td * i + j) b0 with
    | Ok v, Ok b =>
      mkExplanation v (Some (ravel b)) (feature_names raw) (Some (index X))
    | _, _ => raw
    end).
  destruct (fill_fresh n td
              (combined_entry false td (length h0) X) obj
              (λ h, h !! length h0 = Some raw) (h0 ++ [raw]))
    as (d & h & Hfill & _ & _ & _ & _ & Hall).
  - by apply list_lookup_middle.
  - intros h e1 Hh. by apply lookup_app_l_Some.
  - intros i' j' h Hi' Hj' Hh.
    destruct (Hslices (td * i' + j')) as [[v' Hv'] [b' Hb']]; [nia|].
    rewrite (combined_entry_fresh _ _ _ _ _ _ _ _ _ _ Hh Hv' Hb0 Hb').
    unfold obj. by rewrite Hv', Hb'.
  - destruct (Hall i j Hi Hj) as (row & Hd & _ & Hr & Hh).
    exists d, h, (length (h0 ++ [raw]) + td * i + j).
    split; [done|]. split.
    + rewrite Hd. cbn. done.
    + rewrite Hh. unfold obj. by rewrite Hv, Hb.
Qed.

Lemma ravel_one_per_sample (b0 : ndarray V) (s : nat) :
  ndarray_wf b0 → shape b0 = [s] ∨ shape b0 = [s; 1] →
  shape (ravel b0) = [s].
Proof.
  unfold ndarray_wf, ravel. cbn. intros -> [-> | ->]; cbn; f_equal; lia.
Qed.

(** C5. With one estimator, one horizon and one component, the only entry
    of the dictionary is the very object the engine returned: no other
    object is made, its values are the raw values, its base values are the
    raw ones flattened (one scalar per sample), it keeps its feature names
    and receives the index of the feature matrix. *)
Theorem single_output_reuses_raw_object (model : RegressionModel Estimator) bg
    bpc bfc sm nb kw self est fg fpc ffc ns X e raw (b0 : ndarray V) h0 :
  _RegressionShapExplainers__init__ model bg 1 bpc bfc sm nb kw = Ok self →
  model_model model = Plain est →
  input_dim_target model = 1 →
  _create_regression_model_shap_X model fg fpc ffc ns = Ok X →
  rse_explainers self = inr e →
  shap_call e X = Ok raw →
  base_values raw = Some b0 →
  call e X h0 = Ok (length h0, h0 ++ [raw]) ∧
  shap_explanations self fg fpc ffc ns h0
  = Ok ({[ 0 := {[ 0 := length h0 ]} ]},
        h0 ++ [mkExplanation (values raw) (Some (ravel b0)) (feature_names raw)
                 (Some (index X))]) ∧
  (∀ s, ndarray_wf b0 → shape b0 = [s] ∨ shape b0 = [s; 1] →
        shape (ravel b0) = [s]).
Proof.
  intros Hinit Hm Htd HX He Hcall Hb0.
  destruct (init_plain _ _ _ _ _ _ _ _ _ _ Hinit Hm) as (bgX & e' & _ & _ & ->).
  cbn in He. simplify_eq.
  split; [by apply call_Ok|]. split; [|by intros s; apply ravel_one_per_sample].
  unfold shap_explanations. cbn [rse_model is_multiOutputRegressor rse_explainers
    rse_n target_dim single_output].
  run (lift_Ok _ _ h0 HX).
  run (call_Ok _ _ _ _ Hcall).
  rewrite Htd. unfold fill, range. cbn [seq foldM].
  assert (Hraw : (h0 ++ [raw]) !! length h0 = Some raw)
    by by apply list_lookup_middle.
  change (bool_decide (1 = 1) && bool_decide (1 = 1)) with true.
  rewrite (bind_Ok _ _ _ _ _
    (bind_Ok _ _ _ _ _
       (bind_Ok _ _ _ _ _
          (bind_Ok _ _ _ _ _
             (combined_entry_single 1 _ X 0 0 _ _ _ Hraw Hb0))))).
  cbn. rewrite !insert_empty.
  rewrite insert_app_r_alt, Nat.sub_diag by done. done.
Qed.

End AssemblyProperties.

Lemma combined_layout_slices_witness :
  ∃ d h a,
    shap_explanations Example.combined_explainers (One Example.trivariate)
      None None None [] = Ok (d, h) ∧
    d !! 1 ≫= (.!! 2) = Some a ∧
    h !! a = Some (mkExplanation (mkArray [5; 3] (Example.slot5 15))
                     (Some (ravel (mkArray [5] (Example.slot5 5))))
                     (feature_names Example.combined_raw)
                     (Some (index Example.combined_X))).
Proof.
  apply (combined_layout_slices Example.combined_model (One Example.trivariate)
           2 None None None None ∅ Example.combined_explainers
           Example.combined_estimator (One Example.trivariate) None None None
           Example.combined_X Example.combined_explainer Example.combined_raw
           (mkArray [5; 6] (Example.markers 30)) [] 1 2).
  - vm_compute. reflexivity.
  - reflexivity.
  - left. lia.
  - vm_compute. reflexivity.
  - vm_compute. reflexivity.
  - vm_compute. reflexivity.
  - vm_compute. reflexivity.
  - intros k Hk. change (input_dim_target Example.combined_model) with 3 in Hk.
    do 6 (destruct k as [|k]; [split; eexists; vm_compute; reflexivity|]). lia.
  - lia.
  - cbn. lia.
  - vm_compute. reflexivity.
  - vm_compute. reflexivity.
Defined.

Lemma single_output_reuses_raw_object_witness :
  call Example.single_explainer Example.single_X []
  = Ok (0, [Example.single_raw]) ∧
  shap_explanations Example.single_explainers (One Example.univariate)
    None None None []
  = Ok ({[ 0 := {[ 0 := 0 ]} ]},
        [mkExplanation (values Example.single_raw)
           (Some (ravel (mkArray [3; 1] (replicate 3 (Some 7%Z)))))
           (feature_names Example.single_raw)
           (Some (index Example.single_X))]) ∧
  (∀ s, ndarray_wf (mkArray [3; 1] (replicate 3 (Some 7%Z))) →
        shape (mkArray [3; 1] (replicate 3 (Some 7%Z))) = [s]
        ∨ shape (mkArray [3; 1] (replicate 3 (Some 7%Z))) = [s; 1] →
        shape (ravel (mkArray [3; 1] (replicate 3 (Some 7%Z)))) = [s]).
Proof.
  apply (single_output_reuses_raw_object Example.single_model
           (One Example.univariate) None None None None ∅
           Example.single_explainers Example.single_estimator
           (One Example.univariate) None None None Example.single_X
           Example.single_explainer Example.single_raw
           (mkArray [3; 1] (replicate 3 (Some 7%Z))) []).
  - vm_compute. reflexivity.
  - reflexivity.
  - reflexivity.
  - vm_compute. reflexivity.
  - vm_compute. reflexivity.
  - vm_compute. reflexivity.
  - vm_compute. reflexivity.
Defined.

(** C2. With one estimator per output the constructor takes, for horizon
    [i] and component [j], the estimator at position [i + j] of
    [estimators_]. With two horizons and two components the dictionary
    therefore holds the answer of estimator 1 both at [0][1] and at [1][0]
    and the answer of estimator 2 at [1][1]; the estimators of the output
    columns [2 * 1 + 0] and [2 * 1 + 1] are the numbers 2 and 3. *)
Theorem per_output_layout_takes_estimator_i_plus_j :
  ∃ self d h,
    _RegressionShapExplainers__init__ Example.per_output_model
      (One Example.bivariate) 2 None None None None ∅ = Ok self ∧
    shap_explanations self (One Example.bivariate) None None None []
    = Ok (d, h) ∧
    Example.answered_by d h 0 0 = Some 0%Z ∧
    Example.answered_by d h 0 1 = Some 1%Z ∧
    Example.answered_by d h 1 0 = Some 1%Z ∧
    Example.answered_by d h 1 1 = Some 2%Z.
Proof.
  eexists _, _, _. split; [vm_compute; reflexivity|].
  split; [vm_compute; reflexivity|].
  repeat split; vm_compute; reflexivity.
Qed.

(** With a single component [i + j] is the output column of horizon [i]:
    two horizons give exactly the keys [0] and [1], each with the only key
    [0], and the entries hold the answers of the estimators 0 and 1. *)
Lemma per_output_layout_one_component :
  ∃ self h,
    _RegressionShapExplainers__init__ Example.per_horizon_model
      (One Example.univariate) 2 None None None None ∅ = Ok self ∧
    shap_explanations self (One Example.univariate) None None None []
    = Ok ({[ 0 := {[ 0 := 0 ]}; 1 := {[ 0 := 1 ]} ]}, h) ∧
    Example.answered_by {[ 0 := {[ 0 := 0 ]}; 1 := {[ 0 := 1 ]} ]} h 0 0
    = Some 0%Z ∧
    Example.answered_by {[ 0 := {[ 0 := 0 ]}; 1 := {[ 0 := 1 ]} ]} h 1 0
    = Some 1%Z.
Proof.
  eexists _, _. split; [vm_compute; reflexivity|].
  split; [vm_compute; reflexivity|].
  split; vm_compute; reflexivity.
Qed.

(** * Properties: the explainer *)

Section ExplainerProperties.
Context {V Estimator : Type} `{!External V Estimator}.
Implicit Types (self : ShapExplainer V Estimator) (h : heap V).

Lemma py_max_ge (l : list Z) (x : Z) :
  x ∈ l → ∃ m, py_max l = Ok m ∧ (x ≤ m)%Z.
Proof.
  destruct l as [|y l]; [by intros ?%elem_of_nil|].
  intros Hx. exists (foldl Z.max y l). split; [done|].
  assert (Hacc : ∀ (l : list Z) (acc : Z), (acc ≤ foldl Z.max acc l)%Z).
  { clear. induction l as [|z l IH]; intros acc; cbn; [lia|].
    specialize (IH (Z.max acc z)). lia. }
  assert (Hin : ∀ (l : list Z) (acc : Z), x ∈ l → (x ≤ foldl Z.max acc l)%Z).
  { clear -Hacc. induction l as [|z l IH]; intros acc Hx.
    - by apply elem_of_nil in Hx.
    - apply elem_of_cons in Hx as [->|Hx]; cbn.
      + specialize (Hacc l (Z.max acc z)). lia.
      + by apply IH. }
  apply elem_of_cons in Hx as [->|Hx]; [apply Hacc|by apply Hin].
Qed.

Lemma raise_if_cases (c : bool) (msg : string) :
  raise_if c msg = Ok () ∨ raise_if c msg = Raise (ValueError msg).
Proof. destruct c; [by right|by left]. Qed.

Lemma target_names_check self (names : list string) (t : string) h :
  t ∈ names → t ∉ self_target_names self →
  lift (V := V)
    (raise_if
       (existsb (λ target_name,
                   negb (bool_decide (target_name ∈ self_target_names self)))
          names)
       "One of the target names doesn't exist in the original background ts.")
    h
  = Raise (ValueError
      "One of the target names doesn't exist in the original background ts.").
Proof.
  intros Hin Hnot.
  assert (existsb (λ target_name,
                     negb (bool_decide (target_name ∈ self_target_names self)))
            names = true) as ->; [|done].
  apply existsb_exists. exists t. split; [by apply list_elem_of_In|].
  by rewrite bool_decide_eq_false_2.
Qed.

Lemma horizons_check self (l : list Z) (x : Z) h :
  x ∈ l → (Z.of_nat (n self) - 1 < x)%Z →
  lift (V := V)
    (m ← py_max l;
     raise_if (Z.of_nat (n self) - 1 <? m)%Z
       "One of the horizons is greater than the model output_chunk_length.")
    h
  = Raise (ValueError
      "One of the horizons is greater than the model output_chunk_length.").
Proof.
  intros Hin Hlt. destruct (py_max_ge l x Hin) as (m & -> & Hle). cbn.
  assert ((Z.of_nat (n self) - 1 <? m)%Z = true) as ->
    by (apply Z.ltb_lt; lia).
  done.
Qed.

Lemma ShapExplainer__init__n model bg bpc bfc sm nb kw self :
  ShapExplainer__init__ model bg bpc bfc sm nb kw = Ok self →
  n self = output_chunk_length (se_model self).
Proof.
  unfold ShapExplainer__init__. destruct model as [m|]; [|done].
  destruct (base_init m bg bpc bfc) as [[[[bg' bpc'] bfc'] names]|]; cbn; [|done].
  match goal with
  | |- context [mbind _ ?x] => destruct x as [sm'|]; cbn; [|done]
  end.
  destruct (_RegressionShapExplainers__init__ _ _ _ _ _ _ _ _) as [ex|];
    cbn; [|done].
  by intros [= <-].
Qed.

(** X20. A method name of ASCII characters that is not, in upper case, a
    member of the enumeration makes the constructor raise, and with a
    regression model whose background was accepted the error is the
    [ValueError] about the method; [summary_plot] raises a [ValueError]
    when a requested target name is not among the target names or a
    requested horizon exceeds [n - 1], where [n] is the output chunk length
    the constructor stored. In either case the call yields no object and no
    plot, whatever the attribution engine is: the error comes before the
    helper is built and before any attribution is computed. *)
Theorem configuration_errors_are_rejected :
  (∀ (model : ForecastingModel Estimator) bg bpc bfc (name : string) nb kw,
     Forall (λ c, (Ascii.N_of_ascii c < 128)%N)
       (String.list_ascii_of_string name) →
     _ShapMethod__members__ !! upper name = None →
     is_Raise (ShapExplainer__init__ model bg bpc bfc (Some name) nb kw) ∧
     ∀ m r, model = IsRegressionModel m → base_init m bg bpc bfc = Ok r →
       ∃ msg, ShapExplainer__init__ model bg bpc bfc (Some name) nb kw
              = Raise (ValueError msg)) ∧
  (∀ self (target_names : option (list string)) (horizons : option (list Z))
     nb plot_type h,
     (∃ names t, target_names = Some names ∧ t ∈ names
                 ∧ t ∉ self_target_names self)
     ∨ (∃ l x, horizons = Some l ∧ x ∈ l ∧ (Z.of_nat (n self) - 1 < x)%Z) →
     ∃ msg, summary_plot self target_names horizons nb plot_type h
            = Raise (ValueError msg)) ∧
  (∀ model bg bpc bfc sm nb kw self,
     ShapExplainer__init__ model bg bpc bfc sm nb kw = Ok self →
     n self = output_chunk_length (se_model self)).
Proof.
  split; [|split].
  - intros model bg bpc bfc name nb kw _ Hname.
    assert (Hmain : ∀ m r, model = IsRegressionModel m →
              base_init m bg bpc bfc = Ok r →
              ∃ msg, ShapExplainer__init__ model bg bpc bfc (Some name) nb kw
                     = Raise (ValueError msg)).
    { intros m [[[bg' bpc'] bfc'] names] -> Hbase.
      unfold ShapExplainer__init__. rewrite Hbase.
      cbn -[_ShapMethod__members__ upper]. rewrite Hname. cbn.
      eauto. }
    split; [|done].
    destruct model as [m|]; [|by eexists].
    destruct (base_init m bg bpc bfc) as [r|e] eqn:Hbase.
    + destruct (Hmain m r eq_refl Hbase) as [msg ->]. by eexists.
    + unfold ShapExplainer__init__. rewrite Hbase. by eexists.
  - intros self target_names horizons nb plot_type h Hbad.
    unfold summary_plot.
    destruct Hbad as [(names & t & -> & Hin & Hnot)|(l & x & -> & Hin & Hlt)].
    + rewrite (bind_Raise _ _ _ _ (target_names_check self names t h Hin Hnot)).
      eauto.
    + destruct target_names as [names|].
      * destruct (raise_if_cases
          (existsb (λ target_name,
                      negb (bool_decide (target_name ∈ self_target_names self)))
             names)
          "One of the target names doesn't exist in the original background ts.")
          as [Hc|Hc].
        -- rewrite (bind_Ok _ _ h () h) by (by rewrite Hc).
           rewrite (bind_Raise _ _ _ _ (horizons_check self l x h Hin Hlt)).
           eauto.
        -- rewrite (bind_Raise _ _ h
             (ValueError
                "One of the target names doesn't exist in the original background ts."))
             by (by rewrite Hc).
           eauto.
      * rewrite (bind_Ok _ _ h () h) by done.
        rewrite (bind_Raise _ _ _ _ (horizons_check self l x h Hin Hlt)).
        eauto.
  - intros model bg bpc bfc sm nb kw self. apply ShapExplainer__init__n.
Qed.

(** Called without a foreground series, [explain] does what the call with
    the background passed as foreground does, whatever covariates came with
    it. *)
Lemma explain_none_is_explain_background self
    (foreground_past_covariates foreground_future_covariates : option (cov_arg V))
    h :
  base_explain self None foreground_past_covariates
    foreground_future_covariates = Ok () →
  base_explain self (Some (background_series self))
    (background_past_covariates self) (background_future_covariates self)
  = Ok () →
  explain self None foreground_past_covariates foreground_future_covariates h
  = explain self (Some (background_series self))
      (background_past_covariates self) (background_future_covariates self) h.
Proof.
  intros Hnone Hback. unfold explain.
  run (lift_Ok _ _ h Hnone).
  run (lift_Ok _ _ h Hback).
  reflexivity.
Qed.

End ExplainerProperties.

Lemma configuration_errors_are_rejected_witness :
  (∃ msg, ShapExplainer__init__ (IsRegressionModel Example.single_model)
            (Some (One Example.univariate)) None None (Some "shapley") None ∅
          = Raise (ValueError msg)) ∧
  (∃ msg, summary_plot Example.shap_explainer (Some ["x"; "y"]) None None
            "dot" [] = Raise (ValueError msg)) ∧
  (∃ msg, summary_plot Example.shap_explainer None (Some [0; 1]%Z) None
            "dot" [] = Raise (ValueError msg)) ∧
  n Example.shap_explainer
  = output_chunk_length (se_model Example.shap_explainer).
Proof.
  pose proof (configuration_errors_are_rejected (V := Z)
                (Estimator := Example.estimator)) as (Hinit & Hplot & Hn).
  split; [|split; [|split]].
  - destruct (Hinit (IsRegressionModel Example.single_model)
                (Some (One Example.univariate)) None None "shapley" None ∅)
      as [_ Hmsg]; [cbn; repeat constructor|reflexivity|].
    exact (Hmsg Example.single_model _ eq_refl eq_refl).
  - apply Hplot. left. exists ["x"; "y"], "y".
    split; [reflexivity|]. split; [apply list_elem_of_In; cbn; tauto|].
    vm_compute. intros Hy. apply list_elem_of_In in Hy. cbn in Hy.
    destruct Hy as [Hy|[]]. discriminate Hy.
  - apply Hplot. right. exists [0; 1]%Z, 1%Z.
    split; [reflexivity|]. split; [apply list_elem_of_In; cbn; tauto|].
    vm_compute. reflexivity.
  - apply (Hn (IsRegressionModel Example.single_model)
             (Some (One Example.univariate)) None None None None ∅).
    vm_compute. reflexivity.
Defined.

(** The same on the example explainer, with a covariate passed and
    ignored. *)
Lemma explain_none_is_explain_background_example :
  explain Example.shap_explainer None (Some (CovSeries Example.past_cov)) None []
  = explain Example.shap_explainer
      (Some (background_series Example.shap_explainer))
      (background_past_covariates Example.shap_explainer)
      (background_future_covariates Example.shap_explainer) [].
Proof.
  apply (explain_none_is_explain_background Example.shap_explainer
           (Some (CovSeries Example.past_cov)) None []).
  - reflexivity.
  - reflexivity.
Defined.

(** C8. The name [additive] is outside the supported values, which the
    docstring of the constructor lists and its error message names, yet it
    is a member of the enumeration: the constructor does not reject it with
    a [ValueError]. It builds the background matrix and then fails in the
    helper, which has no branch for the method, with [UnboundLocalError]. *)
Theorem additive_is_not_rejected :
  ("additive" ∉ supported_shap_methods) ∧
  _ShapMethod__members__ !! upper "additive" = Some ADDITIVE ∧
  is_Ok (_create_regression_model_shap_X Example.single_model
           (One Example.univariate) None None None) ∧
  ShapExplainer__init__ (IsRegressionModel Example.single_model)
    (Some (One Example.univariate)) None None (Some "additive") None ∅
  = Raise UnboundLocalError ∧
  ∀ msg, ShapExplainer__init__ (IsRegressionModel Example.single_model)
           (Some (One Example.univariate)) None None (Some "additive") None ∅
         ≠ Raise (ValueError msg).
Proof.
  split.
  { unfold supported_shap_methods. rewrite !elem_of_cons, elem_of_nil.
    intros H. repeat (destruct H as [H|H]; [discriminate H|]). done. }
  split; [reflexivity|].
  split; [eexists; vm_compute; reflexivity|].
  assert (ShapExplainer__init__ (IsRegressionModel Example.single_model)
            (Some (One Example.univariate)) None None (Some "additive") None ∅
          = Raise UnboundLocalError) as ->
    by (vm_compute; reflexivity).
  split; [done|]. by intros msg.
Qed.

(** * Further properties: the Croston constructor *)

Section CrostonFurther.
Context {float : Type}.
Implicit Types (version : string) (alpha_d alpha_p : option float).

(** The names the constructor compares [version] with, as they are. *)
Lemma croston_dispatch version alpha_d alpha_p :
  lower version ∈ Croston.versions →
  Croston.__init__ version alpha_d alpha_p =
  if String.eqb version "classic" then
    Ok (Croston.mkCroston Croston.CrostonClassic None None version)
  else if String.eqb version "optimized" then
    Ok (Croston.mkCroston Croston.CrostonOptimized None None version)
  else if String.eqb version "sba" then
    Ok (Croston.mkCroston Croston.CrostonSBA None None version)
  else if bool_decide (alpha_d = None) || bool_decide (alpha_p = None) then
    Raise (ValueError "alpha_d and alpha_p must be specified when using 'tsb'.")
  else Ok (Croston.mkCroston (Croston.CrostonTSB alpha_d alpha_p)
             alpha_d alpha_p version).
Proof.
  intros Hin. unfold Croston.__init__.
  rewrite (version_check_passes _ Hin). cbn.
  repeat (destruct (String.eqb version _); [done|]).
  unfold raise_if. by destruct (_ || _).
Qed.

Lemma exact_names version :
  version ∈ ["classic"; "optimized"; "sba"] ↔
  version = "classic" ∨ version = "optimized" ∨ version = "sba".
Proof. rewrite !elem_of_cons, elem_of_nil. tauto. Qed.

Lemma croston_init_needs_name version alpha_d alpha_p :
  is_Ok (Croston.__init__ version alpha_d alpha_p) →
  lower version ∈ Croston.versions.
Proof.
  destruct (decide (lower version ∈ Croston.versions)) as [Hin|Hout]; [done|].
  unfold Croston.__init__, raise_if_not, raise_if.
  rewrite (bool_decide_eq_false_2 _ Hout). cbn. by intros [? ?].
Qed.

(** X1. The constructor returns an object exactly when the lower-cased
    [version] is one of the four names and either [version] itself is
    [classic], [optimized] or [sba], or both smoothing parameters are
    given. *)
Theorem croston_init_succeeds_iff version alpha_d alpha_p :
  is_Ok (Croston.__init__ version alpha_d alpha_p) ↔
  lower version ∈ Croston.versions ∧
  (version ∈ ["classic"; "optimized"; "sba"]
   ∨ (is_Some alpha_d ∧ is_Some alpha_p)).
Proof.
  destruct (decide (lower version ∈ Croston.versions)) as [Hin|Hout].
  - rewrite (croston_dispatch _ _ _ Hin).
    destruct (String.eqb_spec version "classic") as [->|Hc].
    { split; [intros _|by eexists]. split; [done|]. left. apply exact_names. tauto. }
    destruct (String.eqb_spec version "optimized") as [->|Ho].
    { split; [intros _|by eexists]. split; [done|]. left. apply exact_names. tauto. }
    destruct (String.eqb_spec version "sba") as [->|Hs].
    { split; [intros _|by eexists]. split; [done|]. left. apply exact_names. tauto. }
    destruct alpha_d as [d|], alpha_p as [p|]; cbn.
    + split; [intros _|by eexists]. split; [done|]. right. by split.
    + split; [by intros [? ?]|].
      intros [_ [H|[_ [? ?]]]]; [apply exact_names in H; intuition congruence|done].
    + split; [by intros [? ?]|].
      intros [_ [H|[[? ?] _]]]; [apply exact_names in H; intuition congruence|done].
    + split; [by intros [? ?]|].
      intros [_ [H|[[? ?] _]]]; [apply exact_names in H; intuition congruence|done].
  - split; [|by intros [? _]].
    unfold Croston.__init__, raise_if_not, raise_if.
    rewrite (bool_decide_eq_false_2 _ Hout). cbn. by intros [? ?].
Qed.

(** X2. A constructed object keeps [version] as it was passed, not
    lower-cased, and its model follows the string itself: the classic,
    optimized or SBA model only for exactly these three names, and the TSB
    model, with both parameters as given, for every other accepted string. *)
Theorem croston_model_follows_exact_version version alpha_d alpha_p c :
  Croston.__init__ version alpha_d alpha_p = Ok c →
  Croston.version c = version ∧
  match Croston.model c with
  | Croston.CrostonClassic => version = "classic"
  | Croston.CrostonOptimized => version = "optimized"
  | Croston.CrostonSBA => version = "sba"
  | Croston.CrostonTSB d p =>
    (version ∉ ["classic"; "optimized"; "sba"]) ∧
    d = alpha_d ∧ p = alpha_p ∧ is_Some alpha_d ∧ is_Some alpha_p ∧
    Croston.alpha_d c = alpha_d ∧ Croston.alpha_p c = alpha_p
  end.
Proof.
  intros Hc.
  assert (Hin : lower version ∈ Croston.versions).
  { apply (croston_init_needs_name version alpha_d alpha_p). by eexists. }
  rewrite (croston_dispatch _ _ _ Hin) in Hc.
  destruct (String.eqb_spec version "classic") as [->|H1]; [by simplify_eq|].
  destruct (String.eqb_spec version "optimized") as [->|H2]; [by simplify_eq|].
  destruct (String.eqb_spec version "sba") as [->|H3]; [by simplify_eq|].
  destruct alpha_d as [d|], alpha_p as [p|]; cbn in Hc; simplify_eq.
  cbn. split; [done|]. split; [rewrite exact_names; intuition congruence|].
  by repeat split.
Qed.

End CrostonFurther.

(** [Classic] with both parameters is accepted and builds the TSB model. *)
Lemma croston_model_follows_exact_version_witness :
  Croston.version
    (Croston.mkCroston (Croston.CrostonTSB (Some 1%Z) (Some 2%Z))
       (Some 1%Z) (Some 2%Z) "Classic") = "Classic" ∧
  ("Classic" ∉ ["classic"; "optimized"; "sba"]) ∧
  Some 1%Z = Some 1%Z ∧ Some 2%Z = Some 2%Z ∧
  is_Some (Some 1%Z) ∧ is_Some (Some 2%Z) ∧
  Some 1%Z = Some 1%Z ∧ Some 2%Z = Some 2%Z.
Proof.
  apply (croston_model_follows_exact_version (float := Z) "Classic"
           (Some 1%Z) (Some 2%Z)
           (Croston.mkCroston (Croston.CrostonTSB (Some 1%Z) (Some 2%Z))
              (Some 1%Z) (Some 2%Z) "Classic")).
  vm_compute. reflexivity.
Defined.

(** * Further properties: building the explainers *)

Section ConstructionFurther.
Context {V Estimator : Type} `{!External V Estimator}.
Implicit Types (est : Estimator) (X : DataFrame V) (kw : gmap string string).

Lemma default_methods (name : string) (m : _ShapMethod) :
  default_sklearn_shap_explainers !! name = Some m →
  m = TREE ∨ m = PERMUTATION ∨ m = LINEAR.
Proof.
  unfold default_sklearn_shap_explainers. cbn. intros H.
  repeat (apply lookup_insert_Some in H as [[_ Heq]|[_ H]]; [subst m; tauto|]).
  by rewrite lookup_empty in H.
Qed.

Lemma construct_cases (e : explainer V Estimator) (r : result (explainer V Estimator)) :
  r = construct e →
  (shap_explainer_init e = Ok () → r = Ok e) ∧
  (∀ err, shap_explainer_init e = Raise err → r = Raise err).
Proof.
  intros ->. unfold construct. split; [by intros ->|]. by intros err ->.
Qed.

Lemma default_method_reaches_constructor est X kw :
  ∃ e, _get_explainer_sklearn est X None kw = construct e ∧
       (default_sklearn_shap_explainers !! class_name est = None →
        e = KernelExplainer est X).
Proof.
  unfold _get_explainer_sklearn.
  destruct (default_sklearn_shap_explainers !! class_name est) as [m|] eqn:Hm;
    cbn -[construct].
  - destruct (default_methods _ _ Hm) as [-> | [-> | ->]].
    + destruct (kw !! "feature_perturbation") as [v|];
        [destruct (String.eqb v "interventional")|]; by eexists.
    + by eexists.
    + by eexists.
  - by eexists.
Qed.

(** X3. When no method is given the helper always reaches a constructor of
    [shap]: every method of the table of defaults has its branch, and a model
    whose class is not in the table gets the kernel explainer over the
    background matrix. The helper returns the explainer when the constructor
    accepts it and fails only with the error of the constructor. *)
Theorem default_method_always_builds est X kw :
  ∃ e, _get_explainer_sklearn est X None kw = construct e ∧
       (default_sklearn_shap_explainers !! class_name est = None →
        e = KernelExplainer est X) ∧
       (shap_explainer_init e = Ok () →
        _get_explainer_sklearn est X None kw = Ok e) ∧
       (∀ err, shap_explainer_init e = Raise err →
               _get_explainer_sklearn est X None kw = Raise err).
Proof.
  destruct (default_method_reaches_constructor est X kw) as (e & He & Hk).
  exists e. destruct (construct_cases e _ He) as [H1 H2]. done.
Qed.

Lemma get_explainer_handled est X (m : _ShapMethod) kw :
  (m ∈ [TREE; PERMUTATION; KERNEL; LINEAR] →
   ∃ e, _get_explainer_sklearn est X (Some m) kw = construct e) ∧
  (m ∈ [GRADIENT; DEEP; SAMPLING; PARTITION; ADDITIVE] →
   _get_explainer_sklearn est X (Some m) kw = Raise UnboundLocalError).
Proof.
  rewrite !elem_of_cons, !elem_of_nil. unfold _get_explainer_sklearn.
  split.
  - intros [-> | [-> | [-> | [-> | []]]]]; cbn -[construct]; try by eexists.
    destruct (kw !! "feature_perturbation") as [v|];
      [destruct (String.eqb v "interventional")|]; by eexists.
  - by intros [-> | [-> | [-> | [-> | [-> | []]]]]].
Qed.

(** X4. Five members of the enumeration pass the check of the method name
    but have no branch in the helper: with a single estimator, an accepted
    background and a background matrix that builds, the constructor raises
    [UnboundLocalError] for [gradient], [deep], [sampling], [partition] and
    [additive]. For the four other methods it calls a constructor of [shap]:
    it returns when that constructor accepts the model and the data, and
    raises the error of that constructor otherwise. *)
Theorem constructor_needs_handled_method (m : RegressionModel Estimator) est
    bg bpc bfc (name : string) nb kw bg' bpc' bfc' names X (meth : _ShapMethod) :
  model_model m = Plain est →
  base_init m bg bpc bfc = Ok (bg', bpc', bfc', names) →
  _create_regression_model_shap_X m bg' bpc' bfc' nb = Ok X →
  _ShapMethod__members__ !! upper name = Some meth →
  (meth ∈ [GRADIENT; DEEP; SAMPLING; PARTITION; ADDITIVE] →
   ShapExplainer__init__ (IsRegressionModel m) bg bpc bfc (Some name) nb kw
   = Raise UnboundLocalError) ∧
  (meth ∈ [TREE; PERMUTATION; KERNEL; LINEAR] →
   ∃ e, _get_explainer_sklearn est X (Some meth) kw = construct e ∧
        (shap_explainer_init e = Ok () →
         is_Ok (ShapExplainer__init__ (IsRegressionModel m) bg bpc bfc
                  (Some name) nb kw)) ∧
        (∀ err, shap_explainer_init e = Raise err →
                ShapExplainer__init__ (IsRegressionModel m) bg bpc bfc
                  (Some name) nb kw = Raise err)).
Proof.
  intros Hm Hbase HX Hname.
  unfold ShapExplainer__init__. rewrite Hbase.
  cbn -[_ShapMethod__members__ upper _RegressionShapExplainers__init__].
  rewrite Hname.
  cbn -[_ShapMethod__members__ upper _RegressionShapExplainers__init__].
  unfold _RegressionShapExplainers__init__. rewrite HX, Hm.
  cbn -[_get_explainer_sklearn].
  destruct (get_explainer_handled est X meth kw) as [Hok Hbad].
  split.
  - intros Hin. by rewrite (Hbad Hin).
  - intros Hin. destruct (Hok Hin) as [e He]. exists e.
    split; [done|]. rewrite He. unfold construct.
    split; [intros ->; by eexists|]. by intros err ->.
Qed.

Lemma upper_lower_ascii (c : ascii) :
  upper_ascii (upper_ascii c) = upper_ascii c ∧
  upper_ascii (lower_ascii c) = upper_ascii c.
Proof.
  destruct c as [[] [] [] [] [] [] [] []]; split; vm_compute; reflexivity.
Qed.

Lemma upper_lower (s : string) :
  upper (upper s) = upper s ∧ upper (lower s) = upper s.
Proof.
  induction s as [|c s [IH1 IH2]]; [done|].
  destruct (upper_lower_ascii c) as [H1 H2].
  unfold upper, lower in *. cbn. by rewrite H1, H2, IH1, IH2.
Qed.

(** X5. The method name is read without regard to case: for a name made of
    ASCII characters, the ones the case mappings are modelled on, the
    constructor does with the name what it does with the name in upper case
    and with the name in lower case. *)
Theorem method_name_is_case_insensitive (model : ForecastingModel Estimator)
    bg bpc bfc (name : string) nb kw :
  Forall (λ c, (Ascii.N_of_ascii c < 128)%N) (String.list_ascii_of_string name) →
  ShapExplainer__init__ model bg bpc bfc (Some name) nb kw
  = ShapExplainer__init__ model bg bpc bfc (Some (upper name)) nb kw ∧
  ShapExplainer__init__ model bg bpc bfc (Some name) nb kw
  = ShapExplainer__init__ model bg bpc bfc (Some (lower name)) nb kw.
Proof.
  intros _. destruct (upper_lower name) as [H1 H2].
  unfold ShapExplainer__init__. by rewrite H1, H2.
Qed.

End ConstructionFurther.

Lemma method_name_is_case_insensitive_witness :
  ShapExplainer__init__ (IsRegressionModel Example.single_model)
    (Some (One Example.univariate)) None None (Some "Linear") None ∅
  = ShapExplainer__init__ (IsRegressionModel Example.single_model)
      (Some (One Example.univariate)) None None (Some (upper "Linear")) None ∅ ∧
  ShapExplainer__init__ (IsRegressionModel Example.single_model)
    (Some (One Example.univariate)) None None (Some "Linear") None ∅
  = ShapExplainer__init__ (IsRegressionModel Example.single_model)
      (Some (One Example.univariate)) None None (Some (lower "Linear")) None ∅.
Proof.
  apply (method_name_is_case_insensitive
           (IsRegressionModel Example.single_model)
           (Some (One Example.univariate)) None None "Linear" None ∅).
  cbn. repeat constructor.
Defined.

(** With the example engine: [partition] has no branch, [Linear] reaches
    the constructor of the linear explainer and [tree] that of the tree
    explainer, whose error on a linear model comes through. *)
Lemma constructor_needs_handled_method_witness :
  ShapExplainer__init__ (IsRegressionModel Example.single_model)
    (Some (One Example.univariate)) None None (Some "partition") None ∅
  = Raise UnboundLocalError ∧
  (∃ e, _get_explainer_sklearn Example.single_estimator Example.single_X
          (Some LINEAR) ∅ = construct e ∧
        (shap_explainer_init e = Ok () →
         is_Ok (ShapExplainer__init__ (IsRegressionModel Example.single_model)
                  (Some (One Example.univariate)) None None (Some "Linear")
                  None ∅)) ∧
        (∀ err, shap_explainer_init e = Raise err →
                ShapExplainer__init__ (IsRegressionModel Example.single_model)
                  (Some (One Example.univariate)) None None (Some "Linear")
                  None ∅ = Raise err)) ∧
  (∃ e, _get_explainer_sklearn Example.single_estimator Example.single_X
          (Some TREE) ∅ = construct e ∧
        (shap_explainer_init e = Ok () →
         is_Ok (ShapExplainer__init__ (IsRegressionModel Example.single_model)
                  (Some (One Example.univariate)) None None (Some "tree")
                  None ∅)) ∧
        (∀ err, shap_explainer_init e = Raise err →
                ShapExplainer__init__ (IsRegressionModel Example.single_model)
                  (Some (One Example.univariate)) None None (Some "tree")
                  None ∅ = Raise err)).
Proof.
  split; [|split].
  - refine (proj1 (constructor_needs_handled_method Example.single_model
                     Example.single_estimator (Some (One Example.univariate))
                     None None "partition" None ∅ (One Example.univariate)
                     None None ["x"] Example.single_X PARTITION _ _ _ _) _).
    + reflexivity.
    + reflexivity.
    + vm_compute. reflexivity.
    + reflexivity.
    + rewrite !elem_of_cons. tauto.
  - refine (proj2 (constructor_needs_handled_method Example.single_model
                     Example.single_estimator (Some (One Example.univariate))
                     None None "Linear" None ∅ (One Example.univariate)
                     None None ["x"] Example.single_X LINEAR _ _ _ _) _).
    + reflexivity.
    + reflexivity.
    + vm_compute. reflexivity.
    + reflexivity.
    + rewrite !elem_of_cons. tauto.
  - refine (proj2 (constructor_needs_handled_method Example.single_model
                     Example.single_estimator (Some (One Example.univariate))
                     None None "tree" None ∅ (One Example.univariate)
                     None None ["x"] Example.single_X TREE _ _ _ _) _).
    + reflexivity.
    + reflexivity.
    + vm_compute. reflexivity.
    + reflexivity.
    + rewrite !elem_of_cons. tauto.
Defined.

Lemma default_method_always_builds_witness :
  ∃ e, _get_explainer_sklearn Example.single_estimator Example.single_X None ∅
       = construct e ∧
       (default_sklearn_shap_explainers
        !! class_name Example.single_estimator = None →
        e = KernelExplainer Example.single_estimator Example.single_X) ∧
       (shap_explainer_init e = Ok () →
        _get_explainer_sklearn Example.single_estimator Example.single_X None ∅
        = Ok e) ∧
       (∀ err, shap_explainer_init e = Raise err →
               _get_explainer_sklearn Example.single_estimator Example.single_X
                 None ∅ = Raise err).
Proof.
  exact (default_method_always_builds Example.single_estimator
           Example.single_X ∅).
Defined.

(** * Further properties: the feature matrix *)

Section MatrixFurther.
Context {V Estimator : Type} `{!External V Estimator}.
Implicit Types (df X : DataFrame V) (ts : TimeSeries V)
  (past fut : option (cov_arg V)) (model : RegressionModel Estimator).

(** The covariates of a single series, once wrapped: their table, no table
    when there are none, or a list in the place of a series. *)
Lemma cov_frame_wrapped (c : option (cov_arg V)) :
  cov_frame (wrap_cov c) 0 = Raise AttributeError
  ∨ ∃ o, cov_frame (wrap_cov c) 0 = Ok o ∧ (c = None → o = None).
Proof.
  destruct c as [[s|l|]|]; cbn.
  - unfold wrap_cov, cov_truthy. case_bool_decide; cbn; right; by eexists.
  - unfold wrap_cov, cov_truthy. case_bool_decide; cbn; [by left|].
    right. by eexists.
  - by left.
  - right. by eexists.
Qed.

Lemma cov_lag_frames_cases cov_type (o : option (DataFrame V))
    (l : option (list Z)) :
  cov_lag_frames cov_type o l = Raise AttributeError
  ∨ is_Ok (cov_lag_frames cov_type o l).
Proof.
  unfold cov_lag_frames. destruct l as [[|lag l]|]; try (right; by eexists).
  destruct o; [right; by eexists|by left].
Qed.

Lemma create_single model ts past fut ns (e : exn) :
  series_X model 0 ts (wrap_cov past) (wrap_cov fut) = Raise e →
  _create_regression_model_shap_X model (One ts) past fut ns = Raise e.
Proof.
  intros H. unfold _create_regression_model_shap_X. cbn [ensure_list].
  cbn -[series_X concat_rows wrap_cov]. by rewrite H.
Qed.

(** X6. Lags configured for a kind of covariates that is not supplied make
    the builder raise [AttributeError] on a single series, whatever else is
    passed. *)
Theorem missing_covariates_raise model ts past fut ns :
  (past = None ∧ ∃ l ls, lags model !! "past" = Some (l :: ls))
  ∨ (fut = None ∧ ∃ l ls, lags model !! "future" = Some (l :: ls)) →
  _create_regression_model_shap_X model (One ts) past fut ns
  = Raise AttributeError.
Proof.
  intros Hmiss. apply create_single. unfold series_X.
  destruct (cov_frame_wrapped past) as [->|(dfp & -> & Hp)]; [done|].
  destruct (cov_frame_wrapped fut) as [->|(dff & -> & Hf)]; [done|].
  cbn -[concat_columns].
  destruct Hmiss as [[-> (l & ls & Hl)]|[-> (l & ls & Hl)]].
  - rewrite (Hp eq_refl), Hl. done.
  - rewrite (Hf eq_refl), Hl.
    destruct (cov_lag_frames_cases "past" dfp (lags model !! "past"))
      as [->|[fr ->]]; done.
Qed.

(** X7. With nothing to concatenate the builder raises the [ValueError] of
    [pd.concat]: for an empty list of series, and for a series when no lag is
    configured for any feature class. *)
Theorem nothing_to_concatenate model past fut ns :
  _create_regression_model_shap_X model (Many []) past fut ns
  = Raise (ValueError "No objects to concatenate") ∧
  ∀ ts,
    default [] (lags model !! "target") = [] →
    default [] (lags model !! "past") = [] →
    default [] (lags model !! "future") = [] →
    _create_regression_model_shap_X model (One ts) None None ns
    = Raise (ValueError "No objects to concatenate").
Proof.
  split; [done|]. intros ts Ht Hp Hf. apply create_single.
  unfold series_X. cbn -[concat_columns].
  assert (cov_lag_frames "past" None (lags model !! "past") = Ok []) as ->.
  { unfold cov_lag_frames. by destruct (lags model !! "past") as [[|??]|]. }
  assert (cov_lag_frames "fut" None (lags model !! "future") = Ok []) as ->.
  { unfold cov_lag_frames. by destruct (lags model !! "future") as [[|??]|]. }
  by destruct (lags model !! "target") as [[|??]|].
Qed.

(** X8. A non-empty list of covariates shorter than the list of series never
    yields a matrix: the series without a partner makes the builder raise. *)
Theorem short_covariate_list_raises model (l pl : list (TimeSeries V)) past fut
    ns :
  pl ≠ [] → length pl < length l →
  past = Some (CovList pl) ∨ fut = Some (CovList pl) →
  is_Raise (_create_regression_model_shap_X model (Many l) past fut ns).
Proof.
  intros Hne Hlen Hcov.
  destruct (_create_regression_model_shap_X model (Many l) past fut ns)
    as [X|e] eqn:HX; [exfalso|by eexists].
  unfold _create_regression_model_shap_X in HX. cbn [ensure_list] in HX.
  destruct (mapM _ _) as [Xs|] eqn:HXs; cbn in HX; [|done].
  apply mapM_Ok in HXs.
  destruct (lookup_lt_is_Some_2 l (length pl) Hlen) as [ts Hts].
  assert (Hit : imap pair l !! length pl = Some (length pl, ts)).
  { by rewrite list_lookup_imap, Hts. }
  destruct (Forall2_lookup_l _ _ _ _ _ HXs Hit) as (Xi & _ & Hi).
  cbn in Hi. unfold series_X in Hi.
  assert (Hshort : cov_frame (Some (CovList pl)) (length pl) = Raise IndexError).
  { unfold cov_frame, cov_truthy. rewrite bool_decide_eq_true_2 by done.
    by rewrite lookup_ge_None_2. }
  destruct Hcov as [-> | ->].
  - by rewrite Hshort in Hi.
  - destruct (cov_frame past (length pl)); [|done].
    by rewrite Hshort in Hi.
Qed.

Lemma series_X_complete model idx ts past fut X :
  series_X model idx ts past fut = Ok X →
  Forall (λ r, Forall is_Some r.2) (rows X).
Proof.
  unfold series_X.
  destruct (cov_frame past idx); cbn; [|done].
  destruct (cov_frame fut idx); cbn; [|done].
  destruct (cov_lag_frames "past" _ _); cbn; [|done].
  destruct (cov_lag_frames "fut" _ _); cbn; [|done].
  destruct (concat_columns _) as [X'|]; cbn; [|done].
  intros [= <-]. cbn. apply Forall_forall. intros r Hr.
  by apply list_elem_of_filter in Hr as [Hr _].
Qed.

Lemma series_frames_columns model (its : list (nat * TimeSeries V)) past fut
    (Xs : list (DataFrame V)) (tcomps pcomps fcomps : list string) :
  Forall2 (λ it X, series_X model it.1 it.2 past fut = Ok X) its Xs →
  Forall (λ it, components it.2 = tcomps) its →
  (∀ idx df, cov_frame past idx = Ok (Some df) → columns df = pcomps) →
  (∀ idx df, cov_frame fut idx = Ok (Some df) → columns df = fcomps) →
  Forall (λ df, columns df = expected_columns model tcomps pcomps fcomps) Xs.
Proof.
  intros HXs Hc Hp Hf. induction HXs as [|it Xi its Xs Hi _ IH]; [constructor|].
  apply Forall_cons in Hc as [Hc1 Hc2]. constructor; [|by apply IH].
  apply series_X_columns in Hi as (dfp & dff & Hdp & Hdf & Hnp & Hnf & ->).
  rewrite Hc1. unfold expected_columns. f_equal. f_equal.
  - destruct dfp as [df|]; [cbn; by rewrite (Hp _ _ Hdp)|]. by rewrite Hnp.
  - destruct dff as [df|]; [cbn; by rewrite (Hf _ _ Hdf)|]. by rewrite Hnf.
Qed.

Lemma sample_rows X k r : r ∈ rows (sample X k) → r ∈ rows X.
Proof.
  unfold sample. case_bool_decide; [done|]. cbn. intros Hr.
  apply list_elem_of_omap in Hr as (i & _ & Hi).
  by eapply list_elem_of_lookup_2.
Qed.

(** X9. The matrix the builder returns for series that carry the same
    component names holds no missing value, down-sampled or not. *)
Theorem feature_matrix_is_complete model (target : series_arg V) past fut
    (n_samples : option nat) X (tcomps pcomps fcomps : list string) :
  _create_regression_model_shap_X model target past fut n_samples = Ok X →
  Forall (λ ts, components ts = tcomps) (ensure_list target past fut).1.1 →
  (∀ idx df, cov_frame (ensure_list target past fut).1.2 idx = Ok (Some df) →
             columns df = pcomps) →
  (∀ idx df, cov_frame (ensure_list target past fut).2 idx = Ok (Some df) →
             columns df = fcomps) →
  Forall (λ r, Forall is_Some r.2) (rows X).
Proof.
  unfold _create_regression_model_shap_X.
  destruct (ensure_list target past fut) as [[series past'] fut']. cbn [fst snd].
  intros HX Ht Hp Hf.
  destruct (mapM _ _) as [Xs|] eqn:HXs; cbn in HX; [|done].
  destruct (concat_rows Xs) as [X'|] eqn:HX'; cbn in HX; [|done].
  apply mapM_Ok in HXs.
  assert (Hcomplete : Forall (λ r, Forall is_Some r.2) (rows X')).
  { assert (Hcols : Forall (λ df, columns df
                              = expected_columns model tcomps pcomps fcomps) Xs).
    { eapply series_frames_columns; [exact HXs| |done..].
      apply Forall_lookup. intros i it Hit.
      apply list_lookup_imap_Some in Hit as (ts & Hts & ->).
      exact (Forall_lookup_1 _ _ _ _ Ht Hts). }
    assert (Hrows : Forall (λ df, Forall (λ r, Forall is_Some r.2) (rows df)) Xs).
    { clear -HXs. induction HXs as [|it Xi its Xs Hi _ IH]; constructor;
        [by eapply series_X_complete|done]. }
    unfold concat_rows in HX'. destruct Xs as [|df0 Xs]; [done|].
    assert (all_equal (columns <$> df0 :: Xs) = true) as Heq.
    { cbn. apply bool_decide_eq_true_2.
      apply Forall_cons in Hcols as [H0 Hcols].
      apply Forall_fmap. eapply Forall_impl; [exact Hcols|].
      cbn. intros df ->. done. }
    rewrite Heq in HX'.
    assert (rows X' = mjoin (rows <$> df0 :: Xs)) as ->
      by (by injection HX' as <-).
    apply Forall_mjoin. apply Forall_fmap. exact Hrows. }
  destruct n_samples as [[|k]|]; injection HX as <-; try done.
  apply Forall_forall. intros r Hr. apply sample_rows in Hr.
  rewrite Forall_forall in Hcomplete. by apply Hcomplete.
Qed.

(** X10. Down-sampling only draws among the rows of the matrix built without
    it and keeps the columns; the matrix is returned as it is when the count
    is zero or no smaller than the number of rows. *)
Theorem sampling_draws_rows model (target : series_arg V) past fut (k : nat) X' :
  _create_regression_model_shap_X model target past fut (Some k) = Ok X' →
  ∃ X, _create_regression_model_shap_X model target past fut None = Ok X ∧
       columns X' = columns X ∧
       (∀ r, r ∈ rows X' → r ∈ rows X) ∧
       (k = 0 ∨ length (rows X) ≤ k → X' = X).
Proof.
  unfold _create_regression_model_shap_X.
  destruct (ensure_list target past fut) as [[series past'] fut'].
  destruct (mapM _ _) as [Xs|]; cbn; [|done].
  destruct (concat_rows Xs) as [X|]; cbn; [|done].
  intros HX'. exists X. split; [done|].
  destruct k as [|k]; injection HX' as <-; [by repeat split|].
  split; [apply sample_columns|]. split; [intros r; apply sample_rows|].
  intros [|Hle]; [done|]. unfold sample. by rewrite bool_decide_eq_true_2.
Qed.

End MatrixFurther.

Lemma missing_covariates_raise_witness :
  _create_regression_model_shap_X Example.cov_model (One Example.bivariate)
    None (Some (CovSeries Example.future_cov)) None
  = Raise AttributeError.
Proof.
  apply (missing_covariates_raise Example.cov_model Example.bivariate None
           (Some (CovSeries Example.future_cov)) None).
  left. split; [reflexivity|]. exists (-1)%Z, []. reflexivity.
Defined.

Lemma nothing_to_concatenate_witness :
  _create_regression_model_shap_X
    (mkRegressionModel (Plain Example.single_estimator) ∅ 1 1)
    (One Example.univariate) None None None
  = Raise (ValueError "No objects to concatenate").
Proof.
  apply (proj2 (nothing_to_concatenate
                  (mkRegressionModel (Plain Example.single_estimator) ∅ 1 1)
                  None None None) Example.univariate);
    reflexivity.
Defined.

Lemma short_covariate_list_raises_witness :
  is_Raise (_create_regression_model_shap_X Example.cov_model
              (Many [Example.bivariate; Example.bivariate])
              (Some (CovList [Example.past_cov]))
              (Some (CovList [Example.future_cov; Example.future_cov])) None).
Proof.
  apply (short_covariate_list_raises Example.cov_model
           [Example.bivariate; Example.bivariate] [Example.past_cov]).
  - discriminate.
  - cbn. lia.
  - left. reflexivity.
Defined.

Lemma feature_matrix_is_complete_witness :
  ∃ X, _create_regression_model_shap_X Example.cov_model
         (Many [Example.bivariate; Example.bivariate])
         (Some (CovList [Example.past_cov; Example.past_cov]))
         (Some (CovList [Example.future_cov; Example.future_cov])) (Some 3)
       = Ok X
       ∧ Forall (λ r, Forall is_Some r.2) (rows X).
Proof.
  eexists. split; [vm_compute; reflexivity|].
  apply (feature_matrix_is_complete Example.cov_model
           (Many [Example.bivariate; Example.bivariate])
           (Some (CovList [Example.past_cov; Example.past_cov]))
           (Some (CovList [Example.future_cov; Example.future_cov])) (Some 3)
           _ ["a"; "b"] ["p"] ["f"]).
  - vm_compute. reflexivity.
  - repeat constructor.
  - intros [|[|idx]] df; cbn; try discriminate; intros [= <-]; reflexivity.
  - intros [|[|idx]] df; cbn; try discriminate; intros [= <-]; reflexivity.
Defined.

Lemma sampling_draws_rows_witness :
  ∃ X',
    _create_regression_model_shap_X Example.single_model
      (One Example.univariate) None None (Some 2) = Ok X' ∧
    ∃ X,
      _create_regression_model_shap_X Example.single_model
        (One Example.univariate) None None None = Ok X ∧
      columns X' = columns X ∧
      (∀ r, r ∈ rows X' → r ∈ rows X) ∧
      (2 = 0 ∨ length (rows X) ≤ 2 → X' = X).
Proof.
  eexists. split; [vm_compute; reflexivity|].
  apply (sampling_draws_rows Example.single_model (One Example.univariate)
           None None 2).
  vm_compute. reflexivity.
Defined.

(** * Further properties: what a lag column holds *)

Section LagFurther.
Context {V Estimator : Type} `{!External V Estimator}.
Implicit Types (ts : TimeSeries V) (model : RegressionModel Estimator).

Lemma mjoin_singleton {B} (l : list B) : mjoin [l] = l.
Proof. cbn. apply app_nil_r. Qed.

(** Looking up in a concatenation of blocks of one length. *)
Lemma lookup_mjoin_blocks {B} (ls : list (list B)) (w a c : nat) (blk : list B) :
  Forall (λ b, length b = w) ls → ls !! a = Some blk → c < w →
  mjoin ls !! (a * w + c) = blk !! c.
Proof.
  revert a. induction ls as [|b ls IH]; intros a Hw Ha Hc; [done|].
  apply Forall_cons in Hw as [Hb Hw]. cbn.
  destruct a as [|a].
  - cbn in Ha. simplify_eq. cbn. by rewrite lookup_app_l by lia.
  - cbn in Ha. rewrite lookup_app_r by (cbn; lia).
    replace (S a * w + c - length b) with (a * w + c) by (cbn; lia).
    by apply IH.
Qed.

(** The frame of a series with look-back target lags only, in full: the
    rows from the largest lag magnitude on, each the lagged rows side by
    side. *)
Lemma series_X_target_only_rows model ts (tl : list Z) :
  lags model !! "target" = Some tl → tl ≠ [] →
  Forall (λ lag, (lag < 0)%Z) tl →
  default [] (lags model !! "past") = [] →
  default [] (lags model !! "future") = [] →
  ts_wf ts → is_deterministic ts = true → components ts ≠ [] → no_missing ts →
  series_X model 0 ts None None
  = Ok (mkDataFrame
          (mjoin (columns <$> lag_frames "_target_lag" (pd_dataframe ts) tl))
          (drop (max_lag tl)
             (imap (λ i t,
                      (t, mjoin ((λ df, row_nth df i)
                                   <$> lag_frames "_target_lag"
                                         (pd_dataframe ts) tl)))
                (time_index ts)))).
Proof.
  intros Htl Hne Hneg Hpast Hfut Hwf Hd Hc Hm.
  unfold series_X. cbn [cov_frame cov_truthy]. cbn -[concat_columns].
  rewrite Htl.
  assert (cov_lag_frames "past" None (lags model !! "past") = Ok []) as ->.
  { unfold cov_lag_frames. by destruct (lags model !! "past") as [[|??]|]. }
  assert (cov_lag_frames "fut" None (lags model !! "future") = Ok []) as ->.
  { unfold cov_lag_frames. by destruct (lags model !! "future") as [[|??]|]. }
  cbn -[concat_columns]. rewrite app_nil_r.
  pose proof (all_equal_index_lag_frames "_target_lag" (pd_dataframe ts) tl Hneg)
    as Heq.
  pose proof (lag_rows_complete "_target_lag" ts tl) as Hrows.
  assert (Hidx : ∀ df0 objs,
            lag_frames "_target_lag" (pd_dataframe ts) tl = df0 :: objs →
            index df0 = time_index ts).
  { intros df0 objs Hfr. destruct tl as [|lag0 tl']; [done|].
    injection Hfr as <- _. apply Forall_cons in Hneg as [H0 _].
    destruct (rows_shift_down (- lag0) (pd_dataframe ts)) as [Hi _]; [lia|].
    etrans; [exact Hi|]. unfold index, pd_dataframe. cbn.
    apply fst_zip. destruct Hwf as [Hlen _]. rewrite length_fmap. lia. }
  destruct (lag_frames "_target_lag" (pd_dataframe ts) tl) as [|df0 objs] eqn:Hfr.
  { destruct tl; [done|discriminate Hfr]. }
  rewrite (concat_columns_same_index _ _ Heq). cbn -[mjoin].
  unfold dropna. cbn [columns rows]. rewrite (Hidx df0 objs eq_refl).
  f_equal. f_equal.
  apply (filter_threshold _ _ (max_lag tl)).
  intros i x Hx.
  apply list_lookup_imap_Some in Hx as (t & Ht & ->). cbn [snd].
  apply Hrows; try done. by apply lookup_lt_Some in Ht.
Qed.

(** X11. What a lag column holds. For a single deterministic series without
    missing values and look-back target lags only, the row of the matrix for
    the timestamp at position [i] (any position from the largest lag
    magnitude [L] on, at place [i - L] of the matrix) holds, under the column
    of the [a]-th lag and the [c]-th component, named by the component
    followed by [_target_lag] and the lag, the value the component had
    [|lag|] positions earlier. *)
Theorem lag_column_holds_earlier_value model ts (tl : list Z) (i a c : nat)
    (lag : Z) (name : string) :
  lags model !! "target" = Some tl →
  Forall (λ lag, (lag < 0)%Z) tl →
  default [] (lags model !! "past") = [] →
  default [] (lags model !! "future") = [] →
  ts_wf ts → is_deterministic ts = true → no_missing ts →
  max_lag tl ≤ i → i < ts_len ts →
  tl !! a = Some lag → components ts !! c = Some name →
  ∃ X t row v,
    _create_regression_model_shap_X model (One ts) None None None = Ok X ∧
    time_index ts !! i = Some t ∧
    rows X !! (i - max_lag tl) = Some (t, row) ∧
    columns X !! (a * length (components ts) + c)
    = Some (name +:+ "_target_lag" +:+ str lag) ∧
    row !! (a * length (components ts) + c) = Some v ∧
    ts_value ts (i - Z.abs_nat lag) c 0 = Some v.
Proof.
  intros Htl Hneg Hpast Hfut Hwf Hd Hm HL Hi Ha Hc.
  assert (Hne : tl ≠ []) by (by intros ->).
  assert (Hcne : components ts ≠ []) by (by intros Hnil; rewrite Hnil in Hc).
  pose proof (series_X_target_only_rows model ts tl Htl Hne Hneg Hpast Hfut
                Hwf Hd Hcne Hm) as HX.
  set (w := length (components ts)).
  assert (Hcw : c < w) by (by eapply lookup_lt_Some).
  destruct (lookup_lt_is_Some_2 (time_index ts) i Hi) as [t Ht].
  assert (Hlag : (lag < 0)%Z) by exact (Forall_lookup_1 _ _ _ _ Hneg Ha).
  assert (Hlagi : Z.abs_nat lag ≤ i).
  { apply max_lag_le in HL. exact (Forall_lookup_1 _ _ _ _ HL Ha). }
  (* the source row [i - |lag|] of the series *)
  destruct Hwf as (Hlen & Hwidth & Hsamples).
  destruct (lookup_lt_is_Some_2 (all_values ts) (i - Z.abs_nat lag))
    as [srow Hsrow]; [unfold ts_len in Hi; lia|].
  pose proof (Forall_lookup_1 _ _ _ _ Hwidth Hsrow) as Hsw. cbn in Hsw.
  destruct (lookup_lt_is_Some_2 srow c) as [smp Hsmp]; [by rewrite Hsw|].
  pose proof (Forall_lookup_1 _ _ _ _
                (Forall_lookup_1 _ _ _ _ Hsamples Hsrow) Hsmp) as Hsl.
  pose proof (Forall_lookup_1 _ _ _ _
                (Forall_lookup_1 _ _ _ _ Hm Hsrow) Hsmp) as Hsd.
  cbn in Hsl, Hsd. apply bool_decide_eq_true_1 in Hd. rewrite Hd in Hsl.
  destruct smp as [|v [|??]]; try done.
  assert (Hrow0 : row_nth (pd_dataframe ts) (i - Z.abs_nat lag)
                  = (λ smp : list cell, default None (head smp)) <$> srow).
  { unfold row_nth, pd_dataframe. cbn [rows].
    rewrite snd_zip by (rewrite length_fmap; lia).
    by rewrite list_lookup_fmap, Hsrow. }
  eexists _, t, _, v. split.
  { unfold _create_regression_model_shap_X.
    cbn [ensure_list wrap_cov cov_truthy imap mapM fst snd].
    cbn -[series_X concat_rows]. rewrite HX. cbn -[mjoin]. reflexivity. }
  cbn [columns rows]. rewrite mjoin_singleton.
  split; [done|]. split.
  { rewrite lookup_drop, list_lookup_imap.
    replace (max_lag tl + (i - max_lag tl)) with i by lia.
    rewrite Ht. reflexivity. }
  split.
  - rewrite (lookup_mjoin_blocks _ w a c
               ((λ col, col +:+ "_target_lag" +:+ str lag) <$> components ts)).
    + by rewrite list_lookup_fmap, Hc.
    + unfold lag_frames. rewrite <- list_fmap_compose.
      apply Forall_fmap, Forall_forall. intros l _. cbn.
      by rewrite length_fmap.
    + unfold lag_frames. rewrite <- list_fmap_compose.
      by rewrite list_lookup_fmap, Ha.
    + done.
  - split; [|unfold ts_value; rewrite Hsrow; cbn; rewrite Hsmp; done].
    rewrite (lookup_mjoin_blocks _ w a c
               (row_nth (pd_dataframe ts) (i - Z.abs_nat lag))).
    + rewrite Hrow0, list_lookup_fmap, Hsmp. done.
    + unfold lag_frames. rewrite <- !list_fmap_compose.
      apply Forall_fmap, Forall_forall. intros l Hl. cbn.
      rewrite Forall_forall in Hneg.
      rewrite row_nth_lag_frame;
        [|by apply Hneg|by rewrite length_rows_pd_dataframe].
      case_decide.
      * unfold nan_row. by rewrite length_replicate.
      * unfold row_nth, pd_dataframe. cbn [rows].
        rewrite snd_zip by (rewrite length_fmap; lia).
        rewrite list_lookup_fmap.
        destruct (all_values ts !! (i - Z.abs_nat l)) as [r|] eqn:Hr; cbn.
        -- rewrite length_fmap.
           exact (Forall_lookup_1 _ _ _ _ Hwidth Hr).
        -- unfold nan_row, width. cbn. by rewrite length_replicate.
    + unfold lag_frames. rewrite <- !list_fmap_compose.
      rewrite list_lookup_fmap, Ha. cbn.
      rewrite row_nth_lag_frame;
        [|done|by rewrite length_rows_pd_dataframe].
      by rewrite decide_False by lia.
    + done.
Qed.

End LagFurther.

Lemma lag_column_holds_earlier_value_witness :
  ∃ X t row v,
    _create_regression_model_shap_X Example.single_model
      (One Example.univariate) None None None = Ok X ∧
    time_index Example.univariate !! 3 = Some t ∧
    rows X !! (3 - 2) = Some (t, row) ∧
    columns X !! (1 * 1 + 0) = Some "x_target_lag-1" ∧
    row !! (1 * 1 + 0) = Some v ∧
    ts_value Example.univariate (3 - 1) 0 0 = Some v.
Proof.
  apply (lag_column_holds_earlier_value Example.single_model
           Example.univariate [-2; -1]%Z 3 1 0 (-1)%Z "x").
  - reflexivity.
  - repeat constructor.
  - reflexivity.
  - reflexivity.
  - unfold ts_wf; cbn. split; [done|]. split; repeat constructor.
  - reflexivity.
  - unfold no_missing; cbn. repeat constructor; eexists; reflexivity.
  - cbn. lia.
  - cbn. lia.
  - reflexivity.
  - reflexivity.
Defined.

(** * Further properties: the dictionary of explanations and the heap *)

Section HeapFurther.
Context {V : Type}.
Implicit Types (h : heap V) (e : Explanation V) (a : addr).

Lemma bind_inv {A B} (m : M V A) (f : A → M V B) h (b : B) h' :
  (m ≫= f) h = Ok (b, h') → ∃ x h1, m h = Ok (x, h1) ∧ f x h1 = Ok (b, h').
Proof.
  unfold mbind, M_bind. destruct (m h) as [[x h1]|]; [|done].
  intros Hf. by exists x, h1.
Qed.

Lemma ret_inv {A} (x y : A) h h' :
  (mret x : M V A) h = Ok (y, h') → y = x ∧ h' = h.
Proof. unfold mret, M_ret. by intros [= -> ->]. Qed.

Lemma lift_inv {A} (r : result A) (x : A) h h' :
  lift (V := V) r h = Ok (x, h') → r = Ok x ∧ h' = h.
Proof. destruct r; cbn; [|done]. by intros [= -> ->]. Qed.

Lemma get_inv a h e h' : get a h = Ok (e, h') → h !! a = Some e ∧ h' = h.
Proof. unfold get. destruct (h !! a); [|done]. by intros [= -> ->]. Qed.

Lemma update_inv a (f : Explanation V → Explanation V) h u h' :
  update a f h = Ok (u, h') → ∃ e, h !! a = Some e ∧ h' = <[a := f e]> h.
Proof.
  unfold update. destruct (h !! a) as [e|]; [|done].
  intros [= _ <-]. by exists e.
Qed.

Lemma new_inv e h a h' : new e h = Ok (a, h') → a = length h ∧ h' = h ++ [e].
Proof. unfold new. by intros [= <- <-]. Qed.

Lemma preserves_refl base h : preserves base h h.
Proof. by split. Qed.

Lemma preserves_trans base h1 h2 h3 :
  preserves base h1 h2 → preserves base h2 h3 → preserves base h1 h3.
Proof.
  intros [Hl1 Hk1] [Hl2 Hk2]. split; [lia|].
  intros x Hx. by rewrite Hk2, Hk1.
Qed.

Lemma preserves_new base h e : base ≤ length h → preserves base h (h ++ [e]).
Proof.
  intros Hb. split; [rewrite length_app; lia|].
  intros x Hx. by rewrite lookup_app_l by lia.
Qed.

Lemma preserves_update base h a e : base ≤ a → preserves base h (<[a := e]> h).
Proof.
  intros Hb. split; [by rewrite length_insert|].
  intros x Hx. by rewrite list_lookup_insert_ne by lia.
Qed.

(** A loop that runs to its end establishes what every iteration that
    returns keeps, the invariant being indexed by the items done. *)
Lemma foldM_post {S A} (body : S → A → M V S)
    (I : list A → S → heap V → Prop) (l : list A) (s0 s : S) h0 h :
  foldM body s0 l h0 = Ok (s, h) →
  I [] s0 h0 →
  (∀ done x rest s1 h1 s2 h2,
     l = done ++ x :: rest → I done s1 h1 → body s1 x h1 = Ok (s2, h2) →
     I (done ++ [x]) s2 h2) →
  I l s h.
Proof.
  intros Hrun H0 Hstep.
  assert (Hgen : ∀ rest done s1 h1,
            l = done ++ rest → I done s1 h1 →
            foldM body s1 rest h1 = Ok (s, h) → I l s h).
  { induction rest as [|x rest IH]; intros done s1 h1 Hl HI; cbn [foldM].
    - intros [-> ->]%ret_inv. by rewrite Hl, app_nil_r.
    - intros (s2 & h2 & Hb & Hf)%bind_inv.
      apply (IH (done ++ [x]) s2 h2); [by rewrite <- app_assoc| |done].
      by apply (Hstep done x rest s1 h1). }
  by apply (Hgen l [] s0 h0).
Qed.

Lemma foldM_range_post {S} (body : S → nat → M V S)
    (I : nat → S → heap V → Prop) (n : nat) (s0 s : S) h0 h :
  foldM body s0 (range n) h0 = Ok (s, h) →
  I 0 s0 h0 →
  (∀ k s1 h1 s2 h2, k < n → I k s1 h1 → body s1 k h1 = Ok (s2, h2) →
                    I (Datatypes.S k) s2 h2) →
  I n s h.
Proof.
  intros Hrun H0 Hstep.
  pose proof (foldM_post body (λ done, I (length done)) (range n) s0 s h0 h
                Hrun H0) as Hpost.
  unfold range in Hpost at 2. rewrite length_seq in Hpost.
  apply Hpost. intros done x rest s1 h1 s2 h2 Hl HI Hb.
  assert (x = length done ∧ x < n) as [-> Hlt].
  { assert (range n !! length done = Some x) as Hx
      by (by rewrite Hl, list_lookup_middle).
    unfold range in Hx. apply lookup_seq in Hx. lia. }
  rewrite length_app. cbn. rewrite Nat.add_1_r.
  by apply (Hstep (length done) s1 h1).
Qed.

(** The two loops of [fill], when they run to their end: the dictionary has
    the keys of the two ranges, the objects below [base] are as they were,
    and every address stored is one the entries returned. *)
Lemma fill_post (n td : nat) (entry : nat → nat → M V addr) (base : nat)
    (d : gmap nat (gmap nat addr)) h0 h :
  base ≤ length h0 →
  (∀ i j h1 a h2, base ≤ length h1 → entry i j h1 = Ok (a, h2) →
                  preserves base h1 h2 ∧ base ≤ a < length h2) →
  fill n td entry h0 = Ok (d, h) →
  preserves base h0 h ∧
  dom d = set_seq 0 n ∧
  ∀ i row, d !! i = Some row →
    dom row = set_seq 0 td ∧ ∀ j a, row !! j = Some a → base ≤ a < length h.
Proof.
  intros Hbase Hentry Hrun. unfold fill in Hrun.
  set (good := λ (row : gmap nat addr) (h : heap V),
         ∀ j a, row !! j = Some a → base ≤ a < length h).
  apply (foldM_range_post _
    (λ i (d : gmap nat (gmap nat addr)) h,
       preserves base h0 h ∧ dom d = (set_seq 0 i : gset nat) ∧
       ∀ i' row, d !! i' = Some row →
         dom row = (set_seq 0 td : gset nat) ∧ good row h) n ∅ d h0 h Hrun).
  - split; [apply preserves_refl|]. split; [done|].
    intros i' row Hrow. by rewrite lookup_empty in Hrow.
  - intros i d1 h1 d2 h2' Hi (Hp1 & Hdom1 & Hrows1)
      (row & h2 & Hinner & [-> ->]%ret_inv)%bind_inv.
    assert (Hb1 : base ≤ length h1) by (destruct Hp1; lia).
    assert (Hrow : preserves base h1 h2 ∧ dom row = (set_seq 0 td : gset nat)
                   ∧ good row h2).
    { apply (foldM_range_post _
        (λ j (row : gmap nat addr) h,
           preserves base h1 h ∧ dom row = (set_seq 0 j : gset nat)
           ∧ good row h) td ∅ row h1 h2 Hinner).
      - split; [apply preserves_refl|]. split; [done|].
        intros j a Ha. by rewrite lookup_empty in Ha.
      - intros j r1 g1 r2 g2' Hj (Hq1 & Hd1 & Hg1)
          (a & g2 & He & [-> ->]%ret_inv)%bind_inv.
        destruct (Hentry i j g1 a g2) as [Hq2 Ha]; [destruct Hq1; lia|done|].
        split; [by eapply preserves_trans|].
        split; [by rewrite dom_insert_L, set_seq_S_end_union_L, Hd1|].
        intros j' a' Hj'. destruct (decide (j' = j)) as [->|Hne].
        + rewrite lookup_insert_eq in Hj'. by simplify_eq.
        + rewrite lookup_insert_ne in Hj' by done.
          specialize (Hg1 j' a' Hj'). destruct Hq2. lia. }
    destruct Hrow as (Hp2 & Hdrow & Hgrow).
    split; [by eapply preserves_trans|].
    split; [by rewrite dom_insert_L, set_seq_S_end_union_L, Hdom1|].
    intros i' row' Hi'. destruct (decide (i' = i)) as [->|Hne].
    + rewrite lookup_insert_eq in Hi'. by simplify_eq.
    + rewrite lookup_insert_ne in Hi' by done.
      destruct (Hrows1 i' row' Hi') as [Hd Hg]. split; [done|].
      intros j a Ha. specialize (Hg j a Ha). destruct Hp2. lia.
Qed.

End HeapFurther.

Section DictionaryFurther.
Context {V Estimator : Type} `{!External V Estimator}.
Implicit Types (h : heap V) (X : DataFrame V) (a : addr).
Implicit Types (self : _RegressionShapExplainers V Estimator).

Lemma call_inv (e : explainer V Estimator) X h a h' :
  call e X h = Ok (a, h') →
  ∃ raw, shap_call e X = Ok raw ∧ a = length h ∧ h' = h ++ [raw].
Proof.
  unfold call. intros (raw & h1 & [Hc ->]%lift_inv & [-> ->]%new_inv)%bind_inv.
  by exists raw.
Qed.

Lemma per_output_entry_post
    (explainers : gmap nat (gmap nat (explainer V Estimator)))
    X (i j base : nat) h a h' :
  base ≤ length h →
  per_output_entry explainers X i j h = Ok (a, h') →
  preserves base h h' ∧ base ≤ a < length h'.
Proof.
  intros Hb Hrun. unfold per_output_entry in Hrun.
  apply bind_inv in Hrun as (row & h1 & [_ ->]%lift_inv & Hrun).
  apply bind_inv in Hrun as (e & h1 & [_ ->]%lift_inv & Hrun).
  apply bind_inv in Hrun as (ad & h1 & (raw & _ & -> & ->)%call_inv & Hrun).
  apply bind_inv in Hrun as (ex & h2 & [_ ->]%get_inv & Hrun).
  apply bind_inv in Hrun as (b & h2 & [_ ->]%lift_inv & Hrun).
  apply bind_inv in Hrun as (u & h2 & (e1 & _ & ->)%update_inv & Hrun).
  apply bind_inv in Hrun as (u' & h3 & (e2 & _ & ->)%update_inv & Hrun).
  apply ret_inv in Hrun as [-> ->]. split.
  - eapply preserves_trans; [by apply preserves_new|].
    eapply preserves_trans; by apply preserves_update.
  - rewrite !length_insert, length_app. cbn. lia.
Qed.

Lemma combined_entry_post (so : bool) (td : nat) (tmp : addr) X
    (i j base : nat) h a h' :
  base ≤ tmp → base ≤ length h →
  combined_entry so td tmp X i j h = Ok (a, h') →
  preserves base h h' ∧ base ≤ a < length h'.
Proof.
  intros Htmp Hb Hrun. unfold combined_entry in Hrun.
  apply bind_inv in Hrun as (t & h1 & Hfirst & Hrun).
  assert (Hfst : preserves base h h1 ∧ base ≤ t < length h1).
  { destruct so; cbn [negb] in Hfirst.
    - apply bind_inv in Hfirst as (raw & h2 & [Hraw ->]%get_inv & Hfirst).
      apply bind_inv in Hfirst as (b & h2 & [_ ->]%lift_inv & Hfirst).
      apply bind_inv in Hfirst as (u & h2 & (e1 & _ & ->)%update_inv & Hfirst).
      apply ret_inv in Hfirst as [-> ->].
      apply lookup_lt_Some in Hraw. rewrite length_insert.
      split; [by apply preserves_update|lia].
    - apply bind_inv in Hfirst as (raw & h2 & [_ ->]%get_inv & Hfirst).
      apply bind_inv in Hfirst as (v & h2 & [_ ->]%lift_inv & Hfirst).
      apply bind_inv in Hfirst as (t' & h2 & [-> ->]%new_inv & Hfirst).
      apply bind_inv in Hfirst as (raw' & h3 & [_ ->]%get_inv & Hfirst).
      apply bind_inv in Hfirst as (b0 & h3 & [_ ->]%lift_inv & Hfirst).
      apply bind_inv in Hfirst as (b & h3 & [_ ->]%lift_inv & Hfirst).
      apply bind_inv in Hfirst as (u & h3 & (e1 & _ & ->)%update_inv & Hfirst).
      apply ret_inv in Hfirst as [-> ->].
      rewrite length_insert, length_app. cbn. split; [|lia].
      eapply preserves_trans; [by apply preserves_new|].
      by apply preserves_update. }
  destruct Hfst as [Hp Ht].
  apply bind_inv in Hrun as (raw & h2 & [_ ->]%get_inv & Hrun).
  apply bind_inv in Hrun as (u & h2 & (e1 & _ & ->)%update_inv & Hrun).
  apply bind_inv in Hrun as (u' & h3 & (e2 & _ & ->)%update_inv & Hrun).
  apply ret_inv in Hrun as [-> ->]. rewrite !length_insert. split; [|done].
  eapply preserves_trans; [exact Hp|].
  eapply preserves_trans; apply preserves_update; lia.
Qed.

(** What a run of [shap_explanations] that returns has done. *)
Lemma shap_explanations_post self fs fpc ffc ns h0
    (d : gmap nat (gmap nat addr)) h :
  shap_explanations self fs fpc ffc ns h0 = Ok (d, h) →
  preserves (length h0) h0 h ∧
  dom d = set_seq 0 (rse_n self) ∧
  ∀ i row, d !! i = Some row →
    dom row = set_seq 0 (target_dim self) ∧
    ∀ j a, row !! j = Some a → length h0 ≤ a < length h.
Proof.
  unfold shap_explanations.
  intros (X & h1 & [_ ->]%lift_inv & Hrun)%bind_inv.
  destruct (is_multiOutputRegressor self), (rse_explainers self) as [ex|ex];
    try done.
  - apply (fill_post _ _ _ (length h0)) in Hrun; [done|done|].
    intros i j h1 a h2 Hb. by apply per_output_entry_post.
  - apply bind_inv in Hrun as (tmp & h1 & (raw & _ & -> & ->)%call_inv & Hrun).
    apply (fill_post _ _ _ (length h0)) in Hrun.
    + destruct Hrun as (Hp & Hdom & Hrows). split; [|done].
      eapply preserves_trans; [|exact Hp]. by apply preserves_new.
    + rewrite length_app. lia.
    + intros i j h1 a h2 Hb. by apply combined_entry_post.
Qed.

(** X12. The keys of the dictionary of explanations. When
    [shap_explanations] returns, in either layout, the dictionary has exactly
    the horizons [0 .. n-1] as keys and under each of them exactly the
    components [0 .. target_dim-1], and every entry is the address of an
    object on the heap. *)
Theorem explanations_cover_every_output self fs fpc ffc ns h0
    (d : gmap nat (gmap nat addr)) h :
  shap_explanations self fs fpc ffc ns h0 = Ok (d, h) →
  dom d = set_seq 0 (rse_n self) ∧
  (∀ i row, d !! i = Some row → dom row = set_seq 0 (target_dim self)) ∧
  ∀ i j, i < rse_n self → j < target_dim self →
    ∃ row a ex, d !! i = Some row ∧ row !! j = Some a ∧ h !! a = Some ex.
Proof.
  intros (Hp & Hdom & Hrows)%shap_explanations_post.
  split; [done|]. split; [intros i row Hi; by apply (Hrows i row)|].
  intros i j Hi Hj.
  assert (is_Some (d !! i)) as [row Hrow].
  { apply elem_of_dom. rewrite Hdom. apply elem_of_set_seq. lia. }
  destruct (Hrows i row Hrow) as [Hdrow Haddr].
  assert (is_Some (row !! j)) as [a Ha].
  { apply elem_of_dom. rewrite Hdrow. apply elem_of_set_seq. lia. }
  destruct (lookup_lt_is_Some_2 h a) as [ex Hex]; [by apply (Haddr j a)|].
  by exists row, a, ex.
Qed.

Lemma preserves_take (h0 h : heap V) :
  preserves (length h0) h0 h → take (length h0) h = h0.
Proof.
  intros [Hlen Hold].
  apply list_eq. intros x. destruct (decide (x < length h0)) as [Hx|Hx].
  - rewrite lookup_take_lt by done. by apply Hold.
  - rewrite lookup_take_ge by lia. symmetry. apply lookup_ge_None. lia.
Qed.

Lemma explanations_leave_older_objects_aux self fs fpc ffc ns h0
    (d : gmap nat (gmap nat addr)) h :
  shap_explanations self fs fpc ffc ns h0 = Ok (d, h) →
  take (length h0) h = h0.
Proof. intros (Hp & _)%shap_explanations_post. by apply preserves_take. Qed.

(** X13. The objects that were on the heap before a call of
    [shap_explanations] are as they were when it returns: none is dropped or
    changed, and every address in the dictionary is that of an object made
    during the call. *)
Theorem explanations_leave_older_objects self fs fpc ffc ns h0
    (d : gmap nat (gmap nat addr)) h :
  shap_explanations self fs fpc ffc ns h0 = Ok (d, h) →
  take (length h0) h = h0 ∧
  ∀ i row j a, d !! i = Some row → row !! j = Some a →
    length h0 ≤ a < length h.
Proof.
  intros (Hp & Hdom & Hrows)%shap_explanations_post. split.
  - by apply preserves_take.
  - intros i row j a Hi Hj. by apply (proj2 (Hrows i row Hi) j a).
Qed.

End DictionaryFurther.

Lemma explanations_cover_every_output_witness :
  ∃ d h,
    shap_explanations Example.combined_explainers (One Example.trivariate)
      None None None [Example.no_explanation] = Ok (d, h) ∧
    dom d = set_seq 0 2 ∧
    (∀ i row, d !! i = Some row → dom row = set_seq 0 3) ∧
    ∀ i j, i < 2 → j < 3 →
      ∃ row a ex, d !! i = Some row ∧ row !! j = Some a ∧ h !! a = Some ex.
Proof.
  eexists _, _. split; [vm_compute; reflexivity|].
  apply (explanations_cover_every_output Example.combined_explainers
           (One Example.trivariate) None None None [Example.no_explanation]).
  vm_compute. reflexivity.
Defined.

Lemma explanations_leave_older_objects_witness :
  ∃ d h,
    shap_explanations Example.single_explainers (One Example.univariate)
      None None None [Example.no_explanation] = Ok (d, h) ∧
    take 1 h = [Example.no_explanation] ∧
    ∀ i row j a, d !! i = Some row → row !! j = Some a → 1 ≤ a < length h.
Proof.
  eexists _, _. split; [vm_compute; reflexivity|].
  apply (explanations_leave_older_objects Example.single_explainers
           (One Example.univariate) None None None [Example.no_explanation]).
  vm_compute. reflexivity.
Defined.

(** * Further properties: [explain] and [summary_plot] *)

Section ExplainFurther.
Context {V Estimator : Type} `{!External V Estimator}.
Implicit Types (self : ShapExplainer V Estimator) (h : heap V).

Lemma snd_imap_pair {A} (l : list A) : (imap pair l).*2 = l.
Proof.
  rewrite fmap_imap.
  rewrite (imap_ext _ (λ _ x, x) l) by done.
  induction l as [|x l IH]; [done|]. cbn. f_equal. exact IH.
Qed.

Lemma lookup_imap_pair {A} (l : list A) (k idx : nat) (x : A) :
  imap pair l !! k = Some (idx, x) → idx = k ∧ l !! k = Some x.
Proof.
  rewrite list_lookup_imap. destruct (l !! k); cbn; [|done].
  by intros [= <- <-].
Qed.

(** X14. The dictionary [explain] returns. When [explain] returns, its
    result has exactly the horizons [0 .. n-1] as keys and under each of them
    exactly the target names of the explainer, and the objects that were on
    the heap before the call are as they were. *)
Theorem explain_covers_horizons_and_targets self fs fpc ffc h0
    (d : gmap nat (gmap string (TimeSeries V))) h :
  explain self fs fpc ffc h0 = Ok (d, h) →
  dom d = set_seq 0 (n self) ∧
  (∀ i row, d !! i = Some row → dom row = list_to_set (target_names self)) ∧
  take (length h0) h = h0.
Proof.
  unfold explain.
  intros (u & h1 & [_ ->]%lift_inv & Hrun)%bind_inv.
  set (args := match fs with
               | Some s => (s, fpc, ffc)
               | None => (background_series self,
                          background_past_covariates self,
                          background_future_covariates self)
               end) in Hrun.
  destruct args as [[s pc] fc].
  set (args := match s with
               | One ts => (Many [ts], wrap_cov pc, wrap_cov fc)
               | Many _ => (s, pc, fc)
               end) in Hrun.
  destruct args as [[s' pc'] fc'].
  apply bind_inv in Hrun as (shap_ & h1 & Hshap & Hrun).
  pose proof (explanations_leave_older_objects_aux _ _ _ _ _ _ _ _ Hshap)
    as Hold.
  assert (Hloop : h = h1 ∧ dom d = (set_seq 0 (n self) : gset nat) ∧
            ∀ i row, d !! i = Some row →
              dom row = (list_to_set (target_names self) : gset string)).
  { apply (foldM_range_post _
      (λ i (d : gmap nat (gmap string (TimeSeries V))) h,
         h = h1 ∧ dom d = (set_seq 0 i : gset nat) ∧
         ∀ i' row, d !! i' = Some row →
           dom row = (list_to_set (target_names self) : gset string))
      (n self) ∅ d h1 h Hrun).
    - split; [done|]. split; [done|]. intros i' row Hrow.
      by rewrite lookup_empty in Hrow.
    - intros i d1 g1 d2 g2' Hi (-> & Hdom1 & Hrows1)
        (row & g2 & Hinner & [-> ->]%ret_inv)%bind_inv.
      assert (Hrow : g2 = h1 ∧
                dom row = (list_to_set (imap pair (target_names self)).*2
                           : gset string)).
      { apply (foldM_post _
          (λ done (row : gmap string (TimeSeries V)) h,
             h = h1 ∧ dom row = (list_to_set done.*2 : gset string))
          _ ∅ row h1 g2 Hinner).
        - by split.
        - intros done [idx t] rest r1 k1 r2 k2 _ [-> Hd1] Hbody.
          apply bind_inv in Hbody as (x1 & k & [_ ->]%lift_inv & Hbody).
          apply bind_inv in Hbody as (x2 & k & [_ ->]%lift_inv & Hbody).
          apply bind_inv in Hbody as (x3 & k & [_ ->]%get_inv & Hbody).
          apply bind_inv in Hbody as (x4 & k & [_ ->]%lift_inv & Hbody).
          apply ret_inv in Hbody as [-> ->]. split; [done|].
          rewrite dom_insert_L, Hd1, fmap_app, list_to_set_app_L. cbn.
          rewrite union_empty_r_L. apply (comm_L (∪)). }
      destruct Hrow as [-> Hdrow]. rewrite snd_imap_pair in Hdrow.
      split; [done|].
      split; [by rewrite dom_insert_L, set_seq_S_end_union_L, Hdom1|].
      intros i' row' Hi'. destruct (decide (i' = i)) as [->|Hne].
      + rewrite lookup_insert_eq in Hi'. by simplify_eq.
      + rewrite lookup_insert_ne in Hi' by done. by apply (Hrows1 i'). }
  destruct Hloop as (-> & Hdom & Hrows). done.
Qed.

End ExplainFurther.

Lemma explain_covers_horizons_and_targets_witness :
  ∃ d h,
    explain Example.shap_explainer None None None [Example.no_explanation]
    = Ok (d, h) ∧
    dom d = set_seq 0 1 ∧
    (∀ i row, d !! i = Some row → dom row = list_to_set ["x"]) ∧
    take 1 h = [Example.no_explanation].
Proof.
  eexists _, _. split; [vm_compute; reflexivity|].
  apply (explain_covers_horizons_and_targets Example.shap_explainer
           None None None [Example.no_explanation]).
  vm_compute. reflexivity.
Defined.

Section PlotsFurther.
Context {V Estimator : Type} `{!External V Estimator}.
Implicit Types (self : ShapExplainer V Estimator) (h : heap V).

Lemma dict_get_inv {A} (d : gmap nat A) (k : nat) (x : A) :
  dict_get d k = Ok x → d !! k = Some x.
Proof. unfold dict_get. destruct (d !! k); [|done]. by intros [= ->]. Qed.

Lemma dict_get_Z_inv {A} (d : gmap nat A) (k : Z) (x : A) :
  dict_get_Z d k = Ok x → (0 ≤ k)%Z ∧ d !! Z.to_nat k = Some x.
Proof.
  unfold dict_get_Z. destruct (k <? 0)%Z eqn:Hk; [done|].
  intros Hd%dict_get_inv. apply Z.ltb_ge in Hk. done.
Qed.

Lemma target_names_pass self (names : list string) :
  Forall (λ t, t ∈ self_target_names self) names →
  existsb (λ target_name,
             negb (bool_decide (target_name ∈ self_target_names self))) names
  = false.
Proof.
  induction 1 as [|t names Ht _ IH]; [done|]. cbn.
  by rewrite bool_decide_eq_true_2, IH.
Qed.

(** X15. An empty list of horizons. Asked for no horizon at all, with
    target names that the explainer knows or none, [summary_plot] raises the
    error of [max] on an empty sequence: nothing is explained and nothing is
    drawn. *)
Theorem summary_plot_rejects_no_horizon self (tn : option (list string))
    (nb : option nat) (pt : string) h :
  (∀ names, tn = Some names → Forall (λ t, t ∈ self_target_names self) names) →
  summary_plot self tn (Some []) nb pt h
  = Raise (ValueError "max() arg is an empty sequence").
Proof.
  intros Hnames. unfold summary_plot.
  destruct tn as [names|]; [|done].
  unfold raise_if. by rewrite (target_names_pass self names (Hnames _ eq_refl)).
Qed.

(** What a run of [summary_plot] that returns has drawn. *)
Lemma summary_plot_post self (tn : option (list string)) (hz : option (list Z))
    (nb : option nat) (pt : string) h0 (plots : list (plot V)) h :
  summary_plot self tn hz nb pt h0 = Ok (plots, h) →
  (∀ hs, hz = Some hs → Forall (λ x, (x ≤ Z.of_nat (n self) - 1)%Z) hs) ∧
  ∃ d,
    shap_explanations (explainers self) (background_series self)
      (background_past_covariates self) (background_future_covariates self)
      nb h0 = Ok (d, h) ∧
    length plots
    = length (default (self_target_names self) tn)
      * length (default (Z.of_nat <$> range (output_chunk_length (se_model self)))
                  hz) ∧
    ∀ (k j : nat) (t : string) (x : Z),
      default (self_target_names self) tn !! k = Some t →
      default (Z.of_nat <$> range (output_chunk_length (se_model self))) hz !! j
      = Some x →
      (0 ≤ x)%Z ∧
      ∃ row a,
        d !! Z.to_nat x = Some row ∧ row !! k = Some a ∧
        plots
        !! (k * length (default (Z.of_nat
                                   <$> range (output_chunk_length (se_model self)))
                          hz) + j)
        = Some (mkPlot ("Target: `" +:+ t +:+ "` - Horizon: t+" +:+ str x) a
                  (match nb with
                   | Some (S m) => sample (background_X (explainers self)) (S m)
                   | _ => background_X (explainers self)
                   end) pt).
Proof.
  unfold summary_plot.
  intros (u1 & h1 & [_ ->]%lift_inv & Hrun)%bind_inv.
  apply bind_inv in Hrun as (u2 & h1 & [Hcheck ->]%lift_inv & Hrun).
  set (names := default (self_target_names self) tn) in *.
  set (hs := default (Z.of_nat <$> range (output_chunk_length (se_model self)))
               hz) in *.
  set (X := match nb with
            | Some (S m) => sample (background_X (explainers self)) (S m)
            | _ => background_X (explainers self)
            end) in *.
  apply bind_inv in Hrun as (d & h1 & Hshap & Hrun).
  split.
  { intros hs' ->. apply Forall_forall. intros x Hx.
    destruct (py_max_ge hs' x Hx) as (m & Hm & Hle).
    rewrite Hm in Hcheck. cbn in Hcheck.
    destruct (Z.of_nat (n self) - 1 <? m)%Z eqn:Hlt; [done|].
    apply Z.ltb_ge in Hlt. lia. }
  exists d.
  set (shown := λ (k : nat) (t : string) (x : Z) (p : option (plot V)),
         (0 ≤ x)%Z ∧
         ∃ row a, d !! Z.to_nat x = Some row ∧ row !! k = Some a ∧
                  p = Some (mkPlot ("Target: `" +:+ t +:+ "` - Horizon: t+"
                                    +:+ str x) a X pt)).
  assert (Hloop : h = h1 ∧ length plots = length (imap pair names) * length hs ∧
            ∀ k idx t j x, imap pair names !! k = Some (idx, t) →
              hs !! j = Some x →
              shown idx t x (plots !! (k * length hs + j))).
  { apply (foldM_post _
      (λ done (plots : list (plot V)) h,
         h = h1 ∧ length plots = length done * length hs ∧
         ∀ k idx t j x, done !! k = Some (idx, t) → hs !! j = Some x →
           shown idx t x (plots !! (k * length hs + j)))
      _ [] plots h1 h Hrun).
    - split; [done|]. split; [done|]. by intros k idx t j x ?.
    - intros done [idx t] rest p1 g1 p2 g2 _ (-> & Hlen1 & Hall1) Hinner.
      assert (Hin : g2 = h1 ∧ ∃ ext, p2 = p1 ++ ext ∧ length ext = length hs ∧
                ∀ j x, hs !! j = Some x → shown idx t x (ext !! j)).
      { apply (foldM_post _
          (λ doneh (p : list (plot V)) h,
             h = h1 ∧ ∃ ext, p = p1 ++ ext ∧ length ext = length doneh ∧
               ∀ j x, doneh !! j = Some x → shown idx t x (ext !! j))
          _ p1 p2 h1 g2 Hinner).
        - split; [done|]. exists []. rewrite app_nil_r.
          split; [done|]. split; [done|]. by intros j x ?.
        - intros doneh x resth q1 k1 q2 k2 _
            (-> & ext & -> & Hlext & Hext) Hbody.
          apply bind_inv in Hbody as (row & k & [Hrow ->]%lift_inv & Hbody).
          apply bind_inv in Hbody as (a & k & [Ha ->]%lift_inv & Hbody).
          apply bind_inv in Hbody as (ex & k & [_ ->]%get_inv & Hbody).
          apply bind_inv in Hbody as (u & k & [_ ->]%lift_inv & Hbody).
          apply ret_inv in Hbody as [-> ->].
          apply dict_get_Z_inv in Hrow as [Hx Hrow].
          apply dict_get_inv in Ha.
          split; [done|].
          eexists (ext ++ [_]). split; [by rewrite app_assoc|].
          split; [rewrite !length_app; cbn; lia|].
          intros j y Hj.
          destruct (decide (j < length doneh)) as [Hlt|Hge].
          + rewrite lookup_app_l in Hj by done.
            rewrite lookup_app_l by lia. by apply Hext.
          + rewrite lookup_app_r in Hj by lia.
            apply list_lookup_singleton_Some in Hj as [Hj0 <-].
            assert (j = length ext) as -> by lia.
            rewrite list_lookup_middle by done.
            split; [done|]. by exists row, a. }
      destruct Hin as (-> & ext & -> & Hlext & Hext).
      split; [done|].
      split; [rewrite !length_app, Hlen1, Hlext; cbn; lia|].
      intros k idx' t' j x Hk Hj.
      assert (Hjlt : j < length hs) by (by eapply lookup_lt_Some).
      destruct (decide (k < length done)) as [Hlt|Hge].
      + rewrite lookup_app_l in Hk by done.
        rewrite lookup_app_l by (rewrite Hlen1; nia).
        by apply (Hall1 k idx' t' j x).
      + rewrite lookup_app_r in Hk by lia.
        apply list_lookup_singleton_Some in Hk as [Hk0 [= <- <-]].
        assert (k = length done) as -> by lia.
        rewrite lookup_app_r by (rewrite Hlen1; lia).
        replace (length done * length hs + j - length p1) with j
          by (rewrite Hlen1; lia).
        by apply Hext. }
  destruct Hloop as (-> & Hlen & Hall).
  rewrite length_imap in Hlen.
  split; [done|]. split; [done|].
  intros k j t x Hk Hj.
  assert (imap pair names !! k = Some (k, t)) as Hk'
    by (by rewrite list_lookup_imap, Hk).
  destruct (Hall k k t j x Hk' Hj) as (Hx & row & a & Hrow & Ha & Hp).
  split; [done|]. by exists row, a.
Qed.

(** X16. The horizons of a summary that was drawn. When [summary_plot]
    returns for a list of horizons and at least one target, every horizon
    asked for lies in [0 .. n-1]: the check of the arguments lets a negative
    horizon through, and the lookup in the dictionary then fails. *)
Theorem drawn_horizons_are_in_range self (tn : option (list string))
    (hs : list Z) (nb : option nat) (pt : string) h0 (plots : list (plot V)) h :
  summary_plot self tn (Some hs) nb pt h0 = Ok (plots, h) →
  default (self_target_names self) tn ≠ [] →
  Forall (λ x, (0 ≤ x ≤ Z.of_nat (n self) - 1)%Z) hs.
Proof.
  intros (Hup & d & _ & _ & Hall)%summary_plot_post Hne.
  specialize (Hup hs eq_refl). rewrite Forall_forall in Hup.
  apply Forall_forall. intros x Hx. split; [|by apply Hup].
  destruct (default (self_target_names self) tn) as [|t names] eqn:Hn; [done|].
  apply list_elem_of_lookup_1 in Hx as [j Hj].
  by destruct (Hall 0 j t x eq_refl Hj) as [H0 _].
Qed.

(** X17. The order of the plots. When [summary_plot] returns it has drawn
    one plot per requested target and horizon, target by target and, for one
    target, in the order of the horizons. The plot for the target at place
    [k] of the requested list and the horizon [x] carries both in its title
    and shows the object the dictionary of explanations holds at horizon [x]
    and component [k], the place of the target in the requested list, over
    the background matrix, down-sampled when a number of samples is given. *)
Theorem plots_follow_targets_then_horizons self (tn : option (list string))
    (hz : option (list Z)) (nb : option nat) (pt : string) h0
    (plots : list (plot V)) h :
  summary_plot self tn hz nb pt h0 = Ok (plots, h) →
  ∃ d,
    shap_explanations (explainers self) (background_series self)
      (background_past_covariates self) (background_future_covariates self)
      nb h0 = Ok (d, h) ∧
    length plots
    = length (default (self_target_names self) tn)
      * length (default (Z.of_nat <$> range (output_chunk_length (se_model self)))
                  hz) ∧
    ∀ (k j : nat) (t : string) (x : Z),
      default (self_target_names self) tn !! k = Some t →
      default (Z.of_nat <$> range (output_chunk_length (se_model self))) hz !! j
      = Some x →
      ∃ row a,
        d !! Z.to_nat x = Some row ∧ row !! k = Some a ∧
        plots
        !! (k * length (default (Z.of_nat
                                   <$> range (output_chunk_length (se_model self)))
                          hz) + j)
        = Some (mkPlot ("Target: `" +:+ t +:+ "` - Horizon: t+" +:+ str x) a
                  (match nb with
                   | Some (S m) => sample (background_X (explainers self)) (S m)
                   | _ => background_X (explainers self)
                   end) pt).
Proof.
  intros (_ & d & Hshap & Hlen & Hall)%summary_plot_post.
  exists d. split; [done|]. split; [done|].
  intros k j t x Hk Hj. by destruct (Hall k j t x Hk Hj) as [_ Hp].
Qed.

End PlotsFurther.

Lemma summary_plot_rejects_no_horizon_witness :
  summary_plot Example.shap_explainer (Some ["x"]) (Some []) None "dot" []
  = Raise (ValueError "max() arg is an empty sequence").
Proof.
  apply (summary_plot_rejects_no_horizon Example.shap_explainer (Some ["x"])
           None "dot" []).
  intros names [= <-]. constructor; [|constructor].
  vm_compute. apply elem_of_cons. by left.
Defined.

Lemma drawn_horizons_are_in_range_witness :
  ∃ plots h,
    summary_plot Example.shap_explainer None (Some [0%Z]) None "dot" []
    = Ok (plots, h) ∧
    Forall (λ x, (0 ≤ x ≤ Z.of_nat (n Example.shap_explainer) - 1)%Z) [0%Z].
Proof.
  eexists _, _. split; [vm_compute; reflexivity|].
  eapply (drawn_horizons_are_in_range Example.shap_explainer None [0%Z] None
            "dot" []).
  - vm_compute. reflexivity.
  - vm_compute. discriminate.
Defined.

Lemma plots_follow_targets_then_horizons_witness :
  ∃ plots h,
    summary_plot Example.shap_explainer None None (Some 2) "bar" []
    = Ok (plots, h) ∧
    ∃ d,
      shap_explanations (explainers Example.shap_explainer)
        (background_series Example.shap_explainer)
        (background_past_covariates Example.shap_explainer)
        (background_future_covariates Example.shap_explainer)
        (Some 2) [] = Ok (d, h) ∧
      length plots
      = length (default (self_target_names Example.shap_explainer) None)
        * length (default
                    (Z.of_nat
                       <$> range (output_chunk_length
                                    (se_model Example.shap_explainer)))
                    None) ∧
      ∀ (k j : nat) (t : string) (x : Z),
        default (self_target_names Example.shap_explainer) None !! k = Some t →
        default
          (Z.of_nat
             <$> range (output_chunk_length (se_model Example.shap_explainer)))
          None !! j = Some x →
        ∃ row a,
          d !! Z.to_nat x = Some row ∧ row !! k = Some a ∧
          plots
          !! (k * length (default
                            (Z.of_nat
                               <$> range (output_chunk_length
                                            (se_model Example.shap_explainer)))
                            None) + j)
          = Some (mkPlot ("Target: `" +:+ t +:+ "` - Horizon: t+" +:+ str x) a
                    (sample (background_X (explainers Example.shap_explainer))
                       2) "bar").
Proof.
  eexists _, _. split; [vm_compute; reflexivity|].
  apply (plots_follow_targets_then_horizons Example.shap_explainer None None
           (Some 2) "bar" []).
  vm_compute. reflexivity.
Defined.

(** * Further properties: a summary that is sure to be drawn *)

Section SummaryFurther.
Context {V Estimator : Type} `{!External V Estimator}.
Implicit Types (self : ShapExplainer V Estimator) (h : heap V).

Lemma helper_init_fields (model : RegressionModel Estimator) bg (k : nat)
    bpc bfc sm nb kw (ex : _RegressionShapExplainers V Estimator) :
  _RegressionShapExplainers__init__ model bg k bpc bfc sm nb kw = Ok ex →
  rse_model ex = model ∧ rse_n ex = k ∧
  target_dim ex = input_dim_target model.
Proof.
  unfold _RegressionShapExplainers__init__.
  destruct (_create_regression_model_shap_X model bg bpc bfc nb) as [X|];
    cbn; [|done].
  match goal with
  | |- context [mbind _ ?x] => destruct x as [e|]; cbn; [|done]
  end.
  by intros [= <-].
Qed.

Lemma ShapExplainer__init__fields model bg bpc bfc sm nb kw self :
  ShapExplainer__init__ model bg bpc bfc sm nb kw = Ok self →
  n self = output_chunk_length (se_model self) ∧
  rse_n (explainers self) = n self ∧
  target_dim (explainers self) = input_dim_target (se_model self).
Proof.
  unfold ShapExplainer__init__. destruct model as [m|]; [|done].
  destruct (base_init m bg bpc bfc) as [[[[bg' bpc'] bfc'] names]|]; cbn; [|done].
  match goal with
  | |- context [mbind _ ?x] => destruct x as [sm'|]; cbn; [|done]
  end.
  destruct (_RegressionShapExplainers__init__ _ _ _ _ _ _ _ _) as [ex|] eqn:Hex;
    cbn; [|done].
  intros [= <-]. cbn.
  by destruct (helper_init_fields _ _ _ _ _ _ _ _ _ Hex) as (_ & -> & ->).
Qed.

Lemma py_max_le (l : list Z) (b : Z) :
  l ≠ [] → Forall (λ x, (x ≤ b)%Z) l → ∃ m, py_max l = Ok m ∧ (m ≤ b)%Z.
Proof.
  destruct l as [|y l]; [done|]. intros _ [Hy Hl]%Forall_cons.
  exists (foldl Z.max y l). split; [done|].
  revert y Hy. induction Hl as [|z l Hz _ IH]; intros y Hy; cbn; [done|].
  apply IH. lia.
Qed.

(** A loop whose every iteration returns and leaves the heap as it is runs
    to its end on that heap. *)
Lemma foldM_reads {S A} (body : S → A → M V S) (l : list A) (s0 : S) h :
  (∀ s x, x ∈ l → ∃ s', body s x h = Ok (s', h)) →
  ∃ s, foldM body s0 l h = Ok (s, h).
Proof.
  revert s0. induction l as [|x l IH]; intros s0 Hbody; cbn [foldM].
  - by exists s0.
  - destruct (Hbody s0 x) as [s1 H1]; [by left|].
    destruct (IH s1) as [s2 H2].
    { intros s y Hy. apply Hbody. by right. }
    exists s2. by run H1.
Qed.

(** X18. A summary that is sure to be drawn. For an explainer the
    constructor built, [summary_plot] adds no failure of its own to those of
    [shap_explanations] and of the plot calls: asked for target names the
    explainer knows, no more of them than the model has target components,
    and for horizons in [0 .. n-1], at least one (or for no names or no
    horizons, which stand for all), it returns whenever [shap_explanations]
    does on the background and [shap.summary_plot] accepts each object to be
    plotted with the background matrix, and it leaves the heap that call
    leaves. *)
Theorem summary_is_drawn_when_explanations_are model bg bpc bfc sm bns kw self
    (tn : option (list string)) (hz : option (list Z)) (nb : option nat)
    (pt : string) h0 (d : gmap nat (gmap nat addr)) h :
  ShapExplainer__init__ model bg bpc bfc sm bns kw = Ok self →
  (∀ names, tn = Some names → Forall (λ t, t ∈ self_target_names self) names) →
  length (default (self_target_names self) tn)
  ≤ input_dim_target (se_model self) →
  (∀ hs, hz = Some hs →
         hs ≠ [] ∧ Forall (λ x, (0 ≤ x ≤ Z.of_nat (n self) - 1)%Z) hs) →
  shap_explanations (explainers self) (background_series self)
    (background_past_covariates self) (background_future_covariates self)
    nb h0 = Ok (d, h) →
  (∀ (k : nat) (x : Z) row a ex,
     k < length (default (self_target_names self) tn) →
     x ∈ default (Z.of_nat <$> range (output_chunk_length (se_model self))) hz →
     d !! Z.to_nat x = Some row → row !! k = Some a → h !! a = Some ex →
     shap_summary_plot ex
       (match nb with
        | Some (S m) => sample (background_X (explainers self)) (S m)
        | _ => background_X (explainers self)
        end) pt = Ok ()) →
  ∃ plots, summary_plot self tn hz nb pt h0 = Ok (plots, h).
Proof.
  intros (Hn & Hrse & Htd)%ShapExplainer__init__fields Hnames Hcount Hhz Hshap
    Hplot.
  pose proof (shap_explanations_post _ _ _ _ _ _ _ _ Hshap)
    as (_ & Hdom & Hrows).
  rewrite Hrse in Hdom. rewrite Htd in Hrows.
  unfold summary_plot.
  rewrite (bind_Ok _ _ h0 () h0).
  2:{ apply lift_Ok. destruct tn as [names|]; [|done].
      unfold raise_if.
      by rewrite (target_names_pass self names (Hnames _ eq_refl)). }
  rewrite (bind_Ok _ _ h0 () h0).
  2:{ apply lift_Ok. destruct hz as [hs|]; [|done].
      destruct (Hhz hs eq_refl) as [Hne Hall].
      destruct (py_max_le hs (Z.of_nat (n self) - 1) Hne) as (m & -> & Hm).
      { eapply Forall_impl; [exact Hall|]. cbn. lia. }
      cbn. unfold raise_if.
      by rewrite (proj2 (Z.ltb_ge _ _) Hm). }
  run Hshap.
  set (names := default (self_target_names self) tn) in *.
  set (hs := default (Z.of_nat <$> range (output_chunk_length (se_model self)))
               hz).
  assert (Hhs : Forall (λ x, (0 ≤ x < Z.of_nat (n self))%Z) hs).
  { subst hs. destruct hz as [hs|]; cbn.
    - destruct (Hhz hs eq_refl) as [_ Hall].
      eapply Forall_impl; [exact Hall|]. cbn. lia.
    - rewrite <- Hn. apply Forall_fmap, Forall_forall. intros x Hx.
      unfold range in Hx. apply elem_of_seq in Hx. cbn. lia. }
  apply foldM_reads. intros plots [idx t] Hit.
  apply list_elem_of_lookup_1 in Hit as [k Hk].
  apply lookup_imap_pair in Hk as [-> Hk].
  apply lookup_lt_Some in Hk.
  apply foldM_reads. intros plots' x Hx.
  rewrite Forall_forall in Hhs. specialize (Hhs x Hx).
  assert (is_Some (d !! Z.to_nat x)) as [row Hrow].
  { apply elem_of_dom. rewrite Hdom. apply elem_of_set_seq. lia. }
  destruct (Hrows _ _ Hrow) as [Hdrow Haddr].
  assert (is_Some (row !! k)) as [a Ha].
  { apply elem_of_dom. rewrite Hdrow. apply elem_of_set_seq. lia. }
  destruct (lookup_lt_is_Some_2 h a) as [ex Hex]; [by apply (Haddr k a)|].
  eexists.
  rewrite (bind_Ok _ _ h row h).
  2:{ apply lift_Ok. unfold dict_get_Z.
      rewrite (proj2 (Z.ltb_ge _ _)) by lia. by apply dict_get_Ok. }
  rewrite (bind_Ok _ _ h a h) by (by apply lift_Ok, dict_get_Ok).
  run (get_Ok _ _ _ Hex).
  rewrite (bind_Ok _ _ h () h)
    by (apply lift_Ok; by apply (Hplot k x row a ex)).
  reflexivity.
Qed.

End SummaryFurther.

Lemma summary_is_drawn_when_explanations_are_witness :
  ∃ d h,
    shap_explanations (explainers Example.shap_explainer)
      (background_series Example.shap_explainer)
      (background_past_covariates Example.shap_explainer)
      (background_future_covariates Example.shap_explainer)
      None [] = Ok (d, h) ∧
    ∃ plots,
      summary_plot Example.shap_explainer (Some ["x"]) (Some [0%Z]) None
        "violin" [] = Ok (plots, h).
Proof.
  eexists _, _. split; [vm_compute; reflexivity|].
  eapply (summary_is_drawn_when_explanations_are
            (IsRegressionModel Example.single_model)
            (Some (One Example.univariate)) None None None None ∅
            Example.shap_explainer (Some ["x"]) (Some [0%Z]) None "violin" []).
  - vm_compute. reflexivity.
  - intros names [= <-]. constructor; [|constructor].
    vm_compute. apply elem_of_cons. by left.
  - vm_compute. lia.
  - intros hs [= <-]. split; [discriminate|].
    constructor; [|constructor]. vm_compute. split; discriminate.
  - vm_compute. reflexivity.
  - intros k x row a ex _ _ _ _ Hex. destruct a as [|a]; [|discriminate Hex].
    injection Hex as <-. vm_compute. reflexivity.
Defined.

(** * Further properties: the matrix of several series *)

Section StackFurther.
Context {V Estimator : Type} `{!External V Estimator}.
Implicit Types (ts : TimeSeries V) (model : RegressionModel Estimator).

Lemma create_one_no_cov model ts (Xi : DataFrame V) :
  series_X model 0 ts None None = Ok Xi →
  _create_regression_model_shap_X model (One ts) None None None = Ok Xi.
Proof.
  intros H. unfold _create_regression_model_shap_X.
  cbn [ensure_list wrap_cov cov_truthy imap mapM fst snd].
  cbn -[series_X concat_rows]. rewrite H. cbn -[mjoin].
  rewrite mjoin_singleton. by destruct Xi.
Qed.

(** X19. The rows of several series are stacked series by series. Without
    covariates, the matrix of a list of series that carry the same component
    names is made of the matrices of the single series, one block after the
    other in the order of the list, each under the same columns. *)
Theorem series_blocks_are_stacked_in_order model (l : list (TimeSeries V))
    (X : DataFrame V) (tcomps : list string) :
  _create_regression_model_shap_X model (Many l) None None None = Ok X →
  Forall (λ ts, components ts = tcomps) l →
  ∃ Xs,
    Forall2 (λ ts Xi,
               _create_regression_model_shap_X model (One ts) None None None
               = Ok Xi) l Xs ∧
    rows X = mjoin (rows <$> Xs) ∧
    Forall (λ Xi, columns Xi = columns X) Xs.
Proof.
  unfold _create_regression_model_shap_X at 1. cbn [ensure_list].
  intros HX Hc.
  destruct (mapM _ _) as [Xs|] eqn:HXs; cbn in HX; [|done].
  destruct (concat_rows Xs) as [X'|] eqn:HX'; cbn in HX; [|done].
  injection HX as ->.
  apply mapM_Ok in HXs. exists Xs.
  assert (Hcols : Forall (λ df, columns df = expected_columns model tcomps [] [])
                    Xs).
  { eapply series_frames_columns; [exact HXs| |done..].
    apply Forall_lookup. intros i it Hit.
    apply list_lookup_imap_Some in Hit as (ts & Hts & ->).
    exact (Forall_lookup_1 _ _ _ _ Hc Hts). }
  split.
  { apply Forall2_same_length_lookup_2.
    - apply Forall2_length in HXs. by rewrite length_imap in HXs.
    - intros i ts Xi Hts HXi.
      assert (Hit : imap pair l !! i = Some (i, ts))
        by (by rewrite list_lookup_imap, Hts).
      pose proof (Forall2_lookup_lr _ _ _ _ _ _ HXs Hit HXi) as Hi.
      by apply create_one_no_cov. }
  unfold concat_rows in HX'. destruct Xs as [|df0 Xs]; [done|].
  assert (all_equal (columns <$> df0 :: Xs) = true) as Heq.
  { cbn. apply bool_decide_eq_true_2.
    apply Forall_cons in Hcols as [H0 Hcols].
    apply Forall_fmap. eapply Forall_impl; [exact Hcols|].
    cbn. intros df ->. done. }
  rewrite Heq in HX'. injection HX' as <-. cbn [rows columns].
  split; [done|].
  apply Forall_cons in Hcols as [H0 Hcols]. constructor; [done|].
  eapply Forall_impl; [exact Hcols|]. cbn. intros df ->. done.
Qed.

End StackFurther.

Lemma series_blocks_are_stacked_in_order_witness :
  ∃ X,
    _create_regression_model_shap_X Example.single_model
      (Many [Example.univariate; Example.gappy]) None None None = Ok X ∧
    ∃ Xs,
      Forall2 (λ ts Xi,
                 _create_regression_model_shap_X Example.single_model (One ts)
                   None None None = Ok Xi)
        [Example.univariate; Example.gappy] Xs ∧
      rows X = mjoin (rows <$> Xs) ∧
      Forall (λ Xi, columns Xi = columns X) Xs.
Proof.
  eexists. split; [vm_compute; reflexivity|].
  apply (series_blocks_are_stacked_in_order Example.single_model
           [Example.univariate; Example.gappy] _ ["x"]).
  - vm_compute. reflexivity.
  - repeat constructor.
Defined.

(** * Properties: explaining without a foreground *)

Section BackgroundProperties.
Context {V Estimator : Type} `{!External V Estimator}.
Implicit Types (self : ShapExplainer V Estimator) (h : heap V).

(** The entry of the result of [explain] for a horizon and a target: the
    series made of the time index, the values and the feature names of the
    object the dictionary of explanations holds for the horizon and the
    place of the target. *)
Lemma explain_loops_post self (shap_ : gmap nat (gmap nat addr))
    (d : gmap nat (gmap string (TimeSeries V))) h1 h :
  foldM (λ (shap_values_dict : gmap nat (gmap string (TimeSeries V))) i,
           tmp ← foldM (λ (tmp : gmap string (TimeSeries V))
                          (it : nat * string),
                          let '(idx, t) := it in
                          row ← lift (dict_get shap_ i);
                          a ← lift (dict_get row idx);
                          ex ← get a;
                          ts ← lift (from_times_and_values (expl_time_index ex)
                                       (values ex) (feature_names ex));
                          mret (<[t := ts]> tmp))
                   ∅ (imap pair (target_names self));
           mret (<[i := tmp]> shap_values_dict))
    ∅ (range (n self)) h1 = Ok (d, h) →
  h = h1 ∧
  dom d = set_seq 0 (n self) ∧
  ∀ i row, d !! i = Some row →
    dom row = list_to_set (target_names self) ∧
    ∀ idx t,
      target_names self !! idx = Some t →
      (∀ idx', idx < idx' → target_names self !! idx' ≠ Some t) →
      ∃ r a ex ts,
        shap_ !! i = Some r ∧ r !! idx = Some a ∧ h !! a = Some ex ∧
        from_times_and_values (expl_time_index ex) (values ex)
          (feature_names ex) = Ok ts ∧
        row !! t = Some ts.
Proof.
  intros Hrun.
  set (entry := λ (i idx : nat) (t : string)
                  (row : gmap string (TimeSeries V)),
         ∃ r a ex ts,
           shap_ !! i = Some r ∧ r !! idx = Some a ∧ h1 !! a = Some ex ∧
           from_times_and_values (expl_time_index ex) (values ex)
             (feature_names ex) = Ok ts ∧
           row !! t = Some ts).
  set (latest := λ (l : list (nat * string)) (k : nat) (t : string),
         ∀ k' idx', k < k' → l !! k' ≠ Some (idx', t)).
  assert (Hloop : h = h1 ∧ dom d = (set_seq 0 (n self) : gset nat) ∧
            ∀ i row, d !! i = Some row →
              dom row = (list_to_set (imap pair (target_names self)).*2
                         : gset string) ∧
              ∀ k idx t, imap pair (target_names self) !! k = Some (idx, t) →
                latest (imap pair (target_names self)) k t →
                entry i idx t row).
  { apply (foldM_range_post _
      (λ i (d : gmap nat (gmap string (TimeSeries V))) h,
         h = h1 ∧ dom d = (set_seq 0 i : gset nat) ∧
         ∀ i' row, d !! i' = Some row →
           dom row = (list_to_set (imap pair (target_names self)).*2
                      : gset string) ∧
           ∀ k idx t, imap pair (target_names self) !! k = Some (idx, t) →
             latest (imap pair (target_names self)) k t →
             entry i' idx t row)
      (n self) ∅ d h1 h Hrun).
    - split; [done|]. split; [done|]. intros i' row Hrow.
      by rewrite lookup_empty in Hrow.
    - intros i d1 g1 d2 g2' Hi (-> & Hdom1 & Hrows1)
        (row & g2 & Hinner & [-> ->]%ret_inv)%bind_inv.
      assert (Hrow : g2 = h1 ∧
                dom row = (list_to_set (imap pair (target_names self)).*2
                           : gset string) ∧
                ∀ k idx t, imap pair (target_names self) !! k = Some (idx, t) →
                  latest (imap pair (target_names self)) k t →
                  entry i idx t row).
      { apply (foldM_post _
          (λ done (row : gmap string (TimeSeries V)) h,
             h = h1 ∧ dom row = (list_to_set done.*2 : gset string) ∧
             ∀ k idx t, done !! k = Some (idx, t) → latest done k t →
               entry i idx t row)
          _ ∅ row h1 g2 Hinner).
        - split; [done|]. split; [done|]. by intros k idx t ?.
        - intros done [idx t] rest r1 k1 r2 k2 _ (-> & Hd1 & He1) Hbody.
          apply bind_inv in Hbody as (x1 & k & [Hx1 ->]%lift_inv & Hbody).
          apply bind_inv in Hbody as (x2 & k & [Hx2 ->]%lift_inv & Hbody).
          apply bind_inv in Hbody as (x3 & k & [Hx3 ->]%get_inv & Hbody).
          apply bind_inv in Hbody as (x4 & k & [Hx4 ->]%lift_inv & Hbody).
          apply ret_inv in Hbody as [-> ->]. split; [done|].
          apply dict_get_inv in Hx1, Hx2.
          split.
          { rewrite dom_insert_L, Hd1, fmap_app, list_to_set_app_L. cbn.
            rewrite union_empty_r_L. apply (comm_L (∪)). }
          intros k idx0 t0 Hk Hlatest.
          destruct (decide (k < length done)) as [Hlt|Hge].
          + rewrite lookup_app_l in Hk by done.
            assert (t0 ≠ t) as Hne.
            { intros ->. apply (Hlatest (length done) idx); [done|].
              by rewrite list_lookup_middle. }
            destruct (He1 k idx0 t0 Hk) as (r & a & ex & ts & ? & ? & ? & ? & ?).
            { intros k' idx' Hk' Hin. apply (Hlatest k' idx' Hk').
              by apply lookup_app_l_Some. }
            exists r, a, ex, ts. by rewrite lookup_insert_ne.
          + rewrite lookup_app_r in Hk by lia.
            apply list_lookup_singleton_Some in Hk as [_ [= <- <-]].
            exists x1, x2, x3, x4. by rewrite lookup_insert_eq. }
      destruct Hrow as (-> & Hdrow & Herow).
      split; [done|].
      split; [by rewrite dom_insert_L, set_seq_S_end_union_L, Hdom1|].
      intros i' row' Hi'. destruct (decide (i' = i)) as [->|Hne].
      + rewrite lookup_insert_eq in Hi'. by simplify_eq.
      + rewrite lookup_insert_ne in Hi' by done. by apply (Hrows1 i'). }
  destruct Hloop as (-> & Hdom & Hrows). split; [done|]. split; [done|].
  intros i row Hrow. destruct (Hrows i row Hrow) as [Hdrow Hentries].
  rewrite snd_imap_pair in Hdrow. split; [done|].
  intros idx t Hidx Hlast.
  apply (Hentries idx idx t).
  - by rewrite list_lookup_imap, Hidx.
  - intros k' idx' Hk' Hin. apply lookup_imap_pair in Hin as [_ Hin].
    by apply (Hlast k').
Qed.

(** The loops of [explain] run to their end when the dictionary of
    explanations has an object for every horizon and every place of a target
    and each of these objects makes a series. *)
Lemma explain_loops_total self (shap_ : gmap nat (gmap nat addr)) h :
  (∀ i idx, i < n self → idx < length (target_names self) →
     ∃ r a ex,
       shap_ !! i = Some r ∧ r !! idx = Some a ∧ h !! a = Some ex ∧
       is_Ok (from_times_and_values (expl_time_index ex) (values ex)
                (feature_names ex))) →
  ∃ d,
    foldM (λ (shap_values_dict : gmap nat (gmap string (TimeSeries V))) i,
             tmp ← foldM (λ (tmp : gmap string (TimeSeries V))
                            (it : nat * string),
                            let '(idx, t) := it in
                            row ← lift (dict_get shap_ i);
                            a ← lift (dict_get row idx);
                            ex ← get a;
                            ts ← lift (from_times_and_values
                                         (expl_time_index ex) (values ex)
                                         (feature_names ex));
                            mret (<[t := ts]> tmp))
                     ∅ (imap pair (target_names self));
             mret (<[i := tmp]> shap_values_dict))
      ∅ (range (n self)) h = Ok (d, h).
Proof.
  intros Hall. apply foldM_reads. intros d i Hi.
  unfold range in Hi. apply elem_of_seq in Hi.
  destruct (foldM_reads
    (λ (tmp : gmap string (TimeSeries V)) (it : nat * string),
       let '(idx, t) := it in
       row ← lift (dict_get shap_ i);
       a ← lift (dict_get row idx);
       ex ← get a;
       ts ← lift (from_times_and_values (expl_time_index ex) (values ex)
                    (feature_names ex));
       mret (<[t := ts]> tmp))
    (imap pair (target_names self)) ∅ h) as [row Hrow].
  { intros tmp [idx t] Hit.
    apply list_elem_of_lookup_1 in Hit as [k Hk].
    apply lookup_imap_pair in Hk as [-> Hk]. apply lookup_lt_Some in Hk.
    destruct (Hall i k) as (r & a & ex & Hr & Ha & Hex & [ts Hts]); [lia|done|].
    eexists.
    rewrite (bind_Ok _ _ h r h) by (by apply lift_Ok, dict_get_Ok).
    rewrite (bind_Ok _ _ h a h) by (by apply lift_Ok, dict_get_Ok).
    run (get_Ok _ _ _ Hex).
    rewrite (bind_Ok _ _ h ts h) by (by apply lift_Ok).
    reflexivity. }
  eexists. run Hrow. reflexivity.
Qed.

(** C10. Called without a foreground series, [explain] explains the
    background: the dictionary it returns is made from the explanations of
    the background series with the background covariates, whatever
    covariates came with the call. It has the horizons [0 .. n-1] as keys and
    under each of them the target names, and the entry for a horizon and a
    target is the series made of the time index, the values and the feature
    names of the object that [shap_explanations] holds, on the background,
    for that horizon and the place of the target among the target names (the
    last place when a name comes twice). For an explainer the constructor
    built with no more target names than target components, the call returns
    whenever the base class accepts it, [shap_explanations] returns on the
    background and each of its objects makes a series. *)
Theorem explain_without_foreground_uses_background self
    (foreground_past_covariates foreground_future_covariates : option (cov_arg V))
    h0 :
  (∀ (d : gmap nat (gmap string (TimeSeries V))) h,
     explain self None foreground_past_covariates foreground_future_covariates
       h0 = Ok (d, h) →
     ∃ shap_,
       shap_explanations (explainers self) (background_series self)
         (background_past_covariates self) (background_future_covariates self)
         None h0 = Ok (shap_, h) ∧
       dom d = set_seq 0 (n self) ∧
       ∀ i row, d !! i = Some row →
         dom row = list_to_set (target_names self) ∧
         ∀ idx t,
           target_names self !! idx = Some t →
           (∀ idx', idx < idx' → target_names self !! idx' ≠ Some t) →
           ∃ r a ex ts,
             shap_ !! i = Some r ∧ r !! idx = Some a ∧ h !! a = Some ex ∧
             from_times_and_values (expl_time_index ex) (values ex)
               (feature_names ex) = Ok ts ∧
             row !! t = Some ts) ∧
  (∀ model bg bpc bfc sm nb kw (shap_ : gmap nat (gmap nat addr)) h,
     ShapExplainer__init__ model bg bpc bfc sm nb kw = Ok self →
     length (target_names self) ≤ input_dim_target (se_model self) →
     base_explain self None foreground_past_covariates
       foreground_future_covariates = Ok () →
     shap_explanations (explainers self) (background_series self)
       (background_past_covariates self) (background_future_covariates self)
       None h0 = Ok (shap_, h) →
     (∀ i idx r a ex,
        shap_ !! i = Some r → r !! idx = Some a → h !! a = Some ex →
        is_Ok (from_times_and_values (expl_time_index ex) (values ex)
                 (feature_names ex))) →
     ∃ d, explain self None foreground_past_covariates
            foreground_future_covariates h0 = Ok (d, h)).
Proof.
  split.
  - intros d h. unfold explain.
    intros (u & h1 & [_ ->]%lift_inv & Hrun)%bind_inv.
    cbn -[shap_explanations foldM] in Hrun.
    destruct (background_series self) as [ts|l];
      cbn -[shap_explanations foldM] in Hrun;
      apply bind_inv in Hrun as (shap_ & h1 & Hshap & Hrun);
      apply explain_loops_post in Hrun as (-> & Hdom & Hrows);
      exists shap_; (split; [exact Hshap|done]).
  - intros model bg bpc bfc sm nb kw shap_ h
      (Hn & Hrse & Htd)%ShapExplainer__init__fields Hcount Hbase Hshap Hts.
    pose proof (shap_explanations_post _ _ _ _ _ _ _ _ Hshap)
      as (_ & Hdom & Hrows).
    rewrite Hrse in Hdom. rewrite Htd in Hrows.
    destruct (explain_loops_total self shap_ h) as [d Hd].
    { intros i idx Hi Hidx.
      assert (is_Some (shap_ !! i)) as [r Hr].
      { apply elem_of_dom. rewrite Hdom. apply elem_of_set_seq. lia. }
      destruct (Hrows _ _ Hr) as [Hdr Haddr].
      assert (is_Some (r !! idx)) as [a Ha].
      { apply elem_of_dom. rewrite Hdr. apply elem_of_set_seq. lia. }
      destruct (lookup_lt_is_Some_2 h a) as [ex Hex]; [by apply (Haddr idx a)|].
      exists r, a, ex. repeat split; try done. by apply (Hts i idx r a ex). }
    exists d. unfold explain.
    run (lift_Ok _ _ h0 Hbase).
    cbn -[shap_explanations foldM].
    destruct (background_series self) as [ts|l];
      cbn -[shap_explanations foldM].
    + rewrite (bind_Ok
                 (shap_explanations (explainers self) (Many [ts])
                    (wrap_cov (background_past_covariates self))
                    (wrap_cov (background_future_covariates self)) None)
                 _ h0 shap_ h Hshap).
      exact Hd.
    + run Hshap. exact Hd.
Qed.

End BackgroundProperties.

(** On the example explainer, with a covariate passed and ignored: the call
    returns, and its only entry is made from the object explaining the
    background. *)
Lemma explain_without_foreground_uses_background_witness :
  ∃ (shap_ : gmap nat (gmap nat addr)) (h : heap Z),
    shap_explanations (explainers Example.shap_explainer)
      (background_series Example.shap_explainer)
      (background_past_covariates Example.shap_explainer)
      (background_future_covariates Example.shap_explainer) None []
    = Ok (shap_, h) ∧
    ∃ d,
      explain Example.shap_explainer None
        (Some (CovSeries Example.past_cov)) None [] = Ok (d, h) ∧
      ∃ shap_',
        shap_explanations (explainers Example.shap_explainer)
          (background_series Example.shap_explainer)
          (background_past_covariates Example.shap_explainer)
          (background_future_covariates Example.shap_explainer) None []
        = Ok (shap_', h) ∧
        dom d = set_seq 0 (n Example.shap_explainer) ∧
        ∀ i row, d !! i = Some row →
          dom row = list_to_set (target_names Example.shap_explainer) ∧
          ∀ idx t,
            target_names Example.shap_explainer !! idx = Some t →
            (∀ idx', idx < idx' →
                     target_names Example.shap_explainer !! idx' ≠ Some t) →
            ∃ r a ex ts,
              shap_' !! i = Some r ∧ r !! idx = Some a ∧ h !! a = Some ex ∧
              from_times_and_values (expl_time_index ex) (values ex)
                (feature_names ex) = Ok ts ∧
              row !! t = Some ts.
Proof.
  eexists _, _. split; [vm_compute; reflexivity|].
  edestruct (proj2 (explain_without_foreground_uses_background
                      Example.shap_explainer
                      (Some (CovSeries Example.past_cov)) None [])
               (IsRegressionModel Example.single_model)
               (Some (One Example.univariate)) None None None None ∅)
    as [d Hd].
  - vm_compute. reflexivity.
  - vm_compute. lia.
  - reflexivity.
  - vm_compute. reflexivity.
  - intros i idx r a ex _ _ Hex. destruct a as [|a]; [|discriminate Hex].
    injection Hex as <-. eexists. vm_compute. reflexivity.
  - exists d. split; [exact Hd|].
    exact (proj1 (explain_without_foreground_uses_background
                    Example.shap_explainer
                    (Some (CovSeries Example.past_cov)) None []) d _ Hd).
Defined.
